(** * Anomaly-detection pipeline of the procurement audit back end

    A shallow embedding of the flag store ([app/db/repo.py]), the three
    detectors ([app/pipes/flag_fecha.py], [app/pipes/flag_precio.py],
    [app/pipes/flag_redcontactos.py]), the orchestrator
    ([app/pipes/pipeline.py]) and the endpoints that call them
    ([app/main.py]), followed by the properties the specification states
    about them and by further properties of the code.

    Conventions of the embedding.
    - A Python call that may raise is a function into [Result]; [Raise]
      carries the exception and no state, as the request that raised is
      rolled back by its caller.
    - The SQLAlchemy session is the record [Session] of the tables the code
      reads and writes, passed explicitly.  Tables are lists of rows, in the
      order a query without [ORDER BY] returns them.
    - Of the errors the database raises, the flag store has the two its
      callers can reach: the foreign key of an assignment on its licitacion
      ([IntegrityError]) and the width of the code and name of a definition
      ([DataError]).  The unique constraints are the invariant [store_ok]:
      the store inserts a row only after it has found none.  A key the
      database draws from a sequence is modelled as the key after the
      largest in use; the sequence is not part of the state, and of a new
      key the properties say only that it was not in use.
    - [float] is binary64, as Python's [float] and NumPy's [float64].
    - A Python [set] is the list of its members in the order a loop visits
      them; what is proved holds for every order.
    - What the Python runtime and NumPy provide (string methods, number
      formatting, the calendar, vector arithmetic, medians and percentiles)
      is an interface, the classes [PyRuntime] and [Numpy]; the code is
      embedded over any implementation of them. *)

From Stdlib Require Import ZArith Floats Lia Ascii.
From stdpp Require Import gmap strings list pretty sorting.
From Equations Require Import Equations.

Set Default Proof Using "Type*".
Set Warnings "-register-all,-inexact-float,-clear-no-such-hyp".
Open Scope Z_scope.

(** ** Exceptions *)

Inductive exn :=
| ValueError (msg : string)
| AttributeError (msg : string)
| TypeError (msg : string)
| MultipleResultsFound
| DataError (msg : string)
| IntegrityError (msg : string)
| ProgrammingError (msg : string).

Inductive Result (A : Type) :=
| Ok (a : A)
| Raise (e : exn).
Arguments Ok {A} a.
Arguments Raise {A} e.

Definition rbind {A B} (m : Result A) (k : A → Result B) : Result B :=
  match m with
  | Ok a => k a
  | Raise e => Raise e
  end.

Notation "'let!' x ':=' m 'in' k" := (rbind m (fun x => k))
  (at level 10, x pattern, m at level 100, k at level 200).

(** ** Dates and times

    A [datetime] is naive: the proleptic Gregorian ordinal of its date
    ([date.toordinal()]) and the microseconds since midnight.  Comparison is
    lexicographic; [d.date()] keeps the ordinal; [date + timedelta(days=1)]
    adds one to the ordinal. *)

Record datetime := mk_datetime { dt_ordinal : Z; dt_micros : Z }.

Definition datetime_ltb (a b : datetime) : bool :=
  (dt_ordinal a <? dt_ordinal b)
  || ((dt_ordinal a =? dt_ordinal b) && (dt_micros a <? dt_micros b)).

(** [date.weekday()]: Monday is 0 and Sunday is 6; ordinal 1 is a Monday. *)
Definition weekday (d : Z) : Z := (d + 6) mod 7.

(** ** Payloads

    The [json_override] dictionaries are JSON values as the web layer hands
    them over.  A dictionary is the list of its items in insertion order,
    with distinct keys. *)

Inductive json :=
| JNull
| JBool (b : bool)
| JInt (n : Z)
| JFloat (x : float)
| JStr (s : string)
| JList (l : list json)
| JDict (d : list (string * json)).

(** [d.get(k)] *)
Definition dict_get (d : list (string * json)) (k : string) : option json :=
  snd <$> head (filter (λ kv, fst kv = k) d).

(** Truth value of an object: [None], [False], zero, and the empty string,
    list and dictionary are falsy. *)
Definition truthy (v : json) : bool :=
  match v with
  | JNull => false
  | JBool b => b
  | JInt n => negb (n =? 0)
  | JFloat x => negb (PrimFloat.eqb x 0)
  | JStr s => negb (bool_decide (s = ""))
  | JList l => negb (bool_decide (l = []))
  | JDict d => negb (bool_decide (d = []))
  end.

(** [a or b] *)
Definition py_or (a b : json) : json := if truthy a then a else b.

(** [v.get(k)]: only a dictionary has the method *)
Definition py_get (v : json) (k : string) : Result json :=
  match v with
  | JDict d => Ok (default JNull (dict_get d k))
  | _ => Raise (AttributeError "object has no attribute 'get'")
  end.

(** The items a [for] loop over [v] visits: the members of a list, the
    characters of a string (of ASCII text), the keys of a dictionary *)
Definition py_iter (v : json) : Result (list json) :=
  match v with
  | JList l => Ok l
  | JStr s => Ok ((λ c, JStr (String c EmptyString)) <$> String.list_ascii_of_string s)
  | JDict d => Ok ((λ kv, JStr (fst kv)) <$> d)
  | _ => Raise (TypeError "object is not iterable")
  end.

(** [[f(x) for x in xs]] when [f] may raise *)
Fixpoint rmap {A B} (f : A → Result B) (xs : list A) : Result (list B) :=
  match xs with
  | [] => Ok []
  | x :: rest =>
      let! y := f x in
      let! ys := rmap f rest in
      Ok (y :: ys)
  end.

(** [list(dict.fromkeys(xs))]: the first occurrence of each member, in order *)
Fixpoint dict_fromkeys `{EqDecision A} (xs : list A) : list A :=
  match xs with
  | [] => []
  | x :: rest => x :: filter (λ y, y ≠ x) (dict_fromkeys rest)
  end.

(** ** The runtime interface *)

Class PyRuntime := {
  (** [date.isoformat()] of the date with the given ordinal *)
  date_isoformat : Z → string;
  (** [str(dt)] of a datetime *)
  datetime_str : datetime → string;
  (** [datetime.now()], as the n-th reading of the clock *)
  clock : nat → datetime;
  (** [s.strip()] and [s.lower()] *)
  str_strip : string → string;
  str_lower : string → string;
  (** [str(n)] of an integer, [repr(x)] of a float, [repr] of a list or a
      dictionary *)
  int_str : Z → string;
  float_repr : float → string;
  container_repr : json → string;
  (** [int(s)] of a string and [int(x)] of a float; [None] when it raises *)
  int_of_str : string → option Z;
  int_of_float : float → option Z;
  (** [f"${x:,.0f}".replace(",", ".")], [f"{x:+.1f}"] and [f"{x:.2f}"] *)
  float_fmt_money : float → string;
  float_fmt_signed1 : float → string;
  float_fmt_fixed2 : float → string;
}.

(** What the code uses of NumPy.  Vectors are lists of binary64 values that
    are float32 numbers. *)
Class Numpy := {
  (** [np.float32(x)] *)
  to_float32 : float → float;
  (** [float(np.linalg.norm(x))] *)
  linalg_norm : list float → float;
  (** [(x / n).astype(np.float32)] *)
  vec_div : list float → float → list float;
  (** [np.vstack(vecs).mean(axis=0)]; raises on rows of unequal length *)
  vstack_mean : list (list float) → Result (list float);
  (** [float(np.dot(a, b))]; raises on unequal lengths *)
  np_dot : list float → list float → Result float;
  (** [float(np.median(a))], and [float(np.percentile(a, q))] for an integer
      [q] *)
  np_median : list float → float;
  np_percentile : list float → Z → float;
}.

(** ** Built-in functions over the runtime *)

Section builtins.
Context `{PyRuntime}.

(** [int(v)] of a payload value *)
Definition py_int (v : json) : Result Z :=
  match v with
  | JInt n => Ok n
  | JBool b => Ok (if b then 1 else 0)
  | JStr s => match int_of_str s with
              | Some n => Ok n
              | None => Raise (ValueError "invalid literal for int()")
              end
  | JFloat x => match int_of_float x with
                | Some n => Ok n
                | None => Raise (ValueError "cannot convert float to integer")
                end
  | _ => Raise (TypeError "int() argument must be a string or a number")
  end.

(** [str(v)] *)
Definition py_str (v : json) : string :=
  match v with
  | JStr s => s
  | JInt n => int_str n
  | JBool b => if b then "True" else "False"
  | JNull => "None"
  | JFloat x => float_repr x
  | _ => container_repr v
  end.

(** [str(x)] of an optional string, as an f-string prints it *)
Definition opt_str (x : option string) : string := default "None" x.
End builtins.

(** ** [app/db/schema.py]: the tables

    Only the columns the detectors and the flag store touch are kept. *)

Record Licitacion := mk_Licitacion {
  lic_id : Z;
  lic_entidad : string;
  lic_cuantia : option float;
  lic_modalidad : option string;
  lic_estado : option string;
  lic_act_econ : option string;
}.

Record Flags := mk_Flags {
  flag_id : Z;
  flag_codigo : option string;
  flag_nombre : option string;
  flag_descripcion : option string;
}.

Record FlagsLicitaciones := mk_FlagsLicitaciones {
  fli_id : Z;
  fli_licitacion_id : Z;
  fli_flag_id : Z;
  fli_valor : bool;
  fli_fecha_detectado : datetime;
  fli_comentario : option string;
  fli_fuente : option string;
}.

Record FlagsLog := mk_FlagsLog {
  log_id : Z;
  log_flags_licitaciones_id : Z;
  log_cambio : option string;
  log_fecha : datetime;
  log_usuario : option string;
}.

Record LicitacionChunk := mk_LicitacionChunk {
  chunk_id : Z;
  chunk_licitacion_id : Z;
  chunk_embedding_vec : option (list float);
}.

Record LicitacionKeymap := mk_LicitacionKeymap {
  km_licitacion_id : Z;
  km_lic_ext_id : option string;
}.

(** A row of [staging.secop_calendario_norm], [archivo] already cast to text. *)
Record CalendarioNorm := mk_CalendarioNorm {
  cal_archivo : string;
  cal_aceptacion_ofertas_ts : option datetime;
  cal_apertura_ofertas_ts : option datetime;
}.

(** The session: the tables as the open transaction sees them, and the
    number of times the clock has been read. *)
Record Session := mk_Session {
  t_licitacion : list Licitacion;
  t_licitacion_chunk : list LicitacionChunk;
  t_licitacion_keymap : list LicitacionKeymap;
  t_calendario_norm : list CalendarioNorm;
  t_flags : list Flags;
  t_flags_licitaciones : list FlagsLicitaciones;
  t_flags_log : list FlagsLog;
  clock_reads : nat;
}.

Definition with_flags (s : Session) (fl : list Flags) : Session :=
  mk_Session (t_licitacion s) (t_licitacion_chunk s) (t_licitacion_keymap s)
    (t_calendario_norm s) fl (t_flags_licitaciones s) (t_flags_log s)
    (clock_reads s).

Definition with_flags_licitaciones (s : Session)
    (rows : list FlagsLicitaciones) : Session :=
  mk_Session (t_licitacion s) (t_licitacion_chunk s) (t_licitacion_keymap s)
    (t_calendario_norm s) (t_flags s) rows (t_flags_log s) (clock_reads s).

Definition with_flags_log (s : Session) (rows : list FlagsLog) : Session :=
  mk_Session (t_licitacion s) (t_licitacion_chunk s) (t_licitacion_keymap s)
    (t_calendario_norm s) (t_flags s) (t_flags_licitaciones s) rows
    (clock_reads s).

Definition with_clock_reads (s : Session) (n : nat) : Session :=
  mk_Session (t_licitacion s) (t_licitacion_chunk s) (t_licitacion_keymap s)
    (t_calendario_norm s) (t_flags s) (t_flags_licitaciones s) (t_flags_log s) n.

(** The key a new row receives: one more than the largest key in use. *)
Definition next_id (ids : list Z) : Z := 1 + foldr Z.max 0 ids.

(** [session.get(Licitacion, id)] *)
Definition get_licitacion (s : Session) (id : Z) : option Licitacion :=
  head (filter (λ l, lic_id l = id) (t_licitacion s)).

(** [session.commit()]: the tables of the transaction become durable; the
    view the code has of them does not change. *)
Definition commit (s : Session) : Session := s.

(** [x or d] on an optional string: [None] and the empty string are falsy. *)
Definition str_or (x : option string) (d : string) : string :=
  match x with
  | Some s => if decide (s = "") then d else s
  | None => d
  end.

(** [str(b)] of a boolean *)
Definition bool_str (b : bool) : string := if b then "True" else "False".

(** The characters of a text held as UTF-8, which is what
    [character varying(n)] counts: the bytes that do not continue a
    character. *)
Definition is_continuation (c : Ascii.ascii) : bool :=
  ((128 <=? Ascii.N_of_ascii c) && (Ascii.N_of_ascii c <? 192))%N.

Definition char_length (v : string) : nat :=
  length (filter (λ c, is_continuation c = false) (String.list_ascii_of_string v)).

(** Whether a value is longer than a column of the given width holds; the
    database refuses to store such a value. *)
Definition too_long (width : nat) (v : string) : bool :=
  (width <? char_length v)%nat.

(** The widths of [Flags.codigo] and [Flags.nombre], [schema.py] lines
    76-77 *)
Definition CODIGO_WIDTH : nat := 10.
Definition NOMBRE_WIDTH : nat := 255.

(** The table of definitions after [INSERT INTO public.flags ... ON
    CONFLICT (codigo) DO UPDATE SET nombre, descripcion] has run: the row of
    the code with the name and description, under the key it had, or a new
    row. *)
Definition upserted_flags (s : Session) (codigo nombre descripcion : string) : Session :=
  if bool_decide (Exists (λ f, flag_codigo f = Some codigo) (t_flags s))
  then
    with_flags s
      ((λ f, if decide (flag_codigo f = Some codigo)
             then mk_Flags (flag_id f) (flag_codigo f) (Some nombre) (Some descripcion)
             else f) <$> t_flags s)
  else
    with_flags s
      (t_flags s ++ [mk_Flags (next_id (flag_id <$> t_flags s)) (Some codigo)
                       (Some nombre) (Some descripcion)]).

(** The statement as the database runs it, for [flag_precio._ensure_flag]
    and [flag_redcontactos.ensure_flag_exists]: the row to insert is formed
    first, and a code or a name longer than its column is refused, defined
    or not. *)
Definition upsert_flag (s : Session) (codigo nombre descripcion : string)
    : Result Session :=
  if too_long CODIGO_WIDTH codigo || too_long NOMBRE_WIDTH nombre
  then Raise (DataError "value too long for type character varying")
  else Ok (upserted_flags s codigo nombre descripcion).

(** A stable sort, by insertion: [ORDER BY id] on rows with distinct keys,
    and [list.sort(key=...)] when the keys are totally ordered by [<]. *)
Fixpoint insert_by {A} (lt : A → A → bool) (x : A) (l : list A) : list A :=
  match l with
  | [] => [x]
  | y :: l' => if lt y x then y :: insert_by lt x l' else x :: l
  end.

Definition sort_by {A} (lt : A → A → bool) (l : list A) : list A :=
  foldr (insert_by lt) [] l.

(** [xs[:k]] *)
Definition slice_to {A} (xs : list A) (k : Z) : list A :=
  if 0 <=? k then take (Z.to_nat k) xs
  else take (Z.to_nat (Z.of_nat (length xs) + k)) xs.

(** [np.isfinite(x)] *)
Definition isfinite (x : float) : bool :=
  negb (PrimFloat.is_nan x) && negb (PrimFloat.is_infinity x).

(** ** [app/db/repo.py]: the flag store *)

Module Repo.
Section repo.
Context `{PyRuntime}.

(** [datetime.now()] *)
Definition datetime_now (s : Session) : datetime * Session :=
  (clock (clock_reads s), with_clock_reads s (S (clock_reads s))).

(** [ensure_flag_by_codigo], lines 70-76.  [scalar_one_or_none] raises
    when the query has more than one row; the flush of line 75 sends the
    new row, and the database refuses a code or a name longer than its
    column. *)
Definition ensure_flag_by_codigo (s : Session) (codigo : string)
    (nombre : option string) : Result (Session * Flags) :=
  match filter (λ f, flag_codigo f = Some codigo) (t_flags s) with
  | [] =>
      let flag := mk_Flags (next_id (flag_id <$> t_flags s)) (Some codigo)
                    (Some (str_or nombre codigo)) None in
      if too_long CODIGO_WIDTH codigo || too_long NOMBRE_WIDTH (str_or nombre codigo)
      then Raise (DataError "value too long for type character varying")
      else Ok (with_flags s (t_flags s ++ [flag]), flag)
  | [flag] => Ok (s, flag)
  | _ => Raise MultipleResultsFound
  end.

(** The [else] branch of [set_flag_for_licitacion], lines 111-114: the
    attribute writes on the row that was selected. *)
Definition overwrite_fli (fli : FlagsLicitaciones) (valor : bool)
    (fecha : datetime) (comentario fuente : option string) : FlagsLicitaciones :=
  mk_FlagsLicitaciones (fli_id fli) (fli_licitacion_id fli) (fli_flag_id fli)
    valor fecha comentario fuente.

(** [set_flag_for_licitacion], lines 79-125.  The flush of line 109 sends
    the new assignment row, and the database refuses it when no licitacion
    has its [licitacion_id] (the foreign key of [schema.py] lines 97-100). *)
Definition set_flag_for_licitacion (s : Session) (licitacion_id : Z)
    (flag_codigo : string) (valor : bool)
    (comentario fuente usuario_log : option string)
    (fecha : option datetime) : Result (Session * FlagsLicitaciones) :=
  let '(fecha, s) :=
    match fecha with
    | Some f => (f, s)
    | None => datetime_now s
    end in
  let! (s, flag) := ensure_flag_by_codigo s flag_codigo None in
  let found :=
    head (filter (λ r, fli_licitacion_id r = licitacion_id
                       ∧ fli_flag_id r = flag_id flag)
            (t_flags_licitaciones s)) in
  let! (s, fli) :=
    match found with
    | None =>
        let fli := mk_FlagsLicitaciones
                     (next_id (fli_id <$> t_flags_licitaciones s))
                     licitacion_id (flag_id flag) valor fecha comentario fuente in
        match get_licitacion s licitacion_id with
        | None =>
            Raise (IntegrityError "flags_licitaciones.licitacion_id: no such licitacion")
        | Some _ =>
            Ok (with_flags_licitaciones s (t_flags_licitaciones s ++ [fli]), fli)
        end
    | Some old =>
        let fli := overwrite_fli old valor fecha comentario fuente in
        Ok (with_flags_licitaciones s
              ((λ r, if decide (fli_id r = fli_id old) then fli else r)
                 <$> t_flags_licitaciones s), fli)
    end in
  let log := mk_FlagsLog (next_id (log_id <$> t_flags_log s)) (fli_id fli)
               (Some ("valor=" +:+ bool_str valor +:+ "; comentario="
                      +:+ str_or comentario "" +:+ "; fuente="
                      +:+ str_or fuente ""))
               fecha (Some (str_or usuario_log "sistema")) in
  Ok (with_flags_log s (t_flags_log s ++ [log]), fli).

(** The assignment rows of one (licitacion, flag code) pair, which is what
    the properties below read back from the store. *)
Definition flag_ids_of (s : Session) (codigo : string) : list Z :=
  flag_id <$> filter (λ f, flag_codigo f = Some codigo) (t_flags s).

Definition assignments_of (s : Session) (licitacion_id : Z)
    (codigo : string) : list FlagsLicitaciones :=
  filter (λ r, fli_licitacion_id r = licitacion_id
               ∧ fli_flag_id r ∈ flag_ids_of s codigo)
    (t_flags_licitaciones s).

(** A code the store can use: one already defined, or one that
    [Flags.codigo] holds (as the name of a new definition it then fits
    [Flags.nombre] too). *)
Definition code_fits (s : Session) (codigo : string) : Prop :=
  flag_ids_of s codigo ≠ [] ∨ too_long CODIGO_WIDTH codigo = false.

(** The constraints of the schema on the three flag tables: the unique
    code of a definition ([uq_flags_codigo]), the unique pair of an
    assignment ([uq_flags_licitacion_flag]), and the primary keys. *)
Definition store_ok (s : Session) : Prop :=
  NoDup (omap flag_codigo (t_flags s))
  ∧ NoDup (flag_id <$> t_flags s)
  ∧ NoDup (fli_id <$> t_flags_licitaciones s)
  ∧ NoDup ((λ r, (fli_licitacion_id r, fli_flag_id r)) <$> t_flags_licitaciones s).

(** The pair an assignment row is unique for *)
Definition pair_of (r : FlagsLicitaciones) : Z * Z :=
  (fli_licitacion_id r, fli_flag_id r).

(** The tables the flag store never writes *)
Definition same_entities (s s' : Session) : Prop :=
  t_licitacion s' = t_licitacion s
  ∧ t_licitacion_chunk s' = t_licitacion_chunk s
  ∧ t_licitacion_keymap s' = t_licitacion_keymap s
  ∧ t_calendario_norm s' = t_calendario_norm s.

(** What a detector may do to the session: write the three flag tables,
    the log by appending to it, and nothing else *)
Definition flags_only (s s' : Session) : Prop :=
  same_entities s s' ∧ t_flags_log s `prefix_of` t_flags_log s'.
End repo.
End Repo.

(** ** [app/pipes/flag_fecha.py]: the date-gap detector *)

Module FlagFecha.
Section business_days.
Context `{PyRuntime}.

(** The loop test of [_business_days], line 41:
    [cur.weekday() < 5 and (not holidays or cur.isoformat() not in holidays)]. *)
Definition is_business_day (holidays : option (gset string)) (cur : Z) : bool :=
  (weekday cur <? 5)
  && match holidays with
     | None => true
     | Some hs =>
         bool_decide (hs = ∅) || negb (bool_decide (date_isoformat cur ∈ hs))
     end.

(** The [while cur < end] loop, lines 40-43. *)
Equations? business_days_loop (holidays : option (gset string))
    (cur stop days : Z) : Z by wf (Z.to_nat (stop - cur)) lt :=
  business_days_loop holidays cur stop days with decide (cur < stop) => {
    | left _ :=
        business_days_loop holidays (cur + 1) stop
          (if is_business_day holidays cur then days + 1 else days);
    | right _ := days }.
Proof. lia. Qed.

(** [_business_days], lines 32-44 *)
Definition _business_days (d1 d2 : option datetime)
    (holidays : option (gset string)) : option Z :=
  match d1, d2 with
  | Some d1, Some d2 =>
      let '(d1, d2) := if datetime_ltb d2 d1 then (d2, d1) else (d1, d2) in
      let cur := dt_ordinal d1 in
      let stop := dt_ordinal d2 in
      Some (business_days_loop holidays cur stop 0)
  | _, _ => None
  end.

Definition FLAG_CODE : string := "F-GAP-APERT".
Definition FLAG_NAME : string := "Gap aceptación vs apertura (días hábiles)".

(** [FLAG_DESC.format(dias="{n}", threshold=threshold)] *)
Definition flag_desc (threshold : Z) : string :=
  "Diferencia de días hábiles entre la Aceptación de ofertas y la Apertura de Ofertas. "
  +:+ "Son {n} días hábiles que duró el proceso; la regla vigente espera ≤ "
  +:+ int_str threshold +:+ " días hábiles.".

(** [db.execute(text("DO $$ ... $$"), params)].  A [DO] block takes no
    parameters: its body is a string constant, in which the server binds
    nothing.  The driver of the repository's URL ([postgresql+psycopg],
    [deps.py] line 6) binds on the server, so a block sent with parameters
    is refused before it runs, whatever it would do. *)
Definition execute_do (params : list (string * string))
    (block : Session → Result Session) (s : Session) : Result Session :=
  match params with
  | [] => block s
  | _ => Raise (ProgrammingError "could not determine data type of parameter $1")
  end.

(** The block of [_ensure_flag], lines 19-30: insert the definition under
    the key [COALESCE(MAX(id),0)+1] when the code is new, else update it.
    The insert is refused for a code or a name longer than its column, and
    [FLAG_CODE] has 11 characters. *)
Definition ensure_flag_block (desc : string) (s : Session) : Result Session :=
  if bool_decide (Exists (λ f, flag_codigo f = Some FLAG_CODE) (t_flags s))
  then
    if too_long NOMBRE_WIDTH FLAG_NAME
    then Raise (DataError "value too long for type character varying")
    else
      Ok (with_flags s
            ((λ f, if decide (flag_codigo f = Some FLAG_CODE)
                   then mk_Flags (flag_id f) (flag_codigo f) (Some FLAG_NAME) (Some desc)
                   else f) <$> t_flags s))
  else
    let nid := match flag_id <$> t_flags s with
               | [] => 0
               | i :: ids => foldr Z.max i ids
               end + 1 in
    if too_long CODIGO_WIDTH FLAG_CODE || too_long NOMBRE_WIDTH FLAG_NAME
    then Raise (DataError "value too long for type character varying")
    else
      Ok (with_flags s
            (t_flags s ++ [mk_Flags nid (Some FLAG_CODE) (Some FLAG_NAME) (Some desc)])).

(** [_ensure_flag], lines 16-30: the block is sent with the parameters
    [c], [n] and [d]. *)
Definition _ensure_flag (s : Session) (threshold : Z) : Result Session :=
  let desc := flag_desc threshold in
  execute_do [("c", FLAG_CODE); ("n", FLAG_NAME); ("d", desc)]
    (ensure_flag_block desc) s.

Definition is_container (v : json) : bool :=
  match v with
  | JList _ | JDict _ => true
  | _ => false
  end.

(** [set(v)] of a payload value, kept as the set of its members that are
    strings: a member of another type never equals the ISO string line 41
    looks up, and a set that holds only such members passes every date, as
    the empty set does.  A list with an unhashable member, and a value
    that is not iterable, raise. *)
Definition py_set (v : json) : Result (gset string) :=
  match v with
  | JList l =>
      if existsb is_container l
      then Raise (TypeError "unhashable type")
      else Ok (list_to_set (omap (λ x, match x with JStr s => Some s | _ => None end) l))
  | JDict d => Ok (list_to_set (fst <$> d))
  | JStr s => Ok (list_to_set ((λ c, String c EmptyString) <$> String.list_ascii_of_string s))
  | _ => Raise (TypeError "object is not iterable")
  end.

Record GapDetail := mk_GapDetail {
  dias_habiles : Z;
  gap_threshold : Z;
  gap_archivo : string;
  aceptacion_ofertas_ts : option datetime;
  apertura_ofertas_ts : option datetime;
}.

(** The dictionaries [run_flag_fecha_for_one] returns: [{ok: False, flow,
    reason}] or [{ok: True, flow, flag_applied, detail}]. *)
Inductive GapResult :=
| GapSkipped (reason : string)
| GapApplied (flag_applied : bool) (detail : GapDetail).

Definition gap_ok (r : GapResult) : bool :=
  match r with
  | GapSkipped _ => false
  | GapApplied _ _ => true
  end.

(** The query of lines 63-72: the first calendar row the key map links to
    the licitacion. *)
Definition calendar_row (s : Session) (licitacion_id : Z) : option CalendarioNorm :=
  head (k ← filter (λ k, km_licitacion_id k = licitacion_id) (t_licitacion_keymap s);
        filter (λ n, Some (cal_archivo n) = km_lic_ext_id k) (t_calendario_norm s)).

Definition opt_datetime_str (d : option datetime) : string :=
  match d with
  | Some d => datetime_str d
  | None => "None"
  end.

(** [run_flag_fecha_for_one], lines 46-110. *)
Definition run_flag_fecha_for_one (s : Session) (licitacion_id : Z)
    (json_override : option (list (string * json))) : Result (Session * GapResult) :=
  let json_override := default [] json_override in
  let! threshold := py_int (default (JInt 5) (dict_get json_override "threshold")) in
  let! holidays := py_set (default (JList []) (dict_get json_override "holidays")) in
  match calendar_row s licitacion_id with
  | None => Ok (s, GapSkipped "sin_calendario")
  | Some row =>
      match _business_days (cal_aceptacion_ofertas_ts row)
              (cal_apertura_ofertas_ts row) (Some holidays) with
      | None => Ok (s, GapSkipped "fechas_incompletas")
      | Some dias =>
          let! s := _ensure_flag s threshold in
          let comentario :=
            "Gap: " +:+ int_str dias +:+ " días hábiles (Aceptación: "
            +:+ opt_datetime_str (cal_aceptacion_ofertas_ts row)
            +:+ ", Apertura: " +:+ opt_datetime_str (cal_apertura_ofertas_ts row)
            +:+ "; archivo=" +:+ cal_archivo row +:+ "). Son " +:+ int_str dias
            +:+ " días hábiles que duró el proceso; se espera ≤ "
            +:+ int_str threshold +:+ " días hábiles." in
          let! (s, _) :=
            Repo.set_flag_for_licitacion s licitacion_id FLAG_CODE
              (bool_decide (dias > threshold)) (Some comentario)
              (Some "pipe:gap_fechas") (Some "pipeline") None in
          Ok (s, GapApplied (bool_decide (dias > threshold))
                   (mk_GapDetail dias threshold (cal_archivo row)
                      (cal_aceptacion_ofertas_ts row)
                      (cal_apertura_ofertas_ts row)))
      end
  end.
End business_days.
End FlagFecha.


(** ** [app/pipes/flag_precio.py]: the price detector *)

Module FlagPrecio.
Section precio.
Context `{PyRuntime} `{Numpy}.

Definition TOP_K : Z := 50.
Definition MIN_NEIGHBORS_FOR_STATS : Z := 10.
Definition Z_MAD_THRESHOLD : float := 2.8%float.
Definition MAX_TARGET_CHUNKS : nat := 128.
Definition MAX_CANDIDATES : nat := 5000.
Definition MAX_CAND_PER_LIC_CHUNKS : nat := 64.
Definition STRICT_FILTER_MODALIDAD : bool := true.
Definition STRICT_FILTER_ACT_ECON : bool := true.
Definition PENALTY_ESTADO : float := 0.10%float.

(** [_ensure_flag], lines 38-51.  The three values are literals of the
    statement, and each fits its column (the code has 10 characters, the
    name 34), so the database accepts it. *)
Definition _ensure_flag (s : Session) : Session :=
  commit (upserted_flags s "red_precio" "Desviación de precio (comparables)"
    "Evalúa si la cuantía está fuera del rango robusto (IQR/zMAD) de comparables similares.").

(** [_to_np_vec], lines 54-73, on a value of the vector column *)
Definition _to_np_vec (v : option (list float)) : option (list float) :=
  match v with
  | None => None
  | Some l =>
      let arr := to_float32 <$> l in
      if (0 <? length arr)%nat && forallb isfinite arr then Some arr else None
  end.

(** [_l2_normalize], lines 76-80 *)
Definition _l2_normalize (x : list float) : list float :=
  let n := linalg_norm x in
  if negb (isfinite n) || PrimFloat.eqb n 0 then x else vec_div x n.

(** [_fmt_money], lines 83-87 *)
Definition _fmt_money (x : option float) : string :=
  match x with
  | None => "—"
  | Some x => if isfinite x then float_fmt_money x else "—"
  end.

Record RobustStats := mk_RobustStats {
  median : float;
  mad : float;
  z_mad : float;
  q1 : float;
  q3 : float;
  iqr : float;
  lower : float;
  upper : float;
  n : Z;
}.

(** [_robust_stats], lines 107-118 *)
Definition _robust_stats (values : list float) (target : float) : RobustStats :=
  let arr := values in
  let size := length arr in
  let med := if (0 <? size)%nat then np_median arr else 0%float in
  let abs_dev := if (0 <? size)%nat
                 then (λ x, PrimFloat.abs (x - med)%float) <$> arr
                 else [0%float] in
  let mad := np_median abs_dev in
  let z_mad := if PrimFloat.eqb mad 0 || negb (isfinite target)
               then 0%float
               else (0.6745 * (target - med) / mad)%float in
  let q1 := if (0 <? size)%nat then np_percentile arr 25 else 0%float in
  let q3 := if (0 <? size)%nat then np_percentile arr 75 else 0%float in
  let iqr := (q3 - q1)%float in
  let lower := (q1 - 1.5 * iqr)%float in
  let upper := (q3 + 1.5 * iqr)%float in
  mk_RobustStats med mad z_mad q1 q3 iqr lower upper (Z.of_nat size).

Definition chunks_by_id (rows : list LicitacionChunk) : list LicitacionChunk :=
  sort_by (λ a b, chunk_id a <? chunk_id b) rows.

(** [_fetch_target_docvec], lines 125-147 *)
Definition _fetch_target_docvec (s : Session) (lic_id : Z)
    : Result (option (list float)) :=
  let rows :=
    take MAX_TARGET_CHUNKS
      (chunks_by_id
         (filter (λ c, chunk_licitacion_id c = lic_id
                       ∧ chunk_embedding_vec c ≠ None)
            (t_licitacion_chunk s))) in
  let vecs := omap (λ c, _l2_normalize <$> _to_np_vec (chunk_embedding_vec c)) rows in
  match vecs with
  | [] => Ok None
  | _ => let! mean := vstack_mean vecs in Ok (Some (_l2_normalize mean))
  end.

(** [_fetch_target_meta], lines 150-162: the row, or [None] for the empty
    dictionary *)
Definition _fetch_target_meta (s : Session) (lid : Z) : option Licitacion :=
  head (filter (λ l, lic_id l = lid) (t_licitacion s)).

(** A value of an optional text column is truthy when it is a non-empty
    string. *)
Definition opt_truthy (x : option string) : bool :=
  match x with
  | Some v => negb (bool_decide (v = ""))
  | None => false
  end.

(** [_fetch_candidate_headers], lines 165-186 *)
Definition _fetch_candidate_headers (s : Session) (lid : Z)
    (filt : option Licitacion) : list Licitacion :=
  let mod_ := filt ≫= lic_modalidad in
  let act := filt ≫= lic_act_econ in
  let keep (c : Licitacion) : bool :=
    negb (lic_id c =? lid)
    && (if STRICT_FILTER_MODALIDAD && opt_truthy mod_
        then bool_decide (lic_modalidad c = mod_) else true)
    && (if STRICT_FILTER_ACT_ECON && opt_truthy act
        then bool_decide (lic_act_econ c = act) else true) in
  take MAX_CANDIDATES
    (sort_by (λ a b, lic_id a <? lic_id b) (filter (λ c, keep c = true) (t_licitacion s))).

(** [ROW_NUMBER() OVER (PARTITION BY licitacion_id ORDER BY id)] of a row
    among the selected rows *)
Definition row_number (rows : list LicitacionChunk) (r : LicitacionChunk) : nat :=
  S (length (filter (λ r', chunk_licitacion_id r' = chunk_licitacion_id r
                           ∧ chunk_id r' < chunk_id r) rows)).

(** [_fetch_candidate_chunks_docvecs], lines 189-216.  The rows come in
    table order, the statement having no [ORDER BY]; the dictionary is the
    list of its items. *)
Definition _fetch_candidate_chunks_docvecs (s : Session) (cand_ids : list Z)
    : Result (list (Z * list float)) :=
  match cand_ids with
  | [] => Ok []
  | _ =>
      let rows := filter (λ c, chunk_embedding_vec c ≠ None
                               ∧ chunk_licitacion_id c ∈ cand_ids)
                    (t_licitacion_chunk s) in
      let kept :=
        omap (λ r, if (MAX_CAND_PER_LIC_CHUNKS <? row_number rows r)%nat then None
                   else nv ← _to_np_vec (chunk_embedding_vec r);
                        Some (chunk_licitacion_id r, _l2_normalize nv)) rows in
      let lids := dict_fromkeys (fst <$> kept) in
      let fix go (lids : list Z) : Result (list (Z * list float)) :=
        match lids with
        | [] => Ok []
        | lid :: rest =>
            let vecs := snd <$> filter (λ kv, fst kv = lid) kept in
            let! mean := vstack_mean vecs in
            let! out := go rest in
            Ok ((lid, _l2_normalize mean) :: out)
        end in
      go lids
  end.

(** [_cosine_distance], lines 223-224 *)
Definition _cosine_distance (a b : list float) : Result float :=
  let! d := np_dot (_l2_normalize a) (_l2_normalize b) in
  Ok (1.0 - d)%float.

(** [_penalty], lines 227-234, with the module global [PENALTY_ESTADO] as
    the argument [penalty_estado] that [run_flag_precio_for_one] has just
    stored in it *)
Definition _penalty (penalty_estado : float) (meta_t : option Licitacion)
    (meta_c : Licitacion) : float :=
  let est_t := meta_t ≫= lic_estado in
  let est := lic_estado meta_c in
  if opt_truthy est_t && opt_truthy est
     && negb (bool_decide (str_strip <$> est_t = str_strip <$> est))
  then (0.0 + penalty_estado)%float
  else 0.0%float.

Record FlagPrecioResult := mk_FlagPrecioResult {
  licitacion_id : Z;
  n_comparables : Z;
  method : string;
  stats : RobustStats;
  target_cuantia : option float;
  neighbor_ids : list Z;
}.

Definition empty_stats : RobustStats :=
  mk_RobustStats 0 0 0 0 0 0 0 0 0.

(** The loop of lines 296-305: [(id, score, cuantia)] of every candidate
    that has a document vector *)
Fixpoint score_candidates (penalty_estado : float) (t_vec : list float)
    (t_meta : option Licitacion) (cand_docvecs : list (Z * list float))
    (cands : list Licitacion) : Result (list (Z * float * float)) :=
  match cands with
  | [] => Ok []
  | tup :: rest =>
      let cid := lic_id tup in
      match snd <$> head (filter (λ kv, fst kv = cid) cand_docvecs) with
      | None => score_candidates penalty_estado t_vec t_meta cand_docvecs rest
      | Some c_vec =>
          let! d := _cosine_distance t_vec c_vec in
          let sc := (d + _penalty penalty_estado t_meta tup)%float in
          let cuant := default PrimFloat.nan (lic_cuantia tup) in
          let! scored := score_candidates penalty_estado t_vec t_meta cand_docvecs rest in
          Ok ((cid, sc, cuant) :: scored)
      end
  end.

(** The comment of lines 353-373, for a target with a finite value *)
Definition price_comment (valor_flag : bool) (t_cuantia : float)
    (st : RobustStats) (size : nat) : string :=
  let dev_pct :=
    if negb (PrimFloat.eqb (median st) 0) && isfinite (median st)
       && negb (PrimFloat.eqb (median st) 0)
    then Some (100.0 * (t_cuantia - median st) / median st)%float
    else None in
  let dev_str :=
    match dev_pct with
    | Some d => if isfinite d then float_fmt_signed1 d +:+ "%" else "—"
    | None => "—"
    end in
  if valor_flag then
    "Posible outlier de precio: cuantía=" +:+ _fmt_money (Some t_cuantia)
    +:+ "; mediana=" +:+ _fmt_money (Some (median st))
    +:+ "; desvío=" +:+ dev_str
    +:+ "; IQR=[" +:+ _fmt_money (Some (lower st)) +:+ ","
    +:+ _fmt_money (Some (upper st)) +:+ "]; zMAD=" +:+ float_fmt_fixed2 (z_mad st)
    +:+ " (umbral 2.8); vecinos=" +:+ int_str (Z.of_nat size)
    +:+ "; método=chunks_mean_cos."
  else
    "Precio en rango: cuantía=" +:+ _fmt_money (Some t_cuantia)
    +:+ " dentro de IQR=[" +:+ _fmt_money (Some (lower st)) +:+ ","
    +:+ _fmt_money (Some (upper st)) +:+ "], desvío=" +:+ dev_str
    +:+ "; |zMAD|=" +:+ float_fmt_fixed2 (PrimFloat.abs (z_mad st))
    +:+ " (< 2.8); vecinos=" +:+ int_str (Z.of_nat size)
    +:+ "; método=chunks_mean_cos.".

(** The decision of lines 345-351: the value that is persisted *)
Definition price_flag (t_cuantia : option float) (st : RobustStats) : bool :=
  match t_cuantia with
  | None => false
  | Some t =>
      if negb (isfinite t) then false
      else
        let out_iqr := PrimFloat.ltb t (lower st) || PrimFloat.ltb (upper st) t in
        let out_mad := PrimFloat.leb Z_MAD_THRESHOLD (PrimFloat.abs (z_mad st)) in
        out_iqr || out_mad
  end.

(** The comment of the flag written when the target has no usable chunk
    vector, line 283 *)
Definition no_embedding_comment : string :=
  "Sin embedding/chunks válidos para el target; no se puede calcular similitud con comparables.".

(** [run_flag_precio_for_one], lines 255-392 *)
Definition run_flag_precio_for_one (s : Session) (lid : Z)
    (top_k min_neighbors : Z) (penalty_estado : float)
    : Result (Session * FlagPrecioResult) :=
  match get_licitacion s lid with
  | None => Raise (ValueError ("Licitación " +:+ int_str lid +:+ " no existe"))
  | Some target =>
      let s := _ensure_flag s in
      let! t_vec := _fetch_target_docvec s lid in
      let t_meta := _fetch_target_meta s lid in
      let t_cuantia := t_meta ≫= lic_cuantia in
      match t_vec with
      | None =>
          let! (s, _) :=
            Repo.set_flag_for_licitacion s lid "red_precio" false
              (Some no_embedding_comment)
              (Some "flag_precio(skip)") (Some "pipeline") None in
          Ok (s, mk_FlagPrecioResult lid 0 "skip" empty_stats t_cuantia [])
      | Some t_vec =>
          let cands := _fetch_candidate_headers s lid t_meta in
          let cand_ids := lic_id <$> cands in
          let! cand_docvecs := _fetch_candidate_chunks_docvecs s cand_ids in
          let! scored := score_candidates penalty_estado t_vec t_meta cand_docvecs cands in
          match scored with
          | [] =>
              let! (s, _) :=
                Repo.set_flag_for_licitacion s lid "red_precio" false
                  (Some "No hay comparables con doc_vec (chunks) válidos para estimar precio.")
                  (Some "flag_precio_chunks_mean_cos(skip)") (Some "pipeline") None in
              Ok (s, mk_FlagPrecioResult lid 0 "skip" empty_stats t_cuantia [])
          | _ =>
              let scored := sort_by (λ a b, PrimFloat.ltb (snd (fst a)) (snd (fst b))) scored in
              let top := slice_to scored (Z.max top_k min_neighbors) in
              let kept := filter (λ x, PrimFloat.is_nan (snd x) = false) top in
              let vec_cuantias := snd <$> kept in
              let vec_ids := (λ x, fst (fst x)) <$> kept in
              let size := length vec_cuantias in
              if Z.of_nat size <? min_neighbors then
                let! (s, _) :=
                  Repo.set_flag_for_licitacion s lid "red_precio" false
                    (Some ("Solo " +:+ int_str (Z.of_nat size)
                           +:+ " comparables con cuantía; se requieren ≥ "
                           +:+ int_str min_neighbors +:+ " para evaluación robusta."))
                    (Some "flag_precio_chunks_mean_cos(skip)") (Some "pipeline") None in
                Ok (s, mk_FlagPrecioResult lid (Z.of_nat size) "chunks_mean_cos"
                         empty_stats t_cuantia vec_ids)
              else
                let st := _robust_stats vec_cuantias (default PrimFloat.nan t_cuantia) in
                let valor_flag := price_flag t_cuantia st in
                let comentario :=
                  match t_cuantia with
                  | None => "Licitación sin cuantía; no se evalúa outlier de precio."
                  | Some t =>
                      if negb (isfinite t)
                      then "Licitación sin cuantía; no se evalúa outlier de precio."
                      else price_comment valor_flag t st size
                  end in
                let! (s, _) :=
                  Repo.set_flag_for_licitacion s lid "red_precio" valor_flag
                    (Some comentario) (Some "flag_precio_chunks_mean_cos")
                    (Some "pipeline") None in
                Ok (s, mk_FlagPrecioResult lid (Z.of_nat size) "chunks_mean_cos"
                         st t_cuantia vec_ids)
          end
      end
  end.
End precio.
End FlagPrecio.

(** ** [app/pipes/flag_redcontactos.py]: the contact-graph detector *)

Module RedContactos.

(** *** The graph search, over any type of node *)
Section graph.
Context `{Countable K}.

(** The [for nb in adj.get(node, [])] loop of lines 161-169, from the
    state [(seen, q)]: the path it returns, if it does, and the state it
    leaves.  A set is the list of its members in iteration order. *)
Fixpoint visit (dst : K) (max_depth : Z) (path : list K) (nbs : list K)
    (seen : gset K) (q : list (K * list K))
    : option (list K) * gset K * list (K * list K) :=
  match nbs with
  | [] => (None, seen, q)
  | nb :: rest =>
      if decide (nb ∈ seen) then visit dst max_depth path rest seen q
      else
        let newp := path ++ [nb] in
        if decide (nb = dst) then (Some newp, seen, q)
        else if Z.of_nat (length newp) - 1 <=? max_depth
             then visit dst max_depth path rest ({[nb]} ∪ seen) (q ++ [(nb, newp)])
             else visit dst max_depth path rest seen q
  end.

(** Every node some adjacency set holds *)
Definition universe (adj : gmap K (list K)) : gset K :=
  list_to_set (mjoin (snd <$> map_to_list adj)).

Definition bfs_measure (adj : gmap K (list K)) (seen : gset K)
    (q : list (K * list K)) : nat :=
  (2 * size (universe adj ∖ seen) + length q)%nat.

Lemma visit_measure adj dst max_depth path nbs seen q :
  (∀ nb, nb ∈ nbs → nb ∈ universe adj) →
  (bfs_measure adj (visit dst max_depth path nbs seen q).1.2
     (visit dst max_depth path nbs seen q).2 ≤ bfs_measure adj seen q)%nat.
Proof.
  revert seen q. induction nbs as [|nb rest IH]; intros seen q Hin; simpl.
  - lia.
  - destruct (decide (nb ∈ seen)).
    + apply IH. intros; apply Hin; set_solver.
    + destruct (decide (nb = dst)); simpl; [lia|].
      destruct (_ <=? _).
      * etrans; [apply IH; intros; apply Hin; set_solver|].
        unfold bfs_measure. rewrite length_app. simpl.
        assert (nb ∈ universe adj) by (apply Hin; set_solver).
        assert (universe adj ∖ seen ≡ {[nb]} ∪ universe adj ∖ ({[nb]} ∪ seen)) as Heq.
        { intros x. destruct (decide (x = nb)) as [->|]; set_solver. }
        assert (size (universe adj ∖ seen)
                = S (size (universe adj ∖ ({[nb]} ∪ seen)))) as ->.
        { rewrite Heq, size_union, size_singleton; [done|set_solver]. }
        lia.
      * apply IH. intros; apply Hin; set_solver.
Qed.

Lemma neighbours_in_universe (adj : gmap K (list K)) node nb :
  nb ∈ default [] (adj !! node) → nb ∈ universe adj.
Proof.
  destruct (adj !! node) as [l|] eqn:E; simpl; [|set_solver].
  intros Hnb. unfold universe. apply elem_of_list_to_set, list_elem_of_join.
  exists l. split; [done|]. apply list_elem_of_fmap. exists (node, l). split; [done|].
  by apply elem_of_map_to_list.
Qed.

(** The [while q] loop of lines 157-170.  The test of lines 159-160 has the
    body [pass] and so leaves no trace here.  Every pass pops one entry, and
    every entry pushed marks a node not seen before, so the loop ends. *)
Equations? bfs (adj : gmap K (list K)) (dst : K) (max_depth : Z)
    (seen : gset K) (q : list (K * list K)) : option (list K)
    by wf (bfs_measure adj seen q) lt :=
  bfs adj dst max_depth seen [] := None;
  bfs adj dst max_depth seen ((node, path) :: q') :=
    match (visit dst max_depth path (default [] (adj !! node)) seen q').1.1 with
    | Some newp => Some newp
    | None =>
        bfs adj dst max_depth
          (visit dst max_depth path (default [] (adj !! node)) seen q').1.2
          (visit dst max_depth path (default [] (adj !! node)) seen q').2
    end.
Proof.
  pose proof (visit_measure adj dst max_depth path (default [] (adj !! node)) seen q'
    (neighbours_in_universe adj node)) as Hm.
  unfold bfs_measure in *. simpl. lia.
Qed.

(** [shortest_path], lines 153-170 *)
Definition shortest_path (adj : gmap K (list K)) (src dst : K) (max_depth : Z)
    : option (list K) :=
  if bool_decide (src = dst) || bool_decide (adj !! src = None)
     || bool_decide (adj !! dst = None)
  then None
  else bfs adj dst max_depth {[src]} [(src, [src])].

(** [adj.setdefault(a, set()).add(b)] *)
Definition add_edge (adj : gmap K (list K)) (a b : K) : gmap K (list K) :=
  let old := default [] (adj !! a) in
  <[a := if decide (b ∈ old) then old else old ++ [b]]> adj.

(** [score_path], lines 215-218 *)
Definition score_path (path : list K) : Z :=
  let base := if decide (length path = 2%nat) then 30 else 18 in
  let bonus := 0 in
  base + bonus.

(** What the search guarantees about the length of the path it returns:
    one hop more than [max_depth] is possible, as an entry at depth
    [max_depth] is still expanded and line 165 returns before line 167
    tests the depth. *)
Definition shallow (max_depth : Z) (q : list (K * list K)) : Prop :=
  Forall (λ e, Z.of_nat (length e.2) - 1 ≤ max_depth) q.

(** A walk of the graph: every node after the first is in the adjacency set
    of the node before it. *)
Fixpoint is_walk (adj : gmap K (list K)) (p : list K) : Prop :=
  match p with
  | a :: rest =>
      match rest with
      | b :: _ => b ∈ default [] (adj !! a) ∧ is_walk adj rest
      | [] => True
      end
  | [] => True
  end.

(** A walk from [src] to [dst] that visits no node twice *)
Definition is_path (adj : gmap K (list K)) (src dst : K) (p : list K) : Prop :=
  head p = Some src ∧ last p = Some dst ∧ is_walk adj p ∧ NoDup p.

(** An adjacency in which every edge goes both ways, no node is its own
    neighbour, and both ends of an edge are keys *)
Definition undirected (adj : gmap K (list K)) : Prop :=
  ∀ a b, b ∈ default [] (adj !! a) →
         a ∈ default [] (adj !! b) ∧ a ≠ b ∧ is_Some (adj !! a) ∧ is_Some (adj !! b).

(** What the search keeps true of an entry [(node, path)] of its queue:
    the path is a path from [src] to [node] over nodes already seen. *)
Definition entry_ok (adj : gmap K (list K)) (src : K) (seen : gset K)
    (e : K * list K) : Prop :=
  is_path adj src e.1 e.2 ∧ ∀ x, x ∈ e.2 → x ∈ seen.

(** The number of hops of a path: its edges *)
Definition hops (p : list K) : Z := Z.of_nat (length p) - 1.

(** A walk of the graph from [src] to [v] *)
Definition walk_to (adj : gmap K (list K)) (src v : K) (p : list K) : Prop :=
  is_walk adj p ∧ head p = Some src ∧ last p = Some v.

(** An entry of the queue holds a walk to its node with the fewest hops
    there are, not more than [max_depth]. *)
Definition entry_min (adj : gmap K (list K)) (src : K) (max_depth : Z)
    (seen : gset K) (e : K * list K) : Prop :=
  walk_to adj src e.1 e.2 ∧ e.1 ∈ seen ∧ hops e.2 ≤ max_depth
  ∧ ∀ p', walk_to adj src e.1 p' → hops e.2 ≤ hops p'.

(** A node the search is done with: [dst] is not among its neighbours, and
    they are all seen, unless the node is [max_depth] hops away or more. *)
Definition closed (adj : gmap K (list K)) (src dst : K) (max_depth : Z)
    (seen : gset K) (w : K) : Prop :=
  ∀ nb, nb ∈ default [] (adj !! w) →
        nb ≠ dst
        ∧ (nb ∈ seen ∨ ∀ p', walk_to adj src w p' → max_depth < hops p' + 1).

(** The order of the queue: by hops, which differ by one at most *)
Definition by_hops (e1 e2 : K * list K) : Prop :=
  hops e1.2 ≤ hops e2.2 ≤ hops e1.2 + 1.

(** What holds each time the search tests its queue *)
Definition bfs_inv (adj : gmap K (list K)) (src dst : K) (max_depth : Z)
    (seen : gset K) (q : list (K * list K)) : Prop :=
  src ∈ seen ∧ (dst ∉ seen)
  ∧ NoDup (fst <$> q)
  ∧ Forall (entry_min adj src max_depth seen) q
  ∧ StronglySorted by_hops q
  ∧ (∀ w, w ∈ seen → (w ∉ fst <$> q) → closed adj src dst max_depth seen w)
  ∧ (∀ e, head q = Some e →
          ∀ p' u, walk_to adj src u p' → hops p' ≤ hops e.2 → u ∈ seen).

(** What holds while the neighbours of the entry [(node, path)] are
    visited, [visited] being those already done *)
Definition visit_inv (adj : gmap K (list K)) (src dst : K) (max_depth : Z)
    (node : K) (path visited : list K) (seen : gset K) (q : list (K * list K))
    : Prop :=
  src ∈ seen ∧ (dst ∉ seen)
  ∧ NoDup (node :: (fst <$> q))
  ∧ entry_min adj src max_depth seen (node, path)
  ∧ Forall (entry_min adj src max_depth seen) q
  ∧ StronglySorted by_hops q
  ∧ Forall (by_hops (node, path)) q
  ∧ (∀ w, w ∈ seen → (w ∉ node :: (fst <$> q)) → closed adj src dst max_depth seen w)
  ∧ (∀ nb, nb ∈ visited → nb ≠ dst ∧ (nb ∈ seen ∨ max_depth < hops path + 1))
  ∧ (∀ p' u, walk_to adj src u p' → hops p' ≤ hops path → u ∈ seen).
End graph.

Record Trabajo := mk_Trabajo {
  cargo : option string;
  trabajo_entidad : option string;
  anio_inicio : option Z;
  anio_fin : option Z;
  descripcion : option string;
}.

(** An entry of [Persona.conexiones]: the dictionary with the keys
    [con_id], [con_nombre], [tipo] and [fuente] that both parsers build *)
Record Conexion := mk_Conexion {
  con_id : option string;
  con_nombre : option string;
  con_tipo : option string;
  con_fuente : option string;
}.

(** [id] and [nombre] are declared [str], and hold [None] when the parser's
    [_safe_str] returns it. *)
Record Persona := mk_Persona {
  p_id : option string;
  p_nombre : option string;
  p_entidad : option string;
  p_ent_publica : option bool;
  p_es_contratista : bool;
  p_trabajos : list Trabajo;
  p_conexiones : list Conexion;
}.

(** An entry of [matches], lines 267-271 *)
Record Match := mk_Match {
  oficial_id : option string;
  oficial_nombre : option string;
  contratista_id : option string;
  contratista_nombre : option string;
  path_ids : list (option string);
  path_len : Z;
  score : Z;
}.

Record ContactosDetail := mk_ContactosDetail {
  detail_lic_entidad : string;
  detail_official_ids : list (option string);
  detail_contractor_ids : list (option string);
  detail_matches : list Match;
}.

(** The dictionaries [run_red_contactos] returns: [{ok: False, detail}],
    [{ok: True, flag_applied: False, detail}] with a text, and
    [{ok: True, flag_applied, comment, detail}]. *)
Inductive ContactosResult :=
| NoLicitacion (detail : string)
| NothingToDo (detail : string)
| Evaluated (flag_applied : bool) (comment : string) (detail : ContactosDetail).

Section detector.
Context `{PyRuntime}.

Definition FLAG_CODE : string := "red_contac".
Definition FLAG_NAME : string := "Red de contactos".
Definition FLAG_DESC : string := "Posible conflicto por red de contactos".

(** [_safe_str], lines 38-39 *)
Definition _safe_str (x : json) : option string :=
  match x with
  | JNull => None
  | _ => let t := str_strip (py_str x) in
         if decide (t = "") then None else Some t
  end.

Definition of_opt (x : option string) : json :=
  match x with
  | Some v => JStr v
  | None => JNull
  end.

(** [_norm_name], lines 41-42, on a payload value: a truthy value that is
    not a string has no [lower] *)
Definition _norm_name (x : json) : Result (option string) :=
  if negb (truthy x) then Ok None
  else match x with
       | JStr v => Ok (_safe_str (JStr (str_lower v)))
       | _ => Raise (AttributeError "object has no attribute 'lower'")
       end.

(** [_norm_name] on its declared domain, [Optional[str]] *)
Definition norm_name_str (x : option string) : option string :=
  match x with
  | Some v => if decide (v = "") then None else _safe_str (JStr (str_lower v))
  | None => None
  end.

(** [int(v) if v is not None else None] *)
Definition opt_int (v : json) : Result (option Z) :=
  match v with
  | JNull => Ok None
  | _ => let! n := py_int v in Ok (Some n)
  end.

(** [bool(v) if v is not None else None] *)
Definition opt_bool (v : json) : option bool :=
  match v with
  | JNull => None
  | _ => Some (truthy v)
  end.

Definition no_get {A} : Result A :=
  Raise (AttributeError "object has no attribute 'get'").

(** [_from_v1_people], lines 45-91 *)
Definition _from_v1_people (json_override : list (string * json))
    : Result (list Persona) :=
  let! people_raw :=
    py_iter (py_or (default JNull (dict_get json_override "personas")) (JList [])) in
  rmap (λ p,
    match p with
    | JDict d =>
        let get k := default JNull (dict_get d k) in
        let nombre := _safe_str (py_or (get "Nombre") (get "nombre")) in
        let pid := _safe_str (py_or (get "id") (py_or (of_opt nombre) (JStr ""))) in
        let entidad := _safe_str (py_or (get "Entidad") (get "entidad")) in
        let ent_publica :=
          if bool_decide (is_Some (dict_get d "Ent_publica"))
          then get "Ent_publica" else get "ent_publica" in
        let es_contratista := truthy (default (JBool false) (dict_get d "es_contratista")) in
        let at_list :=
          py_or (get "Anteriores_trabajos") (py_or (get "anteriores_trabajos") (JList [])) in
        let at_list := match at_list with JDict _ => JList [at_list] | _ => at_list end in
        let! ts := py_iter (py_or at_list (JList [])) in
        let! trabajos :=
          rmap (λ t, match t with
                     | JDict td =>
                         Ok (mk_Trabajo (_safe_str (default JNull (dict_get td "cargo")))
                               None None None None)
                     | _ => no_get
                     end) ts in
        let conn_map :=
          py_or (get "conexion_directas") (py_or (get "conexiones") (JDict [])) in
        let! conns :=
          match conn_map with
          | JDict items =>
              rmap (λ kv, match snd kv with
                          | JDict md =>
                              Ok (mk_Conexion (_safe_str (default JNull (dict_get md "id")))
                                    (_safe_str (JStr (fst kv))) None None)
                          | _ => no_get
                          end) items
          | _ => Ok []
          end in
        Ok (mk_Persona
              (Some (default (default "" nombre) pid))
              (Some (default (default "persona_sin_nombre" pid) nombre))
              entidad (opt_bool ent_publica) es_contratista trabajos conns)
    | _ => no_get
    end) people_raw.

(** [_from_v2_people], lines 93-131: the persons and the raw approver list *)
Definition _from_v2_people (json_override : list (string * json))
    : Result (list Persona * json) :=
  let! personas_raw :=
    py_iter (py_or (default JNull (dict_get json_override "personas")) (JList [])) in
  let! res :=
    rmap (λ p,
      match p with
      | JDict d =>
          let get k := default JNull (dict_get d k) in
          let id := _safe_str (py_or (get "id") (py_or (get "persona_id")
                                 (py_or (get "nombre") (JStr "")))) in
          let nombre := _safe_str (py_or (get "nombre") (py_or (get "id")
                                     (JStr "persona_sin_nombre"))) in
          let entidad := _safe_str (get "entidad") in
          let ent_publica := opt_bool (get "ent_publica") in
          let es_contratista :=
            truthy (default (JBool false) (dict_get d "es_contratista")) in
          let! ts := py_iter (py_or (get "trabajos") (JList [])) in
          let! trabajos :=
            rmap (λ t, match t with
                       | JDict td =>
                           let tget k := default JNull (dict_get td k) in
                           let! inicio := opt_int (tget "anio_inicio") in
                           let! fin_ := opt_int (tget "anio_fin") in
                           Ok (mk_Trabajo (_safe_str (tget "cargo"))
                                 (_safe_str (tget "entidad")) inicio fin_
                                 (_safe_str (tget "descripcion")))
                       | _ => no_get
                       end) ts in
          let! cs := py_iter (py_or (get "conexiones") (JList [])) in
          let! conexiones :=
            rmap (λ c, match c with
                       | JDict cd =>
                           let cget k := default JNull (dict_get cd k) in
                           Ok (mk_Conexion (_safe_str (cget "con_id"))
                                 (_safe_str (cget "con_nombre"))
                                 (_safe_str (cget "tipo")) (_safe_str (cget "fuente")))
                       | _ => no_get
                       end) cs in
          Ok (mk_Persona id nombre entidad ent_publica es_contratista trabajos conexiones)
      | _ => no_get
      end) personas_raw in
  let aprobadores := py_or (default JNull (dict_get json_override "aprobadores")) (JList []) in
  Ok (res, aprobadores).

(** A person's name is truthy when it is a non-empty string. *)
Definition has_nombre (p : Persona) : bool :=
  match p_nombre p with
  | Some v => negb (bool_decide (v = ""))
  | None => false
  end.

(** [build_graph], lines 134-151 *)
Definition build_graph (people : list Persona)
    : gmap (option string) Persona * gmap (option string) (list (option string)) :=
  let by_id := foldl (λ m p, <[p_id p := p]> m) ∅ people in
  let name_to_id : gmap (option string) (option string) :=
    foldl (λ m p,
             if has_nombre p then
               let k := norm_name_str (p_nombre p) in
               match m !! k with
               | Some _ => m
               | None => <[k := p_id p]> m
               end
             else m) ∅ people in
  let adj0 : gmap (option string) (list (option string)) :=
    foldl (λ m p, <[p_id p := []]> m) ∅ people in
  let adj :=
    foldl (λ adj p,
             foldl (λ adj c,
                      let tid := con_id c in
                      let tnm := con_nombre c in
                      let target :=
                        match _safe_str (of_opt tid) with
                        | Some t => Some t
                        | None => mjoin (name_to_id !! norm_name_str tnm)
                        end in
                      if negb (bool_decide (target = None))
                         && negb (bool_decide (target = Some ""))
                         && negb (bool_decide (target = p_id p))
                      then add_edge (add_edge adj (p_id p) target) target (p_id p)
                      else adj)
                   adj (p_conexiones p))
          adj0 people in
  (by_id, adj).

(** [{_norm_name(p.nombre): p.id for p in people if p.nombre}]: a later
    person with the same name replaces an earlier one *)
Definition by_name_of (people : list Persona) : gmap (option string) (option string) :=
  foldl (λ m p, if has_nombre p then <[norm_name_str (p_nombre p) := p_id p]> m else m)
    ∅ people.

Definition id_truthy (x : option string) : bool :=
  negb (bool_decide (x = None)) && negb (bool_decide (x = Some "")).

(** [pick_official_ids], lines 173-192 *)
Definition pick_official_ids (lic_entidad : string) (people : list Persona)
    (aprobadores : json) : Result (list (option string)) :=
  let lic_ent := norm_name_str (Some lic_entidad) in
  let! aps := py_iter (py_or aprobadores (JList [])) in
  let! picked :=
    rmap (λ ap,
      let! tipo := py_get ap "tipo_actor" in
      let! tipo := _norm_name tipo in
      if bool_decide (tipo = Some "publico") then
        let! same :=
          match lic_ent with
          | None => Ok true
          | Some _ =>
              let! ent := py_get ap "entidad" in
              let! ent := _norm_name ent in
              Ok (bool_decide (ent = lic_ent))
          end in
        if same : bool then
          let! nombre := py_get ap "nombre" in
          Ok [default "" (_safe_str nombre)]
        else Ok []
      else Ok []) aps in
  let ids : list string := mjoin picked in
  let by_name := by_name_of people in
  let mapped :=
    omap (λ n, let k := norm_name_str (Some n) in
               match by_name !! k with
               | Some v => Some v
               | None => None
               end) ids in
  let mapped := filter (λ x, id_truthy x = true) mapped in
  let mapped :=
    match mapped with
    | [] =>
        p_id <$> filter (λ p, p_ent_publica p = Some true
                              ∧ lic_ent ≠ None
                              ∧ norm_name_str (p_entidad p) = lic_ent) people
    | _ => mapped
    end in
  Ok (dict_fromkeys mapped).

(** [pick_contractor_ids], lines 194-203 *)
Definition pick_contractor_ids (people : list Persona)
    (json_override : list (string * json)) : Result (list (option string)) :=
  let first := p_id <$> filter (λ p, p_es_contratista p = true) people in
  let by_name := by_name_of people in
  let! names :=
    py_iter (py_or (default JNull (dict_get json_override "contratistas")) (JList [])) in
  let! extra :=
    rmap (λ n,
      let! k := _norm_name n in
      let nid := mjoin (by_name !! k) in
      Ok (if id_truthy nid then [nid] else [])) names in
  Ok (dict_fromkeys (first ++ mjoin extra)).

(** [ensure_flag_exists], lines 221-229 *)
Definition ensure_flag_exists (s : Session) (codigo nombre descripcion : string)
    : Result Session :=
  let! s := upsert_flag s codigo nombre descripcion in
  Ok (commit s).

Definition nombre_or_id (by_id : gmap (option string) Persona)
    (id : option string) : option string :=
  match by_id !! id with
  | Some p => p_nombre p
  | None => id
  end.

(** The state of the search of lines 254-271: [matches], [best] and
    [best_score] *)
Definition search_state : Type :=
  list Match * option (option string * option string * list (option string)) * Z.

(** The body of the inner loop, lines 260-271 *)
Definition try_pair (adj : gmap (option string) (list (option string)))
    (by_id : gmap (option string) Persona) (oid cid : option string)
    (st : search_state) : search_state :=
  let '(matches, best, best_score) := st in
  match shortest_path adj oid cid 2 with
  | None | Some [] => st
  | Some path =>
      let sc := score_path path in
      let '(best, best_score) :=
        if best_score <? sc then (Some (oid, cid, path), sc) else (best, best_score) in
      (matches ++ [mk_Match oid (nombre_or_id by_id oid) cid (nombre_or_id by_id cid)
                     path (Z.of_nat (length path) - 1) sc],
       best, best_score)
  end.

(** The two nested loops, lines 258-271 *)
Definition search_matches (adj : gmap (option string) (list (option string)))
    (by_id : gmap (option string) Persona)
    (official_ids contractor_ids : list (option string)) : search_state :=
  foldl (λ st oid, foldl (λ st cid, try_pair adj by_id oid cid st) st contractor_ids)
    ([], None, - 10 ^ 9) official_ids.

(** [run_red_contactos], lines 231-316 *)
Definition run_red_contactos (s : Session) (lid : Z)
    (json_override : list (string * json)) : Result (Session * ContactosResult) :=
  match get_licitacion s lid with
  | None => Ok (s, NoLicitacion "Licitación no existe")
  | Some lic =>
      if bool_decide (json_override = []) then Ok (s, NothingToDo "JSON vacío")
      else
        let! (people_v2, aprobadores) := _from_v2_people json_override in
        let! (people, aprobadores) :=
          match people_v2 with
          | [] =>
              let! people := _from_v1_people json_override in
              Ok (people, default (JList []) (dict_get json_override "aprobadores"))
          | _ => Ok (people_v2, aprobadores)
          end in
        match people with
        | [] => Ok (s, NothingToDo "Sin 'personas' válidas")
        | _ =>
            let '(by_id, adj) := build_graph people in
            let! official_ids := pick_official_ids (lic_entidad lic) people aprobadores in
            let! contractor_ids := pick_contractor_ids people json_override in
            let '(matches, best, _) :=
              search_matches adj by_id official_ids contractor_ids in
            let '(comment, apply_flag) :=
              match best with
              | Some (oid, cid, path) =>
                  let saltos := Z.of_nat (length path) - 1 in
                  ("[red_contactos] Mejor coincidencia: "
                   +:+ opt_str (nombre_or_id by_id oid) +:+ " ↔ "
                   +:+ opt_str (nombre_or_id by_id cid) +:+ " en "
                   +:+ int_str saltos +:+ " salto(s). Total coincidencias: "
                   +:+ int_str (Z.of_nat (length matches)) +:+ ".", true)
              | None =>
                  let degs :=
                    (λ oid, (oid, length (default [] (adj !! oid)))) <$> official_ids in
                  let degs := sort_by (λ a b, (snd b <? snd a)%nat) degs in
                  let top := default (None, 0%nat) (head degs) in
                  (if id_truthy (fst top) && (5 <=? snd top)%nat
                   then "[red_contactos] Sin caminos ≤2 saltos; oficial con conectividad alta: "
                        +:+ opt_str (nombre_or_id by_id (fst top)) +:+ " (grado="
                        +:+ int_str (Z.of_nat (snd top)) +:+ ")."
                   else "[red_contactos] No hay suficientes evidencias de conexión.",
                   false)
              end in
            let! s := ensure_flag_exists s FLAG_CODE FLAG_NAME FLAG_DESC in
            let! (s, _) :=
              Repo.set_flag_for_licitacion s lid FLAG_CODE apply_flag (Some comment)
                (Some "pipeline.redcontactos(json-v2)") (Some "pipeline") None in
            Ok (s, Evaluated apply_flag comment
                     (mk_ContactosDetail (lic_entidad lic) official_ids contractor_ids
                        matches))
        end
  end.

(** The persons and the approvers [run_red_contactos] reads from a
    payload, lines 240-245: those of the v2 parser when it finds a person,
    else those of the v1 parser with the approvers of the payload. *)
Definition payload_people (json_override : list (string * json))
    (people : list Persona) (aprobadores : json) : Prop :=
  (people ≠ [] ∧ _from_v2_people json_override = Ok (people, aprobadores))
  ∨ (∃ aps, _from_v2_people json_override = Ok ([], aps)
            ∧ _from_v1_people json_override = Ok people
            ∧ aprobadores = default (JList []) (dict_get json_override "aprobadores")).

(** No entry of [matches] pairs a person with themself. *)
Definition no_self_match (st : search_state) : Prop :=
  ∀ m, m ∈ st.1.1 → oficial_id m ≠ contratista_id m.

End detector.
End RedContactos.

(** ** [app/pipes/pipeline.py]: the orchestrator *)

(** What the database makes of the text of a [WHERE] clause: the rows of
    [public.licitacion] it keeps, or [None] when it rejects the text. *)
Class SqlEngine := {
  sql_where : string → Session → option (Licitacion → bool);
}.

Module Pipeline.

(** The [result] of the price flow, lines 64-80 *)
Record PrecioDetail := mk_PrecioDetail {
  d_method : string;
  d_n_comparables : Z;
  d_median : float;
  d_z_mad : float;
  d_lower : float;
  d_upper : float;
  d_neighbors : list Z;
}.

Record PrecioResult := mk_PrecioResult {
  precio_ok : bool;
  precio_flag_applied : bool;
  precio_detail : PrecioDetail;
}.

(** The dictionaries [_run_one_flow] returns: [{flow, ok, error}] and
    [{flow, result}] for each of the three flows *)
Inductive FlowEntry :=
| EntryError (flow : string) (ok : bool) (error : string)
| EntryContactos (result : RedContactos.ContactosResult)
| EntryPrecio (result : PrecioResult)
| EntryGap (result : FlagFecha.GapResult).

Definition entry_flow (e : FlowEntry) : string :=
  match e with
  | EntryError flow _ _ => flow
  | EntryContactos _ => "red_contactos"
  | EntryPrecio _ => "red_precio"
  | EntryGap _ => "gap_fechas"
  end.

(** [{"licitacion_id": ..., "applied": [...]}] *)
Record RunResult := mk_RunResult {
  run_licitacion_id : Z;
  applied : list FlowEntry;
}.

Section orchestrator.
Context `{PyRuntime} `{Numpy} `{SqlEngine}.

(** Whether the two guarded imports of lines 9-19 succeeded *)
Variable HAS_PRECIO : bool.
Variable HAS_GAP_FECHA : bool.

(** [get_computable_flows], lines 23-32 *)
Definition get_computable_flows : list string :=
  (if HAS_PRECIO then ["red_precio"] else [])
  ++ (if HAS_GAP_FECHA then ["gap_fechas"] else []).

(** [get_interactive_flows], lines 34-38 *)
Definition get_interactive_flows : list string := ["red_contactos"].

(** [get_available_flows], lines 40-45 *)
Definition get_available_flows : list string :=
  get_computable_flows ++ get_interactive_flows ++ ["all"].

(** [not json_override] *)
Definition no_payload (json_override : option (list (string * json))) : bool :=
  match json_override with
  | None | Some [] => true
  | Some _ => false
  end.

(** [_run_one_flow], lines 48-89 *)
Definition _run_one_flow (s : Session) (lic_id : Z) (flow : string)
    (json_override : option (list (string * json))) : Result (Session * FlowEntry) :=
  if decide (flow = "red_contactos") then
    if no_payload json_override
    then Ok (s, EntryError "red_contactos" false "json_required")
    else
      let! (s, r) := RedContactos.run_red_contactos s lic_id (default [] json_override) in
      Ok (s, EntryContactos r)
  else if bool_decide (flow = "red_precio") && HAS_PRECIO then
    let! (s, res) :=
      FlagPrecio.run_flag_precio_for_one s lic_id FlagPrecio.TOP_K
        FlagPrecio.MIN_NEIGHBORS_FOR_STATS FlagPrecio.PENALTY_ESTADO in
    let st := FlagPrecio.stats res in
    Ok (s, EntryPrecio
             (mk_PrecioResult true
                match FlagPrecio.target_cuantia res with
                | None => false
                | Some t =>
                    PrimFloat.ltb t (FlagPrecio.lower st)
                    || PrimFloat.ltb (FlagPrecio.upper st) t
                    || PrimFloat.leb 2.8 (PrimFloat.abs (FlagPrecio.z_mad st))
                end
                (mk_PrecioDetail (FlagPrecio.method res) (FlagPrecio.n_comparables res)
                   (FlagPrecio.median st) (FlagPrecio.z_mad st) (FlagPrecio.lower st)
                   (FlagPrecio.upper st) (FlagPrecio.neighbor_ids res))))
  else if bool_decide (flow = "gap_fechas") && HAS_GAP_FECHA then
    let! (s, r) :=
      FlagFecha.run_flag_fecha_for_one s lic_id (Some (default [] json_override)) in
    Ok (s, EntryGap r)
  else Raise (ValueError ("Flow desconocido o no disponible: " +:+ flow)).

(** The list comprehension of line 104, the session passing from one
    flow to the next *)
Fixpoint run_flows (s : Session) (licitacion_id : Z) (flows : list string)
    (json_override : option (list (string * json)))
    : Result (Session * list FlowEntry) :=
  match flows with
  | [] => Ok (s, [])
  | f :: rest =>
      let! (s, entry) := _run_one_flow s licitacion_id f json_override in
      let! (s, entries) := run_flows s licitacion_id rest json_override in
      Ok (s, entry :: entries)
  end.

(** [run_flow_for_one], lines 93-109 *)
Definition run_flow_for_one (s : Session) (licitacion_id : Z) (flow : string)
    (json_override : option (list (string * json))) : Result (Session * RunResult) :=
  let flows := if decide (flow = "all") then get_computable_flows else [flow] in
  let! (s, applied) := run_flows s licitacion_id flows json_override in
  let s := commit s in
  Ok (s, mk_RunResult licitacion_id applied).

(** The query of lines 138-145:
    [SELECT id FROM public.licitacion [WHERE ...] ORDER BY id [LIMIT n]] *)
Definition select_ids (s : Session) (where_clause : option string)
    (limit : option Z) : Result (list Z) :=
  let! rows :=
    match where_clause with
    | None => Ok (t_licitacion s)
    | Some w =>
        if decide (w = "") then Ok (t_licitacion s)
        else match sql_where w s with
             | Some keep => Ok (filter (λ l, keep l = true) (t_licitacion s))
             | None => Raise (ProgrammingError w)
             end
    end in
  let ids := sort_by Z.ltb (lic_id <$> rows) in
  match limit with
  | None => Ok ids
  | Some n =>
      if n =? 0 then Ok ids
      else if n <? 0 then Raise (DataError "LIMIT must not be negative")
      else Ok (take (Z.to_nat n) ids)
  end.

(** The loop of lines 147-150 *)
Fixpoint run_each (s : Session) (ksflow : string) (lic_ids : list Z)
    (json_override : option (list (string * json)))
    : Result (Session * list RunResult) :=
  match lic_ids with
  | [] => Ok (s, [])
  | lid :: rest =>
      let! (s, r) := run_flow_for_one s lid ksflow json_override in
      let! (s, out) := run_each s ksflow rest json_override in
      Ok (s, r :: out)
  end.

(** [run_flow_batch], lines 113-150 *)
Definition run_flow_batch (s : Session) (ksflow : string)
    (lic_ids : option (list Z)) (where_clause : option string)
    (limit : option Z) (json_override : option (list (string * json)))
    : Result (Session * list RunResult) :=
  let! _ :=
    if decide (ksflow = "all") then Ok ()
    else if decide (ksflow ∈ get_computable_flows) then Ok ()
    else if decide (ksflow = "red_contactos") then
      if no_payload json_override
      then Raise (ValueError "red_contactos requiere json_override (payload PersonasPayload).")
      else match lic_ids with
           | None | Some [] =>
               Raise (ValueError "red_contactos requiere lic_ids (lista de IDs a evaluar).")
           | Some _ => Ok ()
           end
    else Raise (ValueError ("Flow desconocido: " +:+ ksflow)) in
  let! lic_ids :=
    match lic_ids with
    | None => select_ids s where_clause limit
    | Some ids => Ok ids
    end in
  run_each s ksflow lic_ids json_override.

(** The validation of [run_flow_batch], lines 122-135, passes. *)
Definition batch_accepts (ksflow : string) (lic_ids : option (list Z))
    (jo : option (list (string * json))) : Prop :=
  ksflow = "all" ∨ ksflow ∈ get_computable_flows
  ∨ (ksflow = "red_contactos" ∧ no_payload jo = false
     ∧ lic_ids ≠ None ∧ lic_ids ≠ Some []).

(** The rows of [public.licitacion] a [WHERE] clause keeps, [None] and
    the empty text keeping all. *)
Definition matching (s : Session) (where_clause : option string)
    (rows : list Licitacion) : Prop :=
  match where_clause with
  | None => rows = t_licitacion s
  | Some w =>
      if decide (w = "") then rows = t_licitacion s
      else ∃ keep, sql_where w s = Some keep
                   ∧ rows = filter (λ l, keep l = true) (t_licitacion s)
  end.
End orchestrator.
End Pipeline.

(** ** [app/main.py]: the endpoints of the pipeline and of the flag store

    An endpoint takes the session of the request and the request as FastAPI
    has validated it, and answers with a body, with an [HTTPException] it
    raises, or with an exception it does not catch (a server error). *)

Module Api.

Inductive Response (A : Type) :=
| Respond (s : Session) (body : A)
| HTTPException (status_code : Z) (detail : string)
| Uncaught (e : exn).
Arguments Respond {A} s body.
Arguments HTTPException {A} status_code detail.
Arguments Uncaught {A} e.

(** [BatchRequest], lines 118-121 *)
Record BatchRequest := mk_BatchRequest {
  batch_flow : string;
  batch_where : option string;
  batch_limit : option Z;
}.


(** [PersonasPayload], lines 154-156 *)
Record PersonasPayload := mk_PersonasPayload {
  personas : list (list (string * json));
  contratistas : option (list string);
}.

(** [payload.data.model_dump()] of a [PersonasPayload] *)
Definition model_dump (data : PersonasPayload) : list (string * json) :=
  [("personas", JList (JDict <$> personas data));
   ("contratistas", match contratistas data with
                    | Some names => JList (JStr <$> names)
                    | None => JNull
                    end)].

(** The body of [run_one_flag_endpoint], line 195 *)
Record OneFlagResponse := mk_OneFlagResponse {
  one_ok : bool;
  one_flow : string;
  one_result : Pipeline.RunResult;
}.

Section endpoints.
Context `{PyRuntime} `{Numpy} `{SqlEngine}.
Variable HAS_PRECIO : bool.
Variable HAS_GAP_FECHA : bool.

(** [try: return ... except ValueError as e:
     raise HTTPException(status_code=400, detail=str(e))] *)
Definition or_bad_request {A} (r : Result (Session * A)) : Response A :=
  match r with
  | Ok (s, body) => Respond s body
  | Raise (ValueError msg) => HTTPException 400 msg
  | Raise e => Uncaught e
  end.

(** [list_flows], lines 123-125 *)
Definition list_flows : list string :=
  Pipeline.get_available_flows HAS_PRECIO HAS_GAP_FECHA.

(** [run_pipeline_one], lines 127-136 *)
Definition run_pipeline_one (s : Session) (licitacion_id : Z) (flow : string)
    : Response Pipeline.RunResult :=
  or_bad_request
    (Pipeline.run_flow_for_one HAS_PRECIO HAS_GAP_FECHA s licitacion_id flow None).

(** [run_pipeline_batch_ep], lines 138-151 *)
Definition run_pipeline_batch_ep (s : Session) (payload : BatchRequest)
    : Response (list Pipeline.RunResult) :=
  or_bad_request
    (Pipeline.run_flow_batch HAS_PRECIO HAS_GAP_FECHA s (batch_flow payload) None
       (batch_where payload) (batch_limit payload) None).

(** [run_red_contactos_endpoint], lines 162-172: no exception is caught *)
Definition run_red_contactos_endpoint (s : Session) (licitacion_ids : list Z)
    (data : PersonasPayload) : Response (list Pipeline.RunResult) :=
  match Pipeline.run_flow_batch HAS_PRECIO HAS_GAP_FECHA s "red_contactos"
          (Some licitacion_ids) None None (Some (model_dump data)) with
  | Ok (s, out) => Respond s out
  | Raise e => Uncaught e
  end.

(** [run_one_flag_endpoint], lines 177-197 *)
Definition run_one_flag_endpoint (s : Session) (flag_code : string)
    (licitacion_id : Z) (json_override : option (list (string * json)))
    : Response OneFlagResponse :=
  let aliases := [("red_precio", "red_precio"); ("gap_fechas", "gap_fechas");
                  ("red_contactos", "red_contactos")] in
  match snd <$> head (filter (λ kv, fst kv = flag_code) aliases) with
  | None => HTTPException 400 ("Flag desconocido: " +:+ flag_code)
  | Some flow =>
      match or_bad_request
              (Pipeline.run_flow_for_one HAS_PRECIO HAS_GAP_FECHA s licitacion_id flow
                 (Some (default [] json_override))) with
      | Respond s result => Respond s (mk_OneFlagResponse true flow result)
      | HTTPException status_code detail => HTTPException status_code detail
      | Uncaught e => Uncaught e
      end
  end.

End endpoints.
End Api.

(** ** A runtime for the worked examples

    It agrees with CPython on what the examples below exercise: ISO dates,
    decimal integers, and [strip] and [lower] on ASCII text.  Floats are not
    formatted, and vectors are kept in binary64. *)

Module Example.

Definition pad (width : nat) (n : Z) : string :=
  let d := pretty n in
  String.concat "" (replicate (width - String.length d) "0") +:+ d.

(** Year, month and day of an ordinal *)
Definition civil (ordinal : Z) : Z * Z * Z :=
  let z := ordinal + 305 in
  let era := z / 146097 in
  let doe := z - era * 146097 in
  let yoe := (doe - doe / 1460 + doe / 36524 - doe / 146096) / 365 in
  let doy := doe - (365 * yoe + yoe / 4 - yoe / 100) in
  let mp := (5 * doy + 2) / 153 in
  let d := doy - (153 * mp + 2) / 5 + 1 in
  let m := if mp <? 10 then mp + 3 else mp - 9 in
  let y := yoe + era * 400 + (if m <=? 2 then 1 else 0) in
  (y, m, d).

Definition isoformat (ordinal : Z) : string :=
  let '(y, m, d) := civil ordinal in
  pad 4 y +:+ "-" +:+ pad 2 m +:+ "-" +:+ pad 2 d.

Definition str_datetime (d : datetime) : string :=
  let secs := dt_micros d / 1000000 in
  isoformat (dt_ordinal d) +:+ " " +:+ pad 2 (secs / 3600) +:+ ":"
  +:+ pad 2 (secs / 60 mod 60) +:+ ":" +:+ pad 2 (secs mod 60).

Definition is_space (c : Ascii.ascii) : bool :=
  bool_decide (c ∈ [" "; "009"; "010"; "011"; "012"; "013"]%char).

Fixpoint lstrip (cs : list Ascii.ascii) : list Ascii.ascii :=
  match cs with
  | c :: rest => if is_space c then lstrip rest else cs
  | [] => []
  end.

Definition strip (v : string) : string :=
  String.string_of_list_ascii
    (reverse (lstrip (reverse (lstrip (String.list_ascii_of_string v))))).

Definition lower_char (c : Ascii.ascii) : Ascii.ascii :=
  let n := Ascii.nat_of_ascii c in
  if (65 <=? n)%nat && (n <=? 90)%nat then Ascii.ascii_of_nat (n + 32) else c.

Definition lower (v : string) : string :=
  String.string_of_list_ascii (lower_char <$> String.list_ascii_of_string v).

Fixpoint digits (cs : list Ascii.ascii) (acc : Z) : option Z :=
  match cs with
  | [] => Some acc
  | c :: rest =>
      let n := Ascii.nat_of_ascii c in
      if (48 <=? n)%nat && (n <=? 57)%nat
      then digits rest (10 * acc + Z.of_nat (n - 48))
      else None
  end.

Definition parse_int (v : string) : option Z :=
  match String.list_ascii_of_string (strip v) with
  | [] => None
  | "-"%char :: (_ :: _) as cs => Z.opp <$> digits (tail cs) 0
  | cs => digits cs 0
  end.

#[export] Instance runtime : PyRuntime := {|
  date_isoformat := isoformat;
  datetime_str := str_datetime;
  clock n := mk_datetime 738886 (Z.of_nat n);
  str_strip := strip;
  str_lower := lower;
  int_str := pretty;
  float_repr _ := "<float>";
  container_repr _ := "<container>";
  int_of_str := parse_int;
  int_of_float _ := None;
  float_fmt_money _ := "$<float>";
  float_fmt_signed1 _ := "<float>";
  float_fmt_fixed2 _ := "<float>";
|}.

Definition fsum (xs : list float) : float := foldl PrimFloat.add 0%float xs.

Definition of_nat (n : nat) : float := PrimFloat.of_uint63 (Uint63.of_Z (Z.of_nat n)).

Definition fsorted (xs : list float) : list float := sort_by PrimFloat.ltb xs.

Definition median (xs : list float) : float :=
  let a := fsorted xs in
  let n := length a in
  if (n =? 0)%nat then PrimFloat.nan
  else if Nat.even n
       then ((nth (n / 2 - 1)%nat a PrimFloat.nan + nth (n / 2)%nat a PrimFloat.nan) / 2)%float
       else nth (n / 2)%nat a PrimFloat.nan.

(** Linear interpolation between the two closest ranks *)
Definition percentile (xs : list float) (q : Z) : float :=
  let a := fsorted xs in
  let n := length a in
  if (n =? 0)%nat then PrimFloat.nan
  else
    let pos := q * (Z.of_nat n - 1) in
    let lo := Z.to_nat (pos / 100) in
    let frac := (of_nat (Z.to_nat (pos mod 100)) / 100)%float in
    let x := nth lo a PrimFloat.nan in
    let y := nth (Nat.min (S lo) (n - 1)) a PrimFloat.nan in
    (x + (y - x) * frac)%float.

Fixpoint columns (rows : list (list float)) (width : nat) : list (list float) :=
  match width with
  | O => []
  | S w => ((λ r, nth 0%nat r 0%float) <$> rows) :: columns (drop 1 <$> rows) w
  end.

Definition mean_rows (rows : list (list float)) : Result (list float) :=
  match rows with
  | [] => Raise (ValueError "need at least one array to concatenate")
  | r :: _ =>
      if forallb (λ r', (length r' =? length r)%nat) rows
      then Ok ((λ col, (fsum col / of_nat (length rows))%float) <$> columns rows (length r))
      else Raise (ValueError "all the input array dimensions must match")
  end.

#[export] Instance numpy : Numpy := {|
  to_float32 x := x;
  linalg_norm x := PrimFloat.sqrt (fsum ((λ v, v * v)%float <$> x));
  vec_div x n := (λ v, v / n)%float <$> x;
  vstack_mean := mean_rows;
  np_dot a b :=
    if (length a =? length b)%nat
    then Ok (fsum (zip_with PrimFloat.mul a b))
    else Raise (ValueError "shapes not aligned");
  np_median := median;
  np_percentile := percentile;
|}.

(** An engine that understands one clause *)
#[export] Instance sql : SqlEngine := {|
  sql_where w _ :=
    if decide (w = "cuantia IS NOT NULL")
    then Some (λ l, bool_decide (is_Some (lic_cuantia l)))
    else None;
|}.

Definition lic (id : Z) (cuantia : option float) : Licitacion :=
  mk_Licitacion id "Alcaldía" cuantia (Some "Licitación pública") (Some "Abierta")
    (Some "Obras").

(** Five licitaciones, keys 1, 2, 3, 5 and 8, stored out of order, with no
    chunks, no calendar and no flags yet *)
Definition five : Session :=
  mk_Session [lic 5 (Some 500%float); lic 1 (Some 100%float); lic 8 None;
              lic 3 (Some 300%float); lic 2 (Some 200%float)]
    [] [] [] [] [] [] 0.

Definition empty_session : Session := mk_Session [] [] [] [] [] [] [] 0.

(** Three licitaciones with one chunk each; 1 is the target, 2 and 3 its
    comparables *)
Definition priced : Session :=
  mk_Session [lic 1 (Some 1000%float); lic 2 (Some 100%float); lic 3 (Some 110%float)]
    [mk_LicitacionChunk 1 1 (Some [1; 0]%float);
     mk_LicitacionChunk 2 2 (Some [1; 1]%float);
     mk_LicitacionChunk 3 3 (Some [0; 1]%float)]
    [] [] [] [] [] 0.

(** The chain A - B - C - D, the sets of B and C iterating in either order *)
Definition chain (b_reversed c_reversed : bool) : gmap string (list string) :=
  list_to_map
    [("A", ["B"]);
     ("B", if b_reversed then ["C"; "A"] else ["A"; "C"]);
     ("C", if c_reversed then ["D"; "B"] else ["B"; "D"]);
     ("D", ["C"])].

(** The same chain as a payload: A is an official of the institution of
    licitacion 1, D is a contractor *)
Definition persona (id : string) (publica contratista : bool) (con : list string) : json :=
  JDict [("id", JStr id); ("nombre", JStr ("Persona " +:+ id));
         ("ent_publica", JBool publica); ("entidad", JStr "Alcaldía");
         ("es_contratista", JBool contratista);
         ("conexiones", JList ((λ c, JDict [("con_id", JStr c)]) <$> con))].

Definition chain_payload : list (string * json) :=
  [("personas", JList [persona "A" true false ["B"]; persona "B" false false ["C"];
                       persona "C" false false ["D"]; persona "D" false true []])].

Definition one : Session := mk_Session [lic 1 None] [] [] [] [] [] [] 0.

(** Licitacion 1 has three chunks and none is usable: no vector, a vector
    with a component that is not finite, an empty vector.  Licitacion 2 has
    a usable one. *)
Definition unusable : Session :=
  mk_Session [lic 1 (Some 100%float); lic 2 (Some 200%float)]
    [mk_LicitacionChunk 1 1 None;
     mk_LicitacionChunk 2 1 (Some [1; PrimFloat.infinity]%float);
     mk_LicitacionChunk 3 1 (Some []);
     mk_LicitacionChunk 4 2 (Some [0; 1]%float)]
    [] [] [] [] [] 0.

(** The persons of the chain as [_from_v2_people] parses them *)
Definition chain_person (id : string) (publica contratista : bool) (con : list string)
    : RedContactos.Persona :=
  RedContactos.mk_Persona (Some id) (Some ("Persona " +:+ id)) (Some "Alcaldía")
    (Some publica) contratista []
    ((λ c, RedContactos.mk_Conexion (Some c) None None None) <$> con).

Definition chain_people : list RedContactos.Persona :=
  [chain_person "A" true false ["B"]; chain_person "B" false false ["C"];
   chain_person "C" false false ["D"]; chain_person "D" false true []].

(** A request of the contact endpoint: A, an official of the institution,
    is connected to D, a contractor *)
Definition pair_data : Api.PersonasPayload :=
  Api.mk_PersonasPayload
    [[("id", JStr "A"); ("nombre", JStr "Persona A"); ("ent_publica", JBool true);
      ("entidad", JStr "Alcaldía");
      ("conexiones", JList [JDict [("con_id", JStr "D")]])];
     [("id", JStr "D"); ("nombre", JStr "Persona D"); ("ent_publica", JBool false);
      ("entidad", JStr "Constructora"); ("es_contratista", JBool true)]]
    None.

(** Licitacion 1 with its calendar row: offers accepted from Monday
    1 January 2024 at 8:00 and opened on Tuesday 9 January 2024 at 10:00 *)
Definition scheduled : Session :=
  mk_Session [lic 1 (Some 100%float)] [] [mk_LicitacionKeymap 1 (Some "CO1.REQ.1")]
    [mk_CalendarioNorm "CO1.REQ.1" (Some (mk_datetime 738886 28800000000))
       (Some (mk_datetime 738894 36000000000))]
    [] [] [] 0.

(** A store that already holds a definition, an assignment and its log
    entry *)
Definition stored : Session :=
  mk_Session [lic 1 (Some 100%float); lic 2 None] [] [] []
    [mk_Flags 4 (Some "red_precio") (Some "Precio") None;
     mk_Flags 9 (Some "manual") None None]
    [mk_FlagsLicitaciones 12 1 9 true (mk_datetime 738000 0) (Some "visto") (Some "manual");
     mk_FlagsLicitaciones 13 2 9 false (mk_datetime 738001 0) None None]
    [mk_FlagsLog 30 12 (Some "valor=True; comentario=visto; fuente=manual")
       (mk_datetime 738000 0) (Some "api")]
    5.
End Example.

(** * Properties *)

(** ** Business days *)

Section fecha_props.
Context `{PyRuntime}.
Import FlagFecha.

Lemma business_days_loop_done holidays cur stop days :
  stop ≤ cur → business_days_loop holidays cur stop days = days.
Proof.
  intros Hle. rewrite business_days_loop_equation_1.
  destruct (decide (cur < stop)); [lia | reflexivity].
Qed.

Lemma business_days_loop_step holidays cur stop days :
  cur < stop →
  business_days_loop holidays cur stop days
  = business_days_loop holidays (cur + 1) stop
      (if is_business_day holidays cur then days + 1 else days).
Proof.
  intros Hlt. rewrite business_days_loop_equation_1.
  destruct (decide (cur < stop)); [reflexivity | lia].
Qed.

Lemma weekday_shift d k :
  weekday d = 0 → 0 ≤ k < 7 → weekday (d + k) = k.
Proof. unfold weekday. intros Hd Hk. Z.div_mod_to_equations. lia. Qed.

Lemma is_business_day_no_holidays holidays d :
  holidays = None ∨ holidays = Some ∅ →
  is_business_day holidays d = (weekday d <? 5).
Proof.
  unfold is_business_day. intros [-> | ->].
  - apply andb_true_r.
  - rewrite bool_decide_eq_true_2 by reflexivity. apply andb_true_r.
Qed.

Lemma is_business_day_weekend holidays d :
  weekday d = 5 → is_business_day holidays d = false.
Proof. unfold is_business_day. intros ->. reflexivity. Qed.

Lemma business_days_sym (a b : datetime) holidays :
  _business_days (Some a) (Some b) holidays
  = _business_days (Some b) (Some a) holidays.
Proof.
  destruct a as [oa ma], b as [ob mb]. unfold _business_days, datetime_ltb. simpl.
  destruct (ob <? oa) eqn:E1, (oa <? ob) eqn:E2,
           (ob =? oa) eqn:E3, (oa =? ob) eqn:E4,
           (mb <? ma) eqn:E5, (ma <? mb) eqn:E6; simpl; try reflexivity; try lia.
  all: assert (oa = ob) as -> by lia; reflexivity.
Qed.

(** C5. The business-day count does not depend on the order of its two
    dates; it is 0 for equal dates, 0 for two dates of one weekend, and 5
    from a Monday to the Monday after when no holiday is given. *)
Theorem business_days_symmetric :
  (∀ d1 d2 holidays,
     _business_days d1 d2 holidays = _business_days d2 d1 holidays)
  ∧ (∀ d holidays, _business_days (Some d) (Some d) holidays = Some 0)
  ∧ (∀ a b holidays saturday,
       weekday saturday = 5 →
       dt_ordinal a = saturday ∨ dt_ordinal a = saturday + 1 →
       dt_ordinal b = saturday ∨ dt_ordinal b = saturday + 1 →
       _business_days (Some a) (Some b) holidays = Some 0)
  ∧ (∀ a b holidays,
       weekday (dt_ordinal a) = 0 →
       dt_ordinal b = dt_ordinal a + 7 →
       holidays = None ∨ holidays = Some ∅ →
       _business_days (Some a) (Some b) holidays = Some 5).
Proof.
  split; [|split; [|split]].
  - intros [a|] [b|] holidays; try reflexivity. apply business_days_sym.
  - intros d holidays. unfold _business_days.
    destruct (datetime_ltb d d); rewrite business_days_loop_done; done.
  - intros a b holidays sat Hsat Ha Hb. unfold _business_days.
    assert (∀ x y, (x = sat ∨ x = sat + 1) → (y = sat ∨ y = sat + 1) → x ≤ y →
              business_days_loop holidays x y 0 = 0) as Hloop.
    { intros x y Hx Hy Hxy. destruct (decide (x = y)) as [->|Hne].
      - by rewrite business_days_loop_done.
      - assert (x = sat ∧ y = sat + 1) as [-> ->] by lia.
        rewrite business_days_loop_step by lia.
        rewrite is_business_day_weekend by done.
        by rewrite business_days_loop_done. }
    destruct a as [oa ma], b as [ob mb]. unfold datetime_ltb. simpl in *.
    destruct ((ob <? oa) || (ob =? oa) && (mb <? ma)) eqn:E; simpl;
      f_equal; apply Hloop; try done;
      destruct (ob <? oa) eqn:E1, (ob =? oa) eqn:E2; simpl in E; lia.
  - intros a b holidays Hmon Hb Hh. unfold _business_days.
    destruct a as [oa ma], b as [ob mb]. unfold datetime_ltb. simpl in *. subst ob.
    replace (oa + 7 <? oa) with false by lia.
    replace (oa + 7 =? oa) with false by lia. simpl. f_equal.
    do 7 (rewrite business_days_loop_step by lia;
          rewrite (is_business_day_no_holidays _ _ Hh)).
    rewrite business_days_loop_done by lia.
    replace (oa + 1 + 1) with (oa + 2) by lia.
    replace (oa + 2 + 1) with (oa + 3) by lia.
    replace (oa + 3 + 1) with (oa + 4) by lia.
    replace (oa + 4 + 1) with (oa + 5) by lia.
    replace (oa + 5 + 1) with (oa + 6) by lia.
    rewrite Hmon, !weekday_shift by (done || lia). reflexivity.
Qed.
End fecha_props.

(** ** The flag store *)

Section store_props.
Context `{PyRuntime}.
Import Repo.

Lemma next_id_above ids x : x ∈ ids → x < next_id ids.
Proof.
  unfold next_id. induction ids as [|y ids IH]; simpl; [by intros ?%elem_of_nil|].
  intros [->|Hin]%elem_of_cons; [lia|]. specialize (IH Hin). lia.
Qed.

Lemma next_id_fresh ids : next_id ids ∉ ids.
Proof. intros Hin%next_id_above. lia. Qed.

Lemma filter_none {A} (P : A → Prop) `{∀ x, Decision (P x)} (l : list A) :
  (∀ x, x ∈ l → ¬ P x) → filter P l = [].
Proof.
  induction l as [|y l IH]; [done|]. intros Hno.
  rewrite filter_cons_False by (apply Hno; left).
  apply IH. intros x Hx. apply Hno. by right.
Qed.

Lemma head_filter_none {A} (P : A → Prop) `{∀ x, Decision (P x)} (l : list A) :
  head (filter P l) = None → filter P l = [].
Proof. by destruct (filter P l). Qed.

Lemma head_filter_some {A} (P : A → Prop) `{∀ x, Decision (P x)} (l : list A) x :
  head (filter P l) = Some x → P x ∧ x ∈ l.
Proof.
  intros Hh. apply (list_elem_of_filter P). destruct (filter P l); simplify_eq/=. left.
Qed.

(** Rows with distinct keys: at most one has a given key. *)
Lemma filter_key_unique {A B} `{EqDecision B} (f : A → B) (l : list A) x :
  NoDup (f <$> l) → x ∈ l → filter (λ y, f y = f x) l = [x].
Proof.
  induction l as [|y l IH]; [by intros _ ?%elem_of_nil|].
  rewrite fmap_cons. intros [Hy Hnd]%NoDup_cons [->|Hin]%elem_of_cons.
  - rewrite filter_cons_True by done. f_equal. apply filter_none.
    intros z Hz Hfz. apply Hy. rewrite <- Hfz. apply list_elem_of_fmap. eauto.
  - rewrite filter_cons_False; [by apply IH|].
    intros Hfy. apply Hy. rewrite Hfy. apply list_elem_of_fmap. eauto.
Qed.

Lemma key_inj {A B} (f : A → B) (l : list A) x y :
  NoDup (f <$> l) → x ∈ l → y ∈ l → f x = f y → x = y.
Proof.
  induction l as [|z l IH]; [by intros _ ?%elem_of_nil|].
  rewrite fmap_cons. intros [Hz Hnd]%NoDup_cons Hx Hy Hf.
  apply elem_of_cons in Hx as [->|Hx]; apply elem_of_cons in Hy as [->|Hy]; auto.
  - exfalso. apply Hz. rewrite Hf. apply list_elem_of_fmap. eauto.
  - exfalso. apply Hz. rewrite <- Hf. apply list_elem_of_fmap. eauto.
Qed.

(** Definitions with distinct codes: at most one has a given code. *)
Lemma filter_code_unique (fl : list Flags) c :
  NoDup (omap flag_codigo fl) →
  filter (λ f, flag_codigo f = Some c) fl = []
  ∨ ∃ f, filter (λ f, flag_codigo f = Some c) fl = [f].
Proof.
  induction fl as [|y fl IH]; [by left|]. simpl. intros Hnd.
  destruct (flag_codigo y) as [b|] eqn:Hy.
  - apply NoDup_cons in Hnd as [Hb Hnd]. destruct (decide (b = c)) as [->|Hne].
    + right. exists y. rewrite filter_cons_True by done. f_equal.
      apply filter_none. intros z Hz Hfz. apply Hb. apply list_elem_of_omap. eauto.
    + rewrite filter_cons_False by congruence. by apply IH.
  - rewrite filter_cons_False by congruence. by apply IH.
Qed.

Lemma filter_code_nil (fl : list Flags) c :
  filter (λ f, flag_codigo f = Some c) fl = [] → c ∉ omap flag_codigo fl.
Proof.
  intros Hnil (x & Hx & Hfx)%list_elem_of_omap.
  by eapply (filter_nil_not_elem_of (λ f, flag_codigo f = Some c)).
Qed.

Lemma too_long_mono (w w' : nat) v :
  (w ≤ w')%nat → too_long w v = false → too_long w' v = false.
Proof. unfold too_long. intros Hw Hv%Nat.ltb_ge. apply Nat.ltb_ge. lia. Qed.

Lemma str_or_none d : str_or None d = d.
Proof. done. Qed.

(** A code that fits [Flags.codigo] fits [Flags.nombre] as the name of its
    definition. *)
Lemma code_fits_new codigo :
  too_long CODIGO_WIDTH codigo = false →
  too_long CODIGO_WIDTH codigo || too_long NOMBRE_WIDTH (str_or None codigo) = false.
Proof.
  intros Hc. rewrite Hc, str_or_none. simpl.
  apply (too_long_mono CODIGO_WIDTH); [unfold CODIGO_WIDTH, NOMBRE_WIDTH; lia|done].
Qed.

(** What a call of [ensure_flag_by_codigo] has done when it returns, on a
    store that meets its constraints, and why it raises when it does. *)
Lemma ensure_flag_by_codigo_result s codigo nombre :
  store_ok s →
  match ensure_flag_by_codigo s codigo nombre with
  | Ok (s', flag) =>
      store_ok s'
      ∧ filter (λ f, flag_codigo f = Some codigo) (t_flags s') = [flag]
      ∧ t_flags_licitaciones s' = t_flags_licitaciones s
      ∧ t_flags_log s' = t_flags_log s
      ∧ same_entities s s'
      ∧ (flag_ids_of s codigo ≠ [] → t_flags s' = t_flags s)
  | Raise _ =>
      flag_ids_of s codigo = []
      ∧ too_long CODIGO_WIDTH codigo || too_long NOMBRE_WIDTH (str_or nombre codigo)
        = true
  end.
Proof.
  intros (Hcod & Hfid & Hpk & Hpair). unfold ensure_flag_by_codigo, flag_ids_of in *.
  destruct (filter_code_unique (t_flags s) codigo Hcod) as [Hnil|[f Hone]].
  - rewrite Hnil in *.
    destruct (too_long CODIGO_WIDTH codigo || too_long NOMBRE_WIDTH _); [done|].
    simpl. split; [|split; [|done]].
    + repeat split; simpl; try done.
      * rewrite omap_app. simpl. rewrite NoDup_app. split; [done|]. split.
        -- intros x Hx ->%list_elem_of_singleton. by apply filter_code_nil in Hnil.
        -- apply NoDup_singleton.
      * rewrite fmap_app. simpl. rewrite NoDup_app. split; [done|]. split.
        -- intros x Hx ->%list_elem_of_singleton. by apply next_id_fresh in Hx.
        -- apply NoDup_singleton.
    + rewrite filter_app, Hnil. simpl. by rewrite filter_cons_True.
  - rewrite Hone. by repeat split.
Qed.

Lemma ensure_flag_by_codigo_spec s codigo nombre :
  store_ok s →
  flag_ids_of s codigo ≠ []
  ∨ too_long CODIGO_WIDTH codigo || too_long NOMBRE_WIDTH (str_or nombre codigo) = false →
  ∃ s' flag,
    ensure_flag_by_codigo s codigo nombre = Ok (s', flag)
    ∧ store_ok s'
    ∧ filter (λ f, flag_codigo f = Some codigo) (t_flags s') = [flag]
    ∧ t_flags_licitaciones s' = t_flags_licitaciones s
    ∧ t_flags_log s' = t_flags_log s
    ∧ same_entities s s'
    ∧ (flag_ids_of s codigo ≠ [] → t_flags s' = t_flags s).
Proof.
  intros Hok Hfits. pose proof (ensure_flag_by_codigo_result s codigo nombre Hok) as Hres.
  destruct (ensure_flag_by_codigo s codigo nombre) as [[s' flag]|e].
  - by exists s', flag.
  - destruct Hres as [Hnil Hlong]. destruct Hfits as [?|Hfits]; [done|].
    by rewrite Hfits in Hlong.
Qed.

(** Overwriting the row with a given key touches that row only. *)
Lemma overwrite_row rows old new :
  NoDup (fli_id <$> rows) → NoDup (pair_of <$> rows) → old ∈ rows →
  fli_id new = fli_id old → pair_of new = pair_of old →
  let rows' := (λ r, if decide (fli_id r = fli_id old) then new else r) <$> rows in
  fli_id <$> rows' = fli_id <$> rows
  ∧ pair_of <$> rows' = pair_of <$> rows
  ∧ filter (λ r, pair_of r = pair_of old) rows' = [new].
Proof.
  intros Hid Hpair Hold Hnid Hnpair. simpl.
  split; [|split].
  - rewrite <- list_fmap_compose. apply list_fmap_ext. intros i r Hr. simpl.
    by destruct (decide (fli_id r = fli_id old)); [rewrite Hnid|].
  - rewrite <- list_fmap_compose. apply list_fmap_ext. intros i r Hr%list_elem_of_lookup_2.
    simpl. destruct (decide (fli_id r = fli_id old)) as [Heq|]; [|done].
    by rewrite Hnpair, (key_inj fli_id rows r old).
  - induction rows as [|y rows IH]; [by apply elem_of_nil in Hold|].
    rewrite !fmap_cons in *. apply NoDup_cons in Hid as [Hy1 Hid].
    apply NoDup_cons in Hpair as [Hy2 Hpair].
    apply elem_of_cons in Hold as [->|Hold].
    + rewrite decide_True by done. rewrite filter_cons_True by done. f_equal.
      apply filter_none. intros z (r & -> & Hr)%list_elem_of_fmap.
      destruct (decide (fli_id r = fli_id y)) as [Heq|_].
      * exfalso. apply Hy1. rewrite <- Heq. apply list_elem_of_fmap. eauto.
      * intros Hp. apply Hy2. rewrite <- Hp. apply list_elem_of_fmap. eauto.
    + rewrite decide_False.
      2:{ intros Heq. apply Hy1. rewrite Heq. apply list_elem_of_fmap. eauto. }
      rewrite filter_cons_False; [by apply IH|].
      intros Heq. apply Hy2. rewrite Heq. apply list_elem_of_fmap. eauto.
Qed.

Lemma get_licitacion_same s s' lid :
  same_entities s s' → get_licitacion s' lid = get_licitacion s lid.
Proof. intros (Hlic & _). unfold get_licitacion. by rewrite Hlic. Qed.

(** What one call of [set_flag_for_licitacion] has done when it returns, on
    a store that meets its constraints: the constraints still hold, the
    pair has exactly one row, with the values given, and the log has one
    more entry, which refers to that row.  It raises only for a licitacion
    that does not exist or a code the store cannot use. *)
Lemma set_flag_for_licitacion_result s lid codigo valor com fue usr fecha :
  store_ok s →
  match set_flag_for_licitacion s lid codigo valor com fue usr fecha with
  | Ok (s', fli) =>
      ∃ entry,
        store_ok s'
        ∧ assignments_of s' lid codigo = [fli]
        ∧ fli_valor fli = valor ∧ fli_comentario fli = com ∧ fli_fuente fli = fue
        ∧ t_flags_log s' = t_flags_log s ++ [entry]
        ∧ log_flags_licitaciones_id entry = fli_id fli
        ∧ same_entities s s'
        ∧ (∀ old, old ∈ assignments_of s lid codigo →
             t_flags s' = t_flags s
             ∧ fli_id <$> t_flags_licitaciones s' = fli_id <$> t_flags_licitaciones s
             ∧ fli_id fli = fli_id old)
  | Raise _ => get_licitacion s lid = None ∨ ¬ code_fits s codigo
  end.
Proof.
  intros Hok. unfold set_flag_for_licitacion.
  set (fs := match fecha with Some f => (f, s) | None => datetime_now s end).
  assert (store_ok fs.2 ∧ t_flags_log fs.2 = t_flags_log s
          ∧ same_entities s fs.2 ∧ t_flags fs.2 = t_flags s
          ∧ t_flags_licitaciones fs.2 = t_flags_licitaciones s)
    as (Hok0 & Hlog0 & Hent0 & Hfl0 & Hrows0).
  { subst fs. by destruct fecha. }
  destruct fs as [fecha0 s0]. simpl in *.
  pose proof (ensure_flag_by_codigo_result s0 codigo None Hok0) as Hens.
  destruct (ensure_flag_by_codigo s0 codigo None) as [[s1 flag]|e]; simpl.
  2:{ right. destruct Hens as [Hnil Hlong]. unfold flag_ids_of in Hnil.
      rewrite Hfl0 in Hnil. intros [Hdef|Hfit]; [done|].
      by rewrite (code_fits_new _ Hfit) in Hlong. }
  destruct Hens as (Hok1 & Hflag & Hrows1 & Hlog1 & Hent1 & Hsame).
  destruct Hok1 as (Hc & Hf & Hi & Hp).
  assert (get_licitacion s1 lid = get_licitacion s lid) as Hlic1.
  { by rewrite (get_licitacion_same s0 s1), (get_licitacion_same s s0). }
  assert (∀ rows : list FlagsLicitaciones,
            filter (λ r, fli_licitacion_id r = lid
                               ∧ fli_flag_id r ∈ [flag_id flag]) rows
                  = filter (λ r, pair_of r = (lid, flag_id flag)) rows) as Hfilter.
  { intros rows. apply list_filter_iff. intros r. unfold pair_of.
    rewrite list_elem_of_singleton. split; [by intros [-> ->]|by intros [= -> ->]]. }
  assert (∀ rows : list FlagsLicitaciones,
            filter (λ r, fli_licitacion_id r = lid
                               ∧ fli_flag_id r = flag_id flag) rows
                  = filter (λ r, pair_of r = (lid, flag_id flag)) rows) as Hfilter'.
  { intros rows. apply list_filter_iff. intros r. unfold pair_of.
    split; [by intros [-> ->]|by intros [= -> ->]]. }
  assert (∀ old, old ∈ assignments_of s lid codigo →
          t_flags s1 = t_flags s
          ∧ old ∈ filter (λ r, pair_of r = (lid, flag_id flag)) (t_flags_licitaciones s1))
    as Hbefore.
  { intros old Hin.
    assert (flag_ids_of s0 codigo ≠ []) as Hids0.
    { unfold flag_ids_of. rewrite Hfl0. intros Hnil.
      unfold assignments_of, flag_ids_of in Hin. rewrite Hnil in Hin.
      by apply list_elem_of_filter in Hin as [[_ ?%elem_of_nil] _]. }
    specialize (Hsame Hids0). split; [congruence|].
    unfold assignments_of, flag_ids_of in Hin.
    rewrite <- Hfl0, <- Hsame, Hflag in Hin. simpl in Hin.
    by rewrite Hfilter, <- Hrows0, <- Hrows1 in Hin. }
  rewrite Hfilter'.
  destruct (head (filter _ (t_flags_licitaciones s1))) as [old|] eqn:Hhead.
  - apply head_filter_some in Hhead as [Hpold Hold].
    pose proof (overwrite_row (t_flags_licitaciones s1) old
                  (overwrite_fli old valor fecha0 com fue) Hi Hp Hold eq_refl eq_refl)
      as (Hids & Hpairs & Hone). simpl in Hids, Hpairs, Hone.
    unfold pair_of in Hpairs.
    simpl. eexists.
    split; [|split; [|split; [|split; [|split; [|split; [|split; [|split]]]]]]];
      try done.
    + repeat split; simpl; [done|done|by rewrite Hids|by rewrite Hpairs].
    + unfold assignments_of, flag_ids_of. simpl. rewrite Hflag. simpl.
      rewrite Hfilter, <- Hpold. apply Hone.
    + by rewrite Hlog1, Hlog0.
    + done.
    + destruct Hent0 as (?&?&?&?), Hent1 as (?&?&?&?).
      repeat split; simpl; congruence.
    + intros old' [Hfl Hin]%Hbefore. split; [done|].
      split; [by rewrite Hids, Hrows1, Hrows0|].
      rewrite <- Hpold, (filter_key_unique pair_of _ old Hp Hold) in Hin.
      by apply list_elem_of_singleton in Hin as ->.
  - apply head_filter_none in Hhead. rewrite Hlic1.
    destruct (get_licitacion s lid) as [lic|]; simpl; [|by left].
    eexists.
    split; [|split; [|split; [|split; [|split; [|split; [|split; [|split]]]]]]];
      try done.
    + repeat split; simpl; [done|done|..].
      * rewrite fmap_app. simpl. rewrite NoDup_app. split; [done|]. split.
        -- intros x Hx ->%list_elem_of_singleton. by apply next_id_fresh in Hx.
        -- apply NoDup_singleton.
      * rewrite fmap_app. simpl. rewrite NoDup_app. split; [done|]. split.
        -- intros x (r & -> & Hr)%list_elem_of_fmap Heq%list_elem_of_singleton.
           by eapply (filter_nil_not_elem_of (λ r, pair_of r = (lid, flag_id flag))).
        -- apply NoDup_singleton.
    + unfold assignments_of, flag_ids_of. simpl. rewrite Hflag. simpl.
      rewrite Hfilter, filter_app, Hhead. simpl. by rewrite filter_cons_True.
    + by rewrite Hlog1, Hlog0.
    + done.
    + destruct Hent0 as (?&?&?&?), Hent1 as (?&?&?&?).
      repeat split; simpl; congruence.
    + intros old' [_ Hin]%Hbefore. rewrite Hhead in Hin. by apply elem_of_nil in Hin.
Qed.

(** On a store that meets its constraints, for a licitacion that exists and
    a code the store can use, [set_flag_for_licitacion] returns. *)
Lemma set_flag_for_licitacion_spec s lid codigo valor com fue usr fecha :
  store_ok s →
  is_Some (get_licitacion s lid) →
  code_fits s codigo →
  ∃ s' fli entry,
    set_flag_for_licitacion s lid codigo valor com fue usr fecha = Ok (s', fli)
    ∧ store_ok s'
    ∧ assignments_of s' lid codigo = [fli]
    ∧ fli_valor fli = valor ∧ fli_comentario fli = com ∧ fli_fuente fli = fue
    ∧ t_flags_log s' = t_flags_log s ++ [entry]
    ∧ log_flags_licitaciones_id entry = fli_id fli
    ∧ same_entities s s'
    ∧ (∀ old, old ∈ assignments_of s lid codigo →
         t_flags s' = t_flags s
         ∧ fli_id <$> t_flags_licitaciones s' = fli_id <$> t_flags_licitaciones s
         ∧ fli_id fli = fli_id old).
Proof.
  intros Hok [lic Hlic] Hfits.
  pose proof (set_flag_for_licitacion_result s lid codigo valor com fue usr fecha Hok)
    as Hres.
  destruct (set_flag_for_licitacion s lid codigo valor com fue usr fecha)
    as [[s' fli]|e].
  - destruct Hres as (entry & Hres). by exists s', fli, entry.
  - destruct Hres as [Hnone|Hno]; [by rewrite Hlic in Hnone|done].
Qed.

(** The same, of a call that has returned. *)
Lemma set_flag_for_licitacion_returned s lid codigo valor com fue usr fecha s' fli :
  store_ok s →
  set_flag_for_licitacion s lid codigo valor com fue usr fecha = Ok (s', fli) →
  ∃ entry,
    store_ok s'
    ∧ assignments_of s' lid codigo = [fli]
    ∧ fli_valor fli = valor ∧ fli_comentario fli = com ∧ fli_fuente fli = fue
    ∧ t_flags_log s' = t_flags_log s ++ [entry]
    ∧ log_flags_licitaciones_id entry = fli_id fli
    ∧ same_entities s s'
    ∧ (∀ old, old ∈ assignments_of s lid codigo →
         t_flags s' = t_flags s
         ∧ fli_id <$> t_flags_licitaciones s' = fli_id <$> t_flags_licitaciones s
         ∧ fli_id fli = fli_id old).
Proof.
  intros Hok Hrun.
  pose proof (set_flag_for_licitacion_result s lid codigo valor com fue usr fecha Hok)
    as Hres.
  by rewrite Hrun in Hres.
Qed.

(** The code of an assignment row is a defined one. *)
Lemma assignments_code_defined s lid codigo r :
  r ∈ assignments_of s lid codigo → code_fits s codigo.
Proof.
  intros [[_ Hin] _]%list_elem_of_filter. left. intros Hnil.
  rewrite Hnil in Hin. by apply elem_of_nil in Hin.
Qed.

End store_props.

(** ** Sorting *)

Section sort_props.
Context {A : Type} (lt : A → A → bool).

Lemma insert_by_perm x l : insert_by lt x l ≡ₚ x :: l.
Proof.
  induction l as [|y l IH]; simpl; [done|].
  destruct (lt y x); [|done]. rewrite IH. apply Permutation_swap.
Qed.

Lemma sort_by_perm l : sort_by lt l ≡ₚ l.
Proof.
  induction l as [|x l IH]; simpl; [done|].
  unfold sort_by in *. simpl. by rewrite insert_by_perm, IH.
Qed.

Lemma elem_of_sort_by x l : x ∈ sort_by lt l ↔ x ∈ l.
Proof. by rewrite sort_by_perm. Qed.
End sort_props.

Lemma insert_by_sorted x l :
  StronglySorted Z.le l → StronglySorted Z.le (insert_by Z.ltb x l).
Proof.
  induction 1 as [|y l Hs IH Hy]; simpl.
  - repeat constructor.
  - destruct (y <? x) eqn:E.
    + constructor; [done|]. rewrite insert_by_perm. constructor; [lia|done].
    + constructor; [by constructor|]. constructor; [lia|].
      eapply Forall_impl; [done|]. simpl. lia.
Qed.

Lemma sort_by_sorted l : StronglySorted Z.le (sort_by Z.ltb l).
Proof.
  induction l as [|x l IH]; simpl; [constructor|]. by apply insert_by_sorted.
Qed.

(** ** The price detector *)

Section precio_props.
Context `{PyRuntime} `{Numpy}.
Import Repo FlagPrecio.

Lemma omap_flag_codigo_update (g : Flags → Flags) (fl : list Flags) :
  (∀ f, flag_codigo (g f) = flag_codigo f) →
  omap flag_codigo (g <$> fl) = omap flag_codigo fl.
Proof.
  intros Hg. induction fl as [|f fl IH]; csimpl; [done|].
  by rewrite Hg, IH.
Qed.

Lemma upserted_flags_ok s codigo nombre descripcion :
  store_ok s →
  store_ok (upserted_flags s codigo nombre descripcion)
  ∧ same_entities s (upserted_flags s codigo nombre descripcion)
  ∧ t_flags_licitaciones (upserted_flags s codigo nombre descripcion)
    = t_flags_licitaciones s
  ∧ t_flags_log (upserted_flags s codigo nombre descripcion) = t_flags_log s.
Proof.
  intros (Hc & Hf & Hi & Hp). unfold upserted_flags. case_bool_decide as Hex; simpl.
  - repeat split; simpl; try done.
    + rewrite omap_flag_codigo_update; [done|]. intros f. by case_decide.
    + rewrite <- list_fmap_compose.
      rewrite (list_fmap_ext _ flag_id); [done|]. intros i f _. simpl. by case_decide.
  - repeat split; simpl; try done.
    + rewrite omap_app. simpl. rewrite NoDup_app. split; [done|]. split.
      * intros x (f & Hf1 & Hf2)%list_elem_of_omap ->%list_elem_of_singleton.
        apply Hex, Exists_exists. eauto.
      * apply NoDup_singleton.
    + rewrite fmap_app. simpl. rewrite NoDup_app. split; [done|]. split.
      * intros x Hx ->%list_elem_of_singleton. by apply next_id_fresh in Hx.
      * apply NoDup_singleton.
Qed.

Lemma omap_none {A B} (f : A → option B) (l : list A) :
  (∀ x, x ∈ l → f x = None) → omap f l = [].
Proof.
  induction l as [|x l IH]; csimpl; [done|]. intros Hf.
  rewrite (Hf x) by left. apply IH. intros y Hy. apply Hf. by right.
Qed.

Lemma _fetch_target_docvec_none s lid :
  (∀ c, c ∈ t_licitacion_chunk s → chunk_licitacion_id c = lid →
        _to_np_vec (chunk_embedding_vec c) = None) →
  _fetch_target_docvec s lid = Ok None.
Proof.
  intros Hnone. unfold _fetch_target_docvec.
  rewrite omap_none; [done|]. intros c Hc%subseteq_take.
  apply elem_of_sort_by, list_elem_of_filter in Hc as [[Hlid _] Hc].
  by rewrite Hnone.
Qed.

Lemma _ensure_flag_ok s :
  store_ok s →
  store_ok (_ensure_flag s) ∧ same_entities s (_ensure_flag s)
  ∧ t_flags_licitaciones (_ensure_flag s) = t_flags_licitaciones s
  ∧ t_flags_log (_ensure_flag s) = t_flags_log s.
Proof. apply upserted_flags_ok. Qed.

Lemma get_licitacion_ensure_flag s lid :
  get_licitacion (_ensure_flag s) lid = get_licitacion s lid.
Proof. unfold _ensure_flag, commit, upserted_flags, get_licitacion. by case_bool_decide. Qed.

(** The code of the detector is one its column holds. *)
Lemma red_precio_fits s : code_fits s "red_precio".
Proof. by right. Qed.

(** C6. For a licitacion that exists and has no chunk with a usable
    embedding vector, on a store that meets its constraints, the price
    detector returns (it does not raise) the skip result: method "skip",
    no comparables, all-zero statistics.  What it writes is one call of
    [set_flag_for_licitacion], with the value false and the "no embedding"
    comment: the pair then has one assignment row, with that value and
    comment, and the log has one more entry. *)
Theorem precio_without_embedding s lid target top_k min_neighbors penalty_estado :
  store_ok s →
  get_licitacion s lid = Some target →
  (∀ c, c ∈ t_licitacion_chunk s → chunk_licitacion_id c = lid →
        _to_np_vec (chunk_embedding_vec c) = None) →
  ∃ s' fli,
    run_flag_precio_for_one s lid top_k min_neighbors penalty_estado
    = Ok (s', mk_FlagPrecioResult lid 0 "skip" empty_stats (lic_cuantia target) [])
    ∧ set_flag_for_licitacion (_ensure_flag s) lid "red_precio" false
        (Some no_embedding_comment) (Some "flag_precio(skip)") (Some "pipeline") None
      = Ok (s', fli)
    ∧ assignments_of s' lid "red_precio" = [fli]
    ∧ fli_valor fli = false
    ∧ fli_comentario fli = Some no_embedding_comment
    ∧ length (t_flags_log s') = S (length (t_flags_log s)).
Proof.
  intros Hok Hget Hnone.
  destruct (_ensure_flag_ok s Hok) as (Hok0 & (Hlic & Hchunk & _) & _ & Hlog0).
  assert (is_Some (get_licitacion (_ensure_flag s) lid)) as Hlic0
    by (by rewrite get_licitacion_ensure_flag, Hget).
  destruct (set_flag_for_licitacion_spec (_ensure_flag s) lid "red_precio" false
              (Some no_embedding_comment) (Some "flag_precio(skip)")
              (Some "pipeline") None Hok0 Hlic0 (red_precio_fits _))
    as (s' & fli & e & Hrun & _ & Has & Hv & Hc & _ & Hlog & _).
  exists s', fli. split; [|split; [done|split; [done|split; [done|split; [done|]]]]].
  - unfold run_flag_precio_for_one. rewrite Hget.
    rewrite _fetch_target_docvec_none by (by rewrite Hchunk). simpl.
    rewrite Hrun. simpl. unfold _fetch_target_meta. rewrite Hlic.
    unfold get_licitacion in Hget. by rewrite Hget.
  - rewrite Hlog, length_app, Hlog0. simpl. lia.
Qed.

(** Every run of the detector that returns has written the flag by one
    call of [set_flag_for_licitacion], either on a skip path (all-zero
    statistics, value false) or after the statistics step. *)
Lemma run_flag_precio_for_one_inv s lid top_k min_neighbors penalty_estado s' res :
  run_flag_precio_for_one s lid top_k min_neighbors penalty_estado = Ok (s', res) →
  ∃ valor com fue fli,
    set_flag_for_licitacion (_ensure_flag s) lid "red_precio" valor com fue
      (Some "pipeline") None = Ok (s', fli)
    ∧ ((stats res = empty_stats ∧ valor = false)
       ∨ (∃ values,
            stats res = _robust_stats values (default PrimFloat.nan (target_cuantia res))
            ∧ ¬ Z.of_nat (length values) < min_neighbors
            ∧ valor = price_flag (target_cuantia res) (stats res))).
Proof.
  unfold run_flag_precio_for_one.
  destruct (get_licitacion s lid) as [target|]; [|done].
  destruct (_fetch_target_docvec _ _) as [[t_vec|]|]; simpl; [| |done].
  - destruct (_fetch_candidate_chunks_docvecs _ _) as [docvecs|]; simpl; [|done].
    destruct (score_candidates _ _ _ _ _) as [[|sc scored]|]; simpl; [| |done].
    + destruct (set_flag_for_licitacion _ _ _ _ _ _ _ _) as [[s1 fli]|] eqn:Hset;
        simpl; [|done].
      intros [= <- <-]. eexists _, _, _, _. split; [done|]. by left.
    + case_match.
      * destruct (set_flag_for_licitacion _ _ _ _ _ _ _ _) as [[s1 fli]|] eqn:Hset;
          simpl; [|done].
        intros [= <- <-]. eexists _, _, _, _. split; [done|]. by left.
      * destruct (set_flag_for_licitacion _ _ _ _ _ _ _ _) as [[s1 fli]|] eqn:Hset;
          simpl; [|done].
        intros [= <- <-]. eexists _, _, _, _. split; [done|]. right. simpl.
        eexists. split; [done|]. split; [lia|done].
  - destruct (set_flag_for_licitacion _ _ _ _ _ _ _ _) as [[s1 fli]|] eqn:Hset;
      simpl; [|done].
    intros [= <- <-]. eexists _, _, _, _. split; [done|]. by left.
Qed.

(** The row a returning run leaves for its pair holds the value it wrote. *)
Lemma run_flag_precio_for_one_persisted s lid top_k min_neighbors penalty_estado s' res :
  store_ok s →
  run_flag_precio_for_one s lid top_k min_neighbors penalty_estado = Ok (s', res) →
  ∃ fli,
    assignments_of s' lid "red_precio" = [fli]
    ∧ ((stats res = empty_stats ∧ fli_valor fli = false)
       ∨ (∃ values,
            stats res = _robust_stats values (default PrimFloat.nan (target_cuantia res))
            ∧ ¬ Z.of_nat (length values) < min_neighbors
            ∧ fli_valor fli = price_flag (target_cuantia res) (stats res))).
Proof.
  intros Hok (valor & com & fue & fli & Hset & Hcase)%run_flag_precio_for_one_inv.
  destruct (_ensure_flag_ok s Hok) as (Hok0 & _).
  destruct (set_flag_for_licitacion_returned _ _ _ _ _ _ _ _ _ _ Hok0 Hset)
    as (e & _ & Has & Hv & _).
  exists fli. split; [done|]. rewrite Hv.
  destruct Hcase as [[? ?]|(values & ? & ? & ?)]; [by left|right; eauto].
Qed.

(** C4. The statistics step computes the modified z-score as
    0.6745 * (target - median) / MAD, and as 0 when the MAD is 0 or the
    target is not finite, with the fences Q1 - 1.5 IQR and Q3 + 1.5 IQR;
    and a run that reaches that step (its statistics count at least one
    neighbour) persists the value false when the target has no finite
    value, and otherwise the truth value of: the target is below the lower
    fence, or above the upper fence, or |z| >= 2.8. *)
Theorem price_statistics_and_flag :
  (∀ values target,
     let st := _robust_stats values target in
     (PrimFloat.eqb (mad st) 0 = true ∨ isfinite target = false →
      z_mad st = 0%float)
     ∧ (PrimFloat.eqb (mad st) 0 = false → isfinite target = true →
        z_mad st = (0.6745 * (target - median st) / mad st)%float)
     ∧ (values ≠ [] →
        median st = np_median values
        ∧ mad st = np_median ((λ x, PrimFloat.abs (x - median st)%float) <$> values)
        ∧ q1 st = np_percentile values 25
        ∧ q3 st = np_percentile values 75)
     ∧ iqr st = (q3 st - q1 st)%float
     ∧ lower st = (q1 st - 1.5 * iqr st)%float
     ∧ upper st = (q3 st + 1.5 * iqr st)%float)
  ∧ (∀ s lid top_k min_neighbors penalty_estado s' res,
       store_ok s →
       run_flag_precio_for_one s lid top_k min_neighbors penalty_estado = Ok (s', res) →
       n (stats res) ≠ 0 →
       ∃ fli values,
         stats res = _robust_stats values (default PrimFloat.nan (target_cuantia res))
         ∧ assignments_of s' lid "red_precio" = [fli]
         ∧ fli_valor fli
           = match target_cuantia res with
             | None => false
             | Some t =>
                 if isfinite t
                 then PrimFloat.ltb t (lower (stats res))
                      || PrimFloat.ltb (upper (stats res)) t
                      || PrimFloat.leb 2.8 (PrimFloat.abs (z_mad (stats res)))
                 else false
             end).
Proof.
  split.
  - intros values target. simpl. split; [|split; [|split; [|done]]].
    + intros [Hmad|Hfin].
      * by rewrite Hmad.
      * rewrite Hfin. simpl. by rewrite orb_true_r.
    + intros Hmad Hfin. by rewrite Hmad, Hfin.
    + intros Hne. by destruct values.
  - intros s lid top_k min_neighbors penalty_estado s' res Hok Hrun Hn.
    destruct (run_flag_precio_for_one_persisted _ _ _ _ _ _ _ Hok Hrun)
      as (fli & Has & [[Hst _]|(values & Hst & _ & Hv)]).
    + by rewrite Hst in Hn.
    + exists fli, values. split; [done|]. split; [done|]. rewrite Hv.
      unfold price_flag. destruct (target_cuantia res) as [t|]; [|done].
      by destruct (isfinite t).
Qed.
End precio_props.

(** ** The orchestrator *)

Section pipeline_props.
Context `{PyRuntime} `{Numpy} `{SqlEngine}.
Variables HAS_PRECIO HAS_GAP_FECHA : bool.
Import Repo Pipeline.

Local Abbreviation _run_one_flow := (_run_one_flow HAS_PRECIO HAS_GAP_FECHA).
Local Abbreviation run_flows := (run_flows HAS_PRECIO HAS_GAP_FECHA).
Local Abbreviation run_flow_for_one := (run_flow_for_one HAS_PRECIO HAS_GAP_FECHA).
Local Abbreviation run_each := (run_each HAS_PRECIO HAS_GAP_FECHA).
Local Abbreviation run_flow_batch := (run_flow_batch HAS_PRECIO HAS_GAP_FECHA).
Local Abbreviation get_computable_flows := (get_computable_flows HAS_PRECIO HAS_GAP_FECHA).
Local Abbreviation batch_accepts := (batch_accepts HAS_PRECIO HAS_GAP_FECHA).

Lemma _run_one_flow_entry s lid flow jo s' entry :
  _run_one_flow s lid flow jo = Ok (s', entry) → entry_flow entry = flow.
Proof.
  unfold Pipeline._run_one_flow. destruct (decide (flow = "red_contactos")) as [->|].
  - destruct (no_payload jo); [by intros [= <- <-]|].
    destruct (RedContactos.run_red_contactos _ _ _) as [[? ?]|]; simpl; [|done].
    by intros [= <- <-].
  - case_bool_decide as Hp; simpl.
    + destruct HAS_PRECIO; simpl.
      * destruct (FlagPrecio.run_flag_precio_for_one _ _ _ _ _) as [[? ?]|]; simpl; [|done].
        by intros [= <- <-].
      * case_bool_decide; simpl; [congruence|done].
    + case_bool_decide as Hg; simpl; [|done].
      destruct HAS_GAP_FECHA; simpl; [|done].
      destruct (FlagFecha.run_flag_fecha_for_one _ _ _) as [[? ?]|]; simpl; [|done].
      by intros [= <- <-].
Qed.

Lemma run_flows_entries s lid flows jo s' entries :
  run_flows s lid flows jo = Ok (s', entries) → entry_flow <$> entries = flows.
Proof.
  revert s s' entries. induction flows as [|f flows IH]; intros s s' entries; simpl.
  - by intros [= <- <-].
  - destruct (_run_one_flow s lid f jo) as [[s1 e]|] eqn:He; simpl; [|done].
    destruct (run_flows s1 lid flows jo) as [[s2 es]|] eqn:Hes; simpl; [|done].
    intros [= <- <-]. csimpl. f_equal; [by eapply _run_one_flow_entry|by eapply IH].
Qed.

Lemma run_flows_raise s lid pre f post jo s1 es e :
  run_flows s lid pre jo = Ok (s1, es) →
  _run_one_flow s1 lid f jo = Raise e →
  run_flows s lid (pre ++ f :: post) jo = Raise e.
Proof.
  revert s es. induction pre as [|g pre IH]; intros s es; simpl.
  - intros [= <- <-] ->. done.
  - destruct (_run_one_flow s lid g jo) as [[s0 e0]|]; simpl; [|done].
    destruct (run_flows s0 lid pre jo) as [[s2 es2]|] eqn:Hpre; simpl; [|done].
    intros [= <- <-] Hraise. by rewrite (IH _ _ Hpre Hraise).
Qed.

Lemma run_flow_for_one_id s lid flow jo s' r :
  run_flow_for_one s lid flow jo = Ok (s', r) → run_licitacion_id r = lid.
Proof.
  unfold Pipeline.run_flow_for_one.
  destruct (run_flows _ _ _ _) as [[? ?]|]; simpl; [|done]. by intros [= <- <-].
Qed.

Lemma run_each_ids s ksflow ids jo s' out :
  run_each s ksflow ids jo = Ok (s', out) → run_licitacion_id <$> out = ids.
Proof.
  revert s s' out. induction ids as [|lid ids IH]; intros s s' out; simpl.
  - by intros [= <- <-].
  - destruct (run_flow_for_one s lid ksflow jo) as [[s1 r]|] eqn:Hr; simpl; [|done].
    destruct (run_each s1 ksflow ids jo) as [[s2 rs]|] eqn:Hrs; simpl; [|done].
    intros [= <- <-]. csimpl. f_equal; [by eapply run_flow_for_one_id|by eapply IH].
Qed.

Lemma run_each_raise s ksflow pre lid post jo s1 out e :
  run_each s ksflow pre jo = Ok (s1, out) →
  run_flow_for_one s1 lid ksflow jo = Raise e →
  run_each s ksflow (pre ++ lid :: post) jo = Raise e.
Proof.
  revert s out. induction pre as [|x pre IH]; intros s out; simpl.
  - intros [= <- <-] ->. done.
  - destruct (run_flow_for_one s x ksflow jo) as [[s0 r0]|]; simpl; [|done].
    destruct (run_each s0 ksflow pre jo) as [[s2 out2]|] eqn:Hpre; simpl; [|done].
    intros [= <- <-] Hraise. by rewrite (IH _ _ Hpre Hraise).
Qed.

Lemma run_flow_batch_accepted s ksflow ids where_clause limit jo :
  batch_accepts ksflow (Some ids) jo →
  run_flow_batch s ksflow (Some ids) where_clause limit jo = run_each s ksflow ids jo.
Proof.
  unfold Pipeline.run_flow_batch. intros [->|[Hc|(-> & Hjo & _ & Hids)]].
  - done.
  - destruct (decide (ksflow = "all")); [done|]. by rewrite decide_True.
  - simpl. destruct (decide (_ ∈ _)); [done|]. rewrite Hjo. by destruct ids.
Qed.

Lemma run_flow_batch_run_each s ksflow ids where_clause limit jo s' out :
  run_flow_batch s ksflow (Some ids) where_clause limit jo = Ok (s', out) →
  run_each s ksflow ids jo = Ok (s', out).
Proof.
  unfold Pipeline.run_flow_batch.
  destruct (if decide (ksflow = "all") then _ else _) as [[]|]; simpl; [|done]. done.
Qed.

Lemma select_ids_spec s where_clause limit ids :
  select_ids s where_clause limit = Ok ids →
  ∃ rows sorted,
    matching s where_clause rows
    ∧ sorted ≡ₚ lic_id <$> rows
    ∧ StronglySorted Z.le sorted
    ∧ ids = match limit with
            | Some n => if decide (0 < n) then take (Z.to_nat n) sorted else sorted
            | None => sorted
            end.
Proof.
  unfold select_ids.
  set (r := match where_clause with None => _ | Some w => _ end).
  assert (∀ rows, r = Ok rows → matching s where_clause rows) as Hm.
  { subst r. unfold matching. intros rows. destruct where_clause as [w|].
    - destruct (decide (w = "")); [by intros [= <-]|].
      destruct (sql_where w s) as [keep|]; [|done]. intros [= <-]. eauto.
    - by intros [= <-]. }
  destruct r as [rows|]; simpl; [|done]. specialize (Hm rows eq_refl).
  intros Hids. exists rows, (sort_by Z.ltb (lic_id <$> rows)).
  split; [done|]. split; [apply sort_by_perm|]. split; [apply sort_by_sorted|].
  destruct limit as [n|]; [|by injection Hids].
  destruct (n =? 0) eqn:E0; [rewrite decide_False by lia; by injection Hids|].
  destruct (n <? 0) eqn:E1; [done|]. rewrite decide_True by lia. by injection Hids.
Qed.

Lemma run_flow_batch_discovers s ksflow where_clause limit jo s' out :
  run_flow_batch s ksflow None where_clause limit jo = Ok (s', out) →
  ∃ ids, select_ids s where_clause limit = Ok ids
         ∧ run_licitacion_id <$> out = ids.
Proof.
  unfold Pipeline.run_flow_batch.
  destruct (if decide (ksflow = "all") then _ else _) as [[]|]; simpl; [|done].
  destruct (select_ids s where_clause limit) as [ids|]; simpl; [|done].
  intros Hrun%run_each_ids. eauto.
Qed.

(** C1, as amended. A run with flow "all" that returns has one entry per
    computable flow, in their order, and a batch that returns has one
    result per id, in order.  An exception raised in a flow is not caught:
    it is what [run_flow_for_one] raises, whatever the flows after it
    would do, and an exception raised in one entity's run is what
    [run_flow_batch] raises.  Neither returns a list then. *)
Theorem runs_complete_unless_raised :
  (∀ s lid jo s' r,
     run_flow_for_one s lid "all" jo = Ok (s', r) →
     entry_flow <$> applied r = get_computable_flows ∧ run_licitacion_id r = lid)
  ∧ (∀ s ksflow ids where_clause limit jo s' out,
       run_flow_batch s ksflow (Some ids) where_clause limit jo = Ok (s', out) →
       run_licitacion_id <$> out = ids)
  ∧ (∀ s lid jo pre f post s1 entries e,
       get_computable_flows = pre ++ f :: post →
       run_flows s lid pre jo = Ok (s1, entries) →
       _run_one_flow s1 lid f jo = Raise e →
       run_flow_for_one s lid "all" jo = Raise e)
  ∧ (∀ s ksflow pre lid post where_clause limit jo s1 out e,
       batch_accepts ksflow (Some (pre ++ lid :: post)) jo →
       run_each s ksflow pre jo = Ok (s1, out) →
       run_flow_for_one s1 lid ksflow jo = Raise e →
       run_flow_batch s ksflow (Some (pre ++ lid :: post)) where_clause limit jo
       = Raise e).
Proof.
  split; [|split; [|split]].
  - intros s lid jo s' r Hrun. split; [|by eapply run_flow_for_one_id].
    unfold Pipeline.run_flow_for_one in Hrun. simpl in Hrun.
    destruct (run_flows _ _ _ _) as [[s1 es]|] eqn:Hes; simpl in Hrun; [|done].
    injection Hrun as <- <-. simpl. by eapply run_flows_entries.
  - intros s ksflow ids where_clause limit jo s' out Hrun%run_flow_batch_run_each.
    by eapply run_each_ids.
  - intros s lid jo pre f post s1 entries e Hflows Hpre Hraise.
    unfold Pipeline.run_flow_for_one. simpl. rewrite Hflows.
    by rewrite (run_flows_raise _ _ _ _ post _ _ _ _ Hpre Hraise).
  - intros s ksflow pre lid post where_clause limit jo s1 out e Hacc Hpre Hraise.
    rewrite run_flow_batch_accepted by done. by eapply run_each_raise.
Qed.

(** C7, as amended. With no payload ([None] or the empty dictionary) the
    contact-network flow run through [run_flow_for_one] returns the entry
    [{flow: red_contactos, ok: False, error: json_required}] and the
    session it was given: no table is written. *)
Theorem contactos_requires_payload s lid jo :
  jo = None ∨ jo = Some [] →
  run_flow_for_one s lid "red_contactos" jo
  = Ok (s, mk_RunResult lid [EntryError "red_contactos" false "json_required"]).
Proof. by intros [-> | ->]. Qed.

(** C9. The [flag_applied] the orchestrator returns for the price flow is
    computed from the result of the detector: the target is below the
    lower fence, above the upper fence, or |z_mad| >= 2.8.  So when the
    detector returns all-zero statistics and a target value above zero,
    [flag_applied] is true, while the row the detector wrote holds false. *)
Theorem price_flow_recomputes_flag s lid jo s' res :
  HAS_PRECIO = true →
  FlagPrecio.run_flag_precio_for_one s lid FlagPrecio.TOP_K
    FlagPrecio.MIN_NEIGHBORS_FOR_STATS FlagPrecio.PENALTY_ESTADO = Ok (s', res) →
  ∃ entry,
    _run_one_flow s lid "red_precio" jo = Ok (s', EntryPrecio entry)
    ∧ precio_flag_applied entry
      = match FlagPrecio.target_cuantia res with
        | None => false
        | Some t =>
            PrimFloat.ltb t (FlagPrecio.lower (FlagPrecio.stats res))
            || PrimFloat.ltb (FlagPrecio.upper (FlagPrecio.stats res)) t
            || PrimFloat.leb 2.8 (PrimFloat.abs (FlagPrecio.z_mad (FlagPrecio.stats res)))
        end
    ∧ (∀ t, store_ok s →
            FlagPrecio.stats res = FlagPrecio.empty_stats →
            FlagPrecio.target_cuantia res = Some t →
            PrimFloat.ltb 0 t = true →
            precio_flag_applied entry = true
            ∧ ∃ fli, assignments_of s' lid "red_precio" = [fli]
                     ∧ fli_valor fli = false).
Proof.
  intros -> Hrun. unfold Pipeline._run_one_flow. simpl. rewrite Hrun. simpl.
  eexists. split; [done|]. split; [done|]. simpl.
  intros t Hok Hst Ht Hpos. rewrite Ht, Hst. simpl. rewrite Hpos. split.
  - by destruct (PrimFloat.ltb t 0).
  - destruct (run_flag_precio_for_one_persisted _ _ _ _ _ _ _ Hok Hrun)
      as (fli & Has & [[_ Hv]|(values & Hvals & Hlen & _)]); [eauto|].
    exfalso. rewrite Hst in Hvals. apply (f_equal FlagPrecio.n) in Hvals.
    simpl in Hvals. unfold FlagPrecio.MIN_NEIGHBORS_FOR_STATS in Hlen. lia.
Qed.
End pipeline_props.

(** ** The contact graph *)

Section graph_props.
Context `{Countable K}.
Import RedContactos.

Lemma shortest_path_self (adj : gmap K (list K)) src max_depth :
  shortest_path adj src src max_depth = None.
Proof. unfold shortest_path. by rewrite bool_decide_eq_true_2. Qed.

Lemma shortest_path_absent (adj : gmap K (list K)) src dst max_depth :
  adj !! src = None ∨ adj !! dst = None →
  shortest_path adj src dst max_depth = None.
Proof.
  unfold shortest_path. intros [Hs|Hd].
  - rewrite (bool_decide_eq_true_2 (adj !! src = None)) by done.
    by rewrite orb_true_r.
  - rewrite (bool_decide_eq_true_2 (adj !! dst = None)) by done.
    by rewrite orb_true_r.
Qed.

Lemma visit_depth dst max_depth path nbs seen (q : list (K * list K)) :
  Z.of_nat (length path) - 1 ≤ max_depth → shallow max_depth q →
  shallow max_depth (visit dst max_depth path nbs seen q).2
  ∧ ∀ p, (visit dst max_depth path nbs seen q).1.1 = Some p →
         Z.of_nat (length p) - 1 ≤ max_depth + 1.
Proof.
  intros Hpath. revert seen q. induction nbs as [|nb nbs IH]; intros seen q Hq; simpl.
  { by split. }
  destruct (decide (nb ∈ seen)); [by apply IH|].
  destruct (decide (nb = dst)); simpl.
  { split; [done|]. intros p [= <-]. rewrite length_app. simpl. lia. }
  destruct (_ <=? _) eqn:E; [|by apply IH].
  apply IH. apply Forall_app. split; [done|]. constructor; [|done]. simpl. lia.
Qed.

Lemma bfs_depth (adj : gmap K (list K)) dst max_depth seen q p :
  shallow max_depth q → bfs adj dst max_depth seen q = Some p →
  Z.of_nat (length p) - 1 ≤ max_depth + 1.
Proof.
  funelim (bfs adj dst max_depth seen q); intros Hq; simp bfs; [done|].
  apply Forall_cons in Hq as [Hpath Hq]. simpl in Hpath.
  pose proof (visit_depth dst max_depth path (default [] (adj !! node)) seen q'
                Hpath Hq) as [Hq' Hfound].
  destruct ((visit dst max_depth path (default [] (adj !! node)) seen q').1.1)
    as [newp|] eqn:Hv.
  - intros [= <-]. by apply Hfound.
  - eauto.
Qed.

Lemma shortest_path_depth (adj : gmap K (list K)) src dst max_depth p :
  0 ≤ max_depth → shortest_path adj src dst max_depth = Some p →
  Z.of_nat (length p) - 1 ≤ max_depth + 1.
Proof.
  intros Hd. unfold shortest_path. destruct (_ || _); [done|].
  apply bfs_depth. constructor; [simpl; lia|constructor].
Qed.
End graph_props.

Section detector_props.
Context `{PyRuntime}.
Import RedContactos.

Lemma foldl_invariant {A B} (P : A → Prop) (f : A → B → A) (l : list B) (a : A) :
  P a → (∀ a b, P a → P (f a b)) → P (foldl f a l).
Proof. revert a. induction l; simpl; eauto. Qed.

Lemma try_pair_no_self adj by_id oid cid st :
  no_self_match st → no_self_match (try_pair adj by_id oid cid st).
Proof.
  intros Hst. unfold try_pair. destruct st as [[matches best] best_score].
  destruct (shortest_path adj oid cid 2) as [[|x path]|] eqn:Hpath; try done.
  destruct (best_score <? _); intros m [Hm|Hm%list_elem_of_singleton]%elem_of_app;
    try (by apply Hst); subst m; simpl; intros ->;
    by rewrite shortest_path_self in Hpath.
Qed.

Lemma search_matches_no_self adj by_id official_ids contractor_ids :
  no_self_match (search_matches adj by_id official_ids contractor_ids).
Proof.
  unfold search_matches. apply foldl_invariant.
  - by intros m ?%elem_of_nil.
  - intros st oid Hst. apply foldl_invariant; [done|].
    intros st' cid. apply try_pair_no_self.
Qed.

(** The code and the name of the detector fit their columns, so its
    definition is written. *)
Lemma ensure_flag_exists_contactos s :
  ensure_flag_exists s FLAG_CODE FLAG_NAME FLAG_DESC
  = Ok (upserted_flags s FLAG_CODE FLAG_NAME FLAG_DESC).
Proof. reflexivity. Qed.

Lemma run_red_contactos_matches s lid jo s' flag comment detail :
  run_red_contactos s lid jo = Ok (s', Evaluated flag comment detail) →
  ∃ adj by_id,
    detail_matches detail
    = (search_matches adj by_id (detail_official_ids detail)
         (detail_contractor_ids detail)).1.1.
Proof.
  unfold run_red_contactos.
  destruct (get_licitacion s lid) as [lic|]; [|done].
  case_bool_decide; [done|].
  destruct (_from_v2_people jo) as [[people_v2 aprobadores]|]; cbn [rbind]; [|done].
  destruct (match people_v2 with [] => _ | _ => _ end) as [[people aps]|];
    cbn [rbind]; [|done].
  destruct people as [|p people]; [done|].
  destruct (build_graph (p :: people)) as [by_id adj].
  destruct (pick_official_ids _ _ _) as [official_ids|]; cbn [rbind]; [|done].
  destruct (pick_contractor_ids _ _) as [contractor_ids|]; cbn [rbind]; [|done].
  destruct (search_matches adj by_id official_ids contractor_ids)
    as [[matches best] best_score] eqn:Hsearch.
  rewrite ensure_flag_exists_contactos.
  destruct best as [[[oid cid] path]|]; cbv zeta beta; cbn [rbind];
    (match goal with
     | |- context [Repo.set_flag_for_licitacion ?a ?b ?c ?d ?e ?f ?g ?h] =>
         destruct (Repo.set_flag_for_licitacion a b c d e f g h) as [[s1 fli]|]
     end; cbn [rbind]; [|done]);
    intros [= <- <- <- <-]; cbn [detail_matches detail_official_ids
                                 detail_contractor_ids];
    exists adj, by_id; by rewrite Hsearch.
Qed.
End detector_props.

(** C10. [shortest_path] returns [None] from a node to itself, and when
    either end is not a key of the adjacency; so no entry of [matches],
    in the search of [run_red_contactos] or in the detail it returns, pairs a
    person with themself, whoever is in both the official and the contractor
    list. *)
Theorem shortest_path_never_to_self `{PyRuntime} :
  (∀ K `{Countable K} (adj : gmap K (list K)) src max_depth,
     RedContactos.shortest_path adj src src max_depth = None)
  ∧ (∀ K `{Countable K} (adj : gmap K (list K)) src dst max_depth,
       adj !! src = None ∨ adj !! dst = None →
       RedContactos.shortest_path adj src dst max_depth = None)
  ∧ (∀ adj by_id official_ids contractor_ids m,
       m ∈ (RedContactos.search_matches adj by_id official_ids contractor_ids).1.1 →
       RedContactos.oficial_id m ≠ RedContactos.contratista_id m)
  ∧ (∀ s lid jo s' flag comment detail m,
       RedContactos.run_red_contactos s lid jo
       = Ok (s', RedContactos.Evaluated flag comment detail) →
       m ∈ RedContactos.detail_matches detail →
       RedContactos.oficial_id m ≠ RedContactos.contratista_id m).
Proof.
  split; [|split; [|split]].
  - intros K ? ? adj src max_depth. apply shortest_path_self.
  - intros K ? ? adj src dst max_depth. apply shortest_path_absent.
  - intros adj by_id official_ids contractor_ids. apply search_matches_no_self.
  - intros s lid jo s' flag comment detail m (adj & by_id & ->)%run_red_contactos_matches.
    apply search_matches_no_self.
Qed.

(** ** Candidate discovery in a batch *)

Section discovery.
Import Example.

(** C8, as amended. A batch without explicit ids that returns has run, in
  this order, the keys of the licitaciones the filter keeps, sorted
  ascending, cut to [limit] when [limit] is positive and not cut when
  [limit] is omitted or 0; its results follow that order.  With the keys
  1, 2, 3, 5, 8 and the limit 3 it runs 1, 2, 3. *)
Theorem batch_discovers_candidates :
(∀ `{PyRuntime} `{Numpy} `{SqlEngine} HAS_PRECIO HAS_GAP_FECHA
   s ksflow where_clause limit jo s' out,
   Pipeline.run_flow_batch HAS_PRECIO HAS_GAP_FECHA s ksflow None where_clause limit jo
   = Ok (s', out) →
   ∃ rows sorted,
     Pipeline.matching s where_clause rows
     ∧ sorted ≡ₚ lic_id <$> rows
     ∧ StronglySorted Z.le sorted
     ∧ Pipeline.run_licitacion_id <$> out
       = match limit with
         | Some n => if decide (0 < n) then take (Z.to_nat n) sorted else sorted
         | None => sorted
         end)
∧ (lic_id <$> t_licitacion Example.five ≡ₚ [1; 2; 3; 5; 8]
   ∧ ∃ s' out,
       Pipeline.run_flow_batch true true Example.five "all" None None (Some 3) None
       = Ok (s', out)
       ∧ Pipeline.run_licitacion_id <$> out = [1; 2; 3]).
Proof.
split.
- intros ? ? ? HAS_PRECIO HAS_GAP_FECHA s ksflow where_clause limit jo s' out
    (ids & Hsel & Hout)%run_flow_batch_discovers.
  apply select_ids_spec in Hsel as (rows & sorted & Hm & Hperm & Hsorted & ->).
  by exists rows, sorted.
- split; [by apply (bool_decide_unpack _)|].
  destruct (Pipeline.run_flow_batch true true Example.five "all" None None (Some 3) None)
    as [[s' out]|e] eqn:Hrun; vm_compute in Hrun; [|done].
  exists s', out. split; [done|]. by injection Hrun as <- <-.
Qed.
End discovery.

(** ** Worked examples *)

Section examples.
Import Example.

Ltac store_ok := repeat split; by apply (bool_decide_unpack _).

Lemma business_days_symmetric_witness :
  FlagFecha._business_days (Some (mk_datetime 738886 0))
    (Some (mk_datetime 738893 0)) (Some ∅) = Some 5
  ∧ FlagFecha._business_days (Some (mk_datetime 738892 0))
      (Some (mk_datetime 738891 36000000000)) (Some {["2024-01-01"]}) = Some 0.
Proof.
  destruct business_days_symmetric as (_ & _ & Hweekend & Hmonday). split.
  - apply Hmonday; [reflexivity|reflexivity|by right].
  - apply (Hweekend _ _ _ 738891); [reflexivity|by right|by left].
Defined.



Lemma price_statistics_and_flag_witness :
  (let st := FlagPrecio._robust_stats [100; 110]%float 1000%float in
   FlagPrecio.z_mad st
   = (0.6745 * (1000 - FlagPrecio.median st) / FlagPrecio.mad st)%float)
  ∧ ∃ s' res fli,
      FlagPrecio.run_flag_precio_for_one priced 1 2 2 0.1 = Ok (s', res)
      ∧ FlagPrecio.target_cuantia res = Some 1000%float
      ∧ Repo.assignments_of s' 1 "red_precio" = [fli]
      ∧ fli_valor fli
        = PrimFloat.ltb 1000 (FlagPrecio.lower (FlagPrecio.stats res))
          || PrimFloat.ltb (FlagPrecio.upper (FlagPrecio.stats res)) 1000
          || PrimFloat.leb 2.8 (PrimFloat.abs (FlagPrecio.z_mad (FlagPrecio.stats res))).
Proof.
  destruct price_statistics_and_flag as [Hstats Hflag]. split.
  - destruct (Hstats [100; 110]%float 1000%float) as (_ & Hz & _).
    apply Hz; reflexivity.
  - destruct (FlagPrecio.run_flag_precio_for_one priced 1 2 2 0.1)
      as [[s' res]|e] eqn:Hrun; [|by vm_compute in Hrun].
    pose proof Hrun as Hres. vm_compute in Hres. injection Hres as Hs' Hres.
    destruct (Hflag priced 1 2 2 0.1%float s' res) as (fli & values & Hst & Has & Hv);
      [store_ok|exact Hrun|rewrite <- Hres; vm_compute; discriminate|].
    assert (FlagPrecio.target_cuantia res = Some 1000%float) as Ht
      by (rewrite <- Hres; reflexivity).
    rewrite Ht in Hv. exists s', res, fli.
    split; [reflexivity|]. split; [exact Ht|]. split; [exact Has|exact Hv].
Defined.

Lemma precio_without_embedding_witness :
  ∃ s' fli,
    FlagPrecio.run_flag_precio_for_one unusable 1 50 10 0.1
    = Ok (s', FlagPrecio.mk_FlagPrecioResult 1 0 "skip" FlagPrecio.empty_stats
                (Some 100%float) [])
    ∧ Repo.set_flag_for_licitacion (FlagPrecio._ensure_flag unusable) 1 "red_precio"
        false (Some FlagPrecio.no_embedding_comment) (Some "flag_precio(skip)")
        (Some "pipeline") None = Ok (s', fli)
    ∧ Repo.assignments_of s' 1 "red_precio" = [fli]
    ∧ fli_valor fli = false
    ∧ fli_comentario fli = Some FlagPrecio.no_embedding_comment
    ∧ length (t_flags_log s') = S (length (t_flags_log unusable)).
Proof.
  apply (precio_without_embedding unusable 1 (lic 1 (Some 100%float)));
    [store_ok|reflexivity|].
  intros c Hc Hlid. simpl in Hc.
  repeat (apply elem_of_cons in Hc as [->|Hc]); try reflexivity;
    [discriminate Hlid|by apply elem_of_nil in Hc].
Defined.

Lemma price_flow_recomputes_flag_witness :
  ∃ s' entry fli,
    Pipeline._run_one_flow true false five 1 "red_precio" None
    = Ok (s', Pipeline.EntryPrecio entry)
    ∧ Pipeline.precio_flag_applied entry = true
    ∧ Repo.assignments_of s' 1 "red_precio" = [fli]
    ∧ fli_valor fli = false.
Proof.
  destruct (FlagPrecio.run_flag_precio_for_one five 1 FlagPrecio.TOP_K
              FlagPrecio.MIN_NEIGHBORS_FOR_STATS FlagPrecio.PENALTY_ESTADO)
    as [[s' res]|e] eqn:Hrun; [|by vm_compute in Hrun].
  pose proof Hrun as Hres. vm_compute in Hres. injection Hres as Hs' Hres.
  destruct (price_flow_recomputes_flag true false five 1 None s' res eq_refl Hrun)
    as (entry & Hentry & _ & Hskip).
  destruct (Hskip 100%float) as (Happlied & fli & Has & Hv);
    [store_ok|rewrite <- Hres; reflexivity..|reflexivity|].
  exists s', entry, fli.
  split; [exact Hentry|]. split; [exact Happlied|]. split; [exact Has|exact Hv].
Defined.

Lemma contactos_requires_payload_witness :
  Pipeline.run_flow_for_one true true stored 2 "red_contactos" (Some [])
  = Ok (stored, Pipeline.mk_RunResult 2
                  [Pipeline.EntryError "red_contactos" false "json_required"]).
Proof. apply contactos_requires_payload. by right. Defined.

(** C7 as the specification words it: the error of the entry is not
    "payload_required". *)
Lemma contactos_error_is_not_payload_required :
  ∃ entry,
    Pipeline.run_flow_for_one true true stored 2 "red_contactos" None
    = Ok (stored, Pipeline.mk_RunResult 2 [entry])
    ∧ entry = Pipeline.EntryError "red_contactos" false "json_required"
    ∧ entry ≠ Pipeline.EntryError "red_contactos" false "payload_required".
Proof. eexists. split; [reflexivity|]. split; [reflexivity|discriminate]. Qed.

Lemma runs_complete_unless_raised_witness :
  Pipeline.run_flow_for_one true true empty_session 7 "all" None
  = Raise (ValueError "Licitación 7 no existe")
  ∧ Pipeline.run_flow_batch true true five "all" (Some ([1] ++ 7 :: [2])) None None None
    = Raise (ValueError "Licitación 7 no existe").
Proof.
  destruct (runs_complete_unless_raised true true) as (_ & _ & Hflow & Hbatch). split.
  - apply (Hflow empty_session 7 None [] "red_precio" ["gap_fechas"] empty_session []);
      reflexivity.
  - destruct (Pipeline.run_each true true five "all" [1] None) as [[s1 out]|e] eqn:Hpre;
      [|by vm_compute in Hpre].
    pose proof Hpre as Hs1. vm_compute in Hs1. injection Hs1 as Hs1 _.
    apply (Hbatch five "all" [1] 7 [2] None None None s1 out);
      [by left|exact Hpre|]. rewrite <- Hs1. reflexivity.
Defined.

(** C1 as the specification words it: one flow raises and no list comes
    back, though the other flow of the same entity, and the other entities
    of the batch, run to an entry when run alone. *)
Lemma one_failure_aborts_the_run :
  Pipeline.run_flow_for_one true true empty_session 7 "all" None
  = Raise (ValueError "Licitación 7 no existe")
  ∧ Pipeline._run_one_flow true true empty_session 7 "gap_fechas" None
    = Ok (empty_session, Pipeline.EntryGap (FlagFecha.GapSkipped "sin_calendario"))
  ∧ Pipeline.run_flow_batch true true five "all" (Some [1; 7; 2]) None None None
    = Raise (ValueError "Licitación 7 no existe")
  ∧ (∃ s' out, Pipeline.run_flow_batch true true five "all" (Some [1; 2]) None None None
               = Ok (s', out)
               ∧ length out = 2%nat).
Proof.
  split; [reflexivity|]. split; [reflexivity|]. split; [by vm_compute|].
  destruct (Pipeline.run_flow_batch true true five "all" (Some [1; 2]) None None None)
    as [[s' out]|e] eqn:Hrun; vm_compute in Hrun; [|discriminate Hrun].
  exists s', out. split; [reflexivity|]. injection Hrun as _ <-. reflexivity.
Qed.

Lemma batch_discovers_candidates_witness :
  ∃ rows sorted,
    rows = t_licitacion five
    ∧ sorted ≡ₚ lic_id <$> rows
    ∧ StronglySorted Z.le sorted
    ∧ ∃ s' out,
        Pipeline.run_flow_batch true true five "gap_fechas" None (Some "") (Some 2) None
        = Ok (s', out)
        ∧ Pipeline.run_licitacion_id <$> out = take 2 sorted.
Proof.
  destruct batch_discovers_candidates as [Hgeneral _].
  destruct (Pipeline.run_flow_batch true true five "gap_fechas" None (Some "") (Some 2) None)
    as [[s' out]|e] eqn:Hrun; [|by vm_compute in Hrun].
  destruct (Hgeneral _ _ _ true true five "gap_fechas" (Some "") (Some 2) None s' out Hrun)
    as (rows & sorted & Hrows & Hperm & Hsorted & Hout).
  exists rows, sorted. split; [exact Hrows|]. split; [exact Hperm|].
  split; [exact Hsorted|]. exists s', out. split; [reflexivity|exact Hout].
Defined.

(** C8 as the specification words it: the limit 0 does not cut the list
    to nothing, all five entities are run. *)
Lemma limit_zero_does_not_truncate :
  Pipeline.select_ids five None (Some 0) = Ok [1; 2; 3; 5; 8]
  ∧ ∃ s' out,
      Pipeline.run_flow_batch true true five "all" None None (Some 0) None = Ok (s', out)
      ∧ Pipeline.run_licitacion_id <$> out = [1; 2; 3; 5; 8]
      ∧ Pipeline.run_licitacion_id <$> out ≠ take (Z.to_nat 0) [1; 2; 3; 5; 8].
Proof.
  split; [reflexivity|].
  destruct (Pipeline.run_flow_batch true true five "all" None None (Some 0) None)
    as [[s' out]|e] eqn:Hrun; vm_compute in Hrun; [|discriminate Hrun].
  exists s', out. split; [reflexivity|]. injection Hrun as _ <-.
  split; [reflexivity|discriminate].
Qed.

Lemma shortest_path_never_to_self_witness :
  RedContactos.shortest_path (chain false false) "A" "Z" 2 = None
  ∧ ∃ s' flag comment detail,
      RedContactos.run_red_contactos one 1 chain_payload
      = Ok (s', RedContactos.Evaluated flag comment detail)
      ∧ ∀ m, m ∈ RedContactos.detail_matches detail →
             RedContactos.oficial_id m ≠ RedContactos.contratista_id m.
Proof.
  destruct shortest_path_never_to_self as (_ & Habsent & _ & Hrun). split.
  - apply Habsent. by right.
  - destruct (RedContactos.run_red_contactos one 1 chain_payload)
      as [[s' [d|d|flag comment detail]]|e] eqn:Hres;
      try (by vm_compute in Hres).
    exists s', flag, comment, detail. split; [reflexivity|].
    intros m. by apply (Hrun one 1 chain_payload s' flag comment detail m).
Defined.

(** C2. In the chain A - B - C - D, whichever way the sets iterate, the
    search with [max_depth = 2] finds A - C with 2 hops, and finds A - D as
    well, with 3 hops; run on that chain, the detector raises the flag for
    the official A and the contractor D, with a path of 3 hops and the
    score of a 2-hop path. *)
Theorem shortest_path_returns_three_hops :
  (∀ b c, RedContactos.shortest_path (chain b c) "A" "C" 2 = Some ["A"; "B"; "C"])
  ∧ (∀ b c, RedContactos.shortest_path (chain b c) "A" "D" 2
            = Some ["A"; "B"; "C"; "D"])
  ∧ ∃ s' comment detail,
      RedContactos.run_red_contactos one 1 chain_payload
      = Ok (s', RedContactos.Evaluated true comment detail)
      ∧ RedContactos.path_len <$> RedContactos.detail_matches detail = [3]
      ∧ RedContactos.score <$> RedContactos.detail_matches detail = [18].
Proof.
  split; [by intros [] []; vm_compute|]. split; [by intros [] []; vm_compute|].
  destruct (RedContactos.run_red_contactos one 1 chain_payload)
    as [[s' r]|e] eqn:Hrun; vm_compute in Hrun; [|discriminate Hrun].
  injection Hrun as _ <-. by eexists _, _, _.
Qed.
End examples.

(** * Further properties of the code *)

(** ** The flag store, continued *)

Section store_more.
Context `{PyRuntime}.
Import Repo.

(** What a call of [set_flag_for_licitacion] that returns has done, on any
    store: it found or appended the definition, wrote or appended the row of
    the pair, and appended one log entry. *)
Lemma set_flag_for_licitacion_shape s lid codigo valor com fue usr fecha s' fli :
  set_flag_for_licitacion s lid codigo valor com fue usr fecha = Ok (s', fli) →
  ∃ flag entry stamp,
    (t_flags s' = t_flags s ∨ t_flags s' = t_flags s ++ [flag])
    ∧ flag ∈ t_flags s' ∧ flag_codigo flag = Some codigo
    ∧ pair_of fli = (lid, flag_id flag)
    ∧ (fli_valor fli, fli_comentario fli, fli_fuente fli, fli_fecha_detectado fli)
      = (valor, com, fue, stamp)
    ∧ ((t_flags_licitaciones s' = t_flags_licitaciones s ++ [fli]
        ∧ ∀ r, r ∈ t_flags_licitaciones s → pair_of r ≠ (lid, flag_id flag))
       ∨ (∃ old, old ∈ t_flags_licitaciones s ∧ pair_of old = (lid, flag_id flag)
                 ∧ fli_id fli = fli_id old
                 ∧ t_flags_licitaciones s'
                   = (λ r, if decide (fli_id r = fli_id old) then fli else r)
                       <$> t_flags_licitaciones s))
    ∧ t_flags_log s' = t_flags_log s ++ [entry]
    ∧ log_flags_licitaciones_id entry = fli_id fli
    ∧ log_fecha entry = stamp
    ∧ log_usuario entry = Some (str_or usr "sistema")
    ∧ stamp = default (clock (clock_reads s)) fecha
    ∧ clock_reads s' = (if fecha is Some _ then clock_reads s else S (clock_reads s))
    ∧ same_entities s s'.
Proof.
  unfold set_flag_for_licitacion.
  set (fs := match fecha with Some f => (f, s) | None => datetime_now s end).
  assert (fs.1 = default (clock (clock_reads s)) fecha
          ∧ clock_reads fs.2 = (if fecha is Some _ then clock_reads s else S (clock_reads s))
          ∧ t_flags fs.2 = t_flags s
          ∧ t_flags_licitaciones fs.2 = t_flags_licitaciones s
          ∧ t_flags_log fs.2 = t_flags_log s ∧ same_entities s fs.2)
    as (Hstamp & Hclock & Hfl0 & Hrows0 & Hlog0 & Hent0).
  { subst fs. by destruct fecha. }
  destruct fs as [stamp s0]. simpl in *.
  unfold ensure_flag_by_codigo.
  destruct (filter (λ f, flag_codigo f = Some codigo) (t_flags s0))
    as [|flag [|]] eqn:Hfilter; simpl; [| |done].
  - destruct (too_long _ _ || too_long _ _); simpl; [done|].
    destruct (head (filter _ (t_flags_licitaciones s0))) as [old|] eqn:Hhead;
      [apply head_filter_some in Hhead as [[Hl Hf] Hold]
      |apply head_filter_none in Hhead;
       match goal with
       | |- context [get_licitacion ?a ?b] => destruct (get_licitacion a b) as [lic|]
       end; simpl; [|done]];
      intros [= <- <-]; eexists _, _, stamp; simpl;
      rewrite ?Hfl0, ?Hrows0, ?Hlog0 in *; split_and!; try done;
      try (by destruct Hent0 as (?&?&?&?)).
    + by right.
    + set_solver.
    + done.
    + unfold pair_of. simpl. by rewrite Hl, Hf.
    + right. exists old. unfold pair_of. by rewrite Hl, Hf.
    + by right.
    + set_solver.
    + done.
    + done.
    + left. split; [done|]. intros r Hr [= Hl Hf].
      by eapply (filter_nil_not_elem_of _ _ r Hhead).
  - assert (flag ∈ t_flags s ∧ flag_codigo flag = Some codigo) as [Hin Hcode].
    { rewrite <- Hfl0.
      assert (flag ∈ filter (λ f, flag_codigo f = Some codigo) (t_flags s0)) as Hm
        by (rewrite Hfilter; left).
      apply list_elem_of_filter in Hm as [? ?]. done. }
    destruct (head (filter _ (t_flags_licitaciones s0))) as [old|] eqn:Hhead;
      [apply head_filter_some in Hhead as [[Hl Hf] Hold]
      |apply head_filter_none in Hhead;
       match goal with
       | |- context [get_licitacion ?a ?b] => destruct (get_licitacion a b) as [lic|]
       end; simpl; [|done]];
      intros [= <- <-]; exists flag; eexists _, stamp; simpl;
      rewrite ?Hfl0, ?Hrows0, ?Hlog0 in *; split_and!; try done;
      try (by destruct Hent0 as (?&?&?&?)).
    + by left.
    + unfold pair_of. simpl. by rewrite Hl, Hf.
    + right. exists old. unfold pair_of. by rewrite Hl, Hf.
    + by left.
    + left. split; [done|]. intros r Hr [= Hl Hf].
      by eapply (filter_nil_not_elem_of _ _ r Hhead).
Qed.


(** X2. On a store that meets its constraints, for a licitacion that exists
    and a code that is defined or that the code column holds, a second call
    of [set_flag_for_licitacion] for the same pair with other values writes
    over the row of the first: the pair still has one row, under the same
    key, now holding the second value, comment and source, no row was added,
    and the log holds one entry for each call, the first for the row as
    well. *)
Theorem set_flag_last_write_wins s lid codigo v1 c1 f1 u1 d1 v2 c2 f2 u2 d2 :
  store_ok s →
  is_Some (get_licitacion s lid) →
  code_fits s codigo →
  ∃ s1 fli1 s2 fli2 e1 e2,
    set_flag_for_licitacion s lid codigo v1 c1 f1 u1 d1 = Ok (s1, fli1)
    ∧ set_flag_for_licitacion s1 lid codigo v2 c2 f2 u2 d2 = Ok (s2, fli2)
    ∧ assignments_of s2 lid codigo = [fli2]
    ∧ fli_id fli2 = fli_id fli1
    ∧ (fli_valor fli2, fli_comentario fli2, fli_fuente fli2) = (v2, c2, f2)
    ∧ length (t_flags_licitaciones s2) = length (t_flags_licitaciones s1)
    ∧ t_flags_log s2 = t_flags_log s ++ [e1; e2]
    ∧ log_flags_licitaciones_id e1 = fli_id fli1
    ∧ log_flags_licitaciones_id e2 = fli_id fli1.
Proof.
  intros Hok Hlic Hfits.
  destruct (set_flag_for_licitacion_spec s lid codigo v1 c1 f1 u1 d1 Hok Hlic Hfits)
    as (s1 & fli1 & e1 & Hrun1 & Hok1 & Has1 & _ & _ & _ & Hlog1 & Hid1 & Hent1 & _).
  assert (is_Some (get_licitacion s1 lid)) as Hlic1
    by (by rewrite (get_licitacion_same s s1)).
  assert (code_fits s1 codigo) as Hfits1.
  { apply (assignments_code_defined s1 lid codigo fli1). rewrite Has1. left. }
  destruct (set_flag_for_licitacion_spec s1 lid codigo v2 c2 f2 u2 d2 Hok1 Hlic1 Hfits1)
    as (s2 & fli2 & e2 & Hrun2 & _ & Has2 & Hv2 & Hc2 & Hf2 & Hlog2 & Hid2 & _ & Hsame).
  destruct (Hsame fli1) as (_ & Hids & Hsame_id); [rewrite Has1; left|].
  exists s1, fli1, s2, fli2, e1, e2. split_and!; try done.
  - by rewrite Hv2, Hc2, Hf2.
  - by rewrite <- (length_fmap fli_id), Hids, length_fmap.
  - by rewrite Hlog2, Hlog1, <- app_assoc.
  - by rewrite Hid2.
Qed.

(** X3. A call of [set_flag_for_licitacion] that returns, on a store that
    meets its constraints, touches the row of its pair only: every other
    assignment row is still there as it was, every row of the new table is
    the row it returns or a row of the old one, the definitions and the log
    are only appended to (one log entry), and the other tables are not
    written. *)
Theorem set_flag_touches_one_pair s lid codigo valor com fue usr fecha s' fli :
  store_ok s →
  set_flag_for_licitacion s lid codigo valor com fue usr fecha = Ok (s', fli) →
  (∀ r, r ∈ t_flags_licitaciones s → pair_of r ≠ pair_of fli →
        r ∈ t_flags_licitaciones s')
  ∧ (∀ r, r ∈ t_flags_licitaciones s' → r = fli ∨ r ∈ t_flags_licitaciones s)
  ∧ fli ∈ t_flags_licitaciones s'
  ∧ t_flags s `prefix_of` t_flags s'
  ∧ (∃ entry, t_flags_log s' = t_flags_log s ++ [entry])
  ∧ same_entities s s'.
Proof.
  intros (_ & _ & Hid & _)
    (flag & entry & stamp & Hfl & _ & _ & Hpair & _ & Hrows & Hlog & _ & _ & _ & _ & _
     & Hent)%set_flag_for_licitacion_shape.
  split_and!; try done.
  - intros r Hr Hne. destruct Hrows as [[-> _]|(old & Hold & Hpold & Hido & ->)].
    + set_solver.
    + apply list_elem_of_fmap. exists r. split; [|done].
      destruct (decide (fli_id r = fli_id old)) as [Heq|]; [|done].
      exfalso. apply Hne. rewrite Hpair, <- Hpold. f_equal.
      by apply (key_inj fli_id (t_flags_licitaciones s)).
  - intros r Hr. destruct Hrows as [[Heq _]|(old & Hold & Hpold & Hido & Heq)];
      rewrite Heq in Hr.
    + set_solver.
    + apply list_elem_of_fmap in Hr as (r0 & -> & Hr0).
      destruct (decide (fli_id r0 = fli_id old)); auto.
  - destruct Hrows as [[-> _]|(old & Hold & Hpold & Hido & ->)].
    + set_solver.
    + apply list_elem_of_fmap. exists old. by rewrite decide_True.
  - destruct Hfl as [->| ->]; [done|]. by apply prefix_app_r.
  - eauto.
Qed.
End store_more.

(** ** Business days, continued *)

Section fecha_more.
Context `{PyRuntime}.
Import Repo FlagFecha.

Lemma business_days_loop_ind (P : Z → Z → Prop) (stop : Z) :
  (∀ cur, stop ≤ cur → P cur 0) →
  (∀ cur, cur < stop → (∀ d, P (cur + 1) d) → ∀ d, P cur d) →
  (∀ cur, stop ≤ cur → ∀ d, P cur d) →
  ∀ cur d, P cur d.
Proof.
  intros _ Hstep Hdone cur.
  remember (Z.to_nat (stop - cur)) as k eqn:Hk. revert cur Hk.
  induction k as [|k IH]; intros cur Hk.
  - apply Hdone. lia.
  - apply Hstep; [lia|]. apply IH. lia.
Qed.

Lemma business_days_loop_acc holidays cur stop days :
  business_days_loop holidays cur stop days
  = days + business_days_loop holidays cur stop 0.
Proof.
  revert cur days.
  apply (business_days_loop_ind
           (λ cur days, business_days_loop holidays cur stop days
                        = days + business_days_loop holidays cur stop 0) stop).
  - intros cur Hle. rewrite business_days_loop_done by done. lia.
  - intros cur Hlt IH days. rewrite !(business_days_loop_step _ cur) by done.
    rewrite IH, (IH (if is_business_day holidays cur then 0 + 1 else 0)).
    destruct (is_business_day holidays cur); lia.
  - intros cur Hle days. rewrite !business_days_loop_done by done. lia.
Qed.

Lemma business_days_loop_split holidays cur mid stop :
  cur ≤ mid ≤ stop →
  business_days_loop holidays cur stop 0
  = business_days_loop holidays cur mid 0 + business_days_loop holidays mid stop 0.
Proof.
  intros [Hcm Hms]. remember (Z.to_nat (mid - cur)) as k eqn:Hk. revert cur Hcm Hk.
  induction k as [|k IH]; intros cur Hcm Hk.
  - assert (cur = mid) as -> by lia. rewrite (business_days_loop_done _ mid mid) by lia. lia.
  - rewrite (business_days_loop_step _ cur stop), (business_days_loop_step _ cur mid) by lia.
    rewrite (business_days_loop_acc _ _ stop), (business_days_loop_acc _ _ mid).
    rewrite (IH (cur + 1)) by lia. lia.
Qed.

Lemma business_days_loop_bounds holidays cur stop :
  0 ≤ business_days_loop holidays cur stop 0 ≤ Z.max 0 (stop - cur).
Proof.
  remember (Z.to_nat (stop - cur)) as k eqn:Hk. revert cur Hk.
  induction k as [|k IH]; intros cur Hk.
  - rewrite business_days_loop_done by lia. lia.
  - rewrite business_days_loop_step, business_days_loop_acc by lia.
    specialize (IH (cur + 1)). destruct (is_business_day holidays cur); lia.
Qed.

Lemma business_days_loop_mono h h' cur stop :
  (∀ d, is_business_day h' d = true → is_business_day h d = true) →
  business_days_loop h' cur stop 0 ≤ business_days_loop h cur stop 0.
Proof.
  intros Hday. remember (Z.to_nat (stop - cur)) as k eqn:Hk. revert cur Hk.
  induction k as [|k IH]; intros cur Hk.
  - rewrite !business_days_loop_done by lia. lia.
  - rewrite !(business_days_loop_step _ cur) by lia.
    rewrite (business_days_loop_acc h), (business_days_loop_acc h').
    specialize (IH (cur + 1)). specialize (Hday cur).
    destruct (is_business_day h' cur), (is_business_day h cur); lia.
Qed.

(** The count is the count of the loop from the earlier to the later of
    the two dates. *)
Lemma business_days_between (a b : datetime) holidays :
  _business_days (Some a) (Some b) holidays
  = Some (business_days_loop holidays (Z.min (dt_ordinal a) (dt_ordinal b))
            (Z.max (dt_ordinal a) (dt_ordinal b)) 0).
Proof.
  destruct a as [oa ma], b as [ob mb]. unfold _business_days, datetime_ltb. simpl.
  destruct (ob <? oa) eqn:E1; simpl.
  { f_equal. f_equal; simpl; lia. }
  destruct (ob =? oa) eqn:E2; simpl.
  - assert (ob = oa) as -> by lia.
    destruct (mb <? ma); f_equal; f_equal; simpl; lia.
  - f_equal. f_equal; simpl; lia.
Qed.

Lemma week_of_weekdays cur :
  business_days_loop None cur (cur + 7) 0 = 5.
Proof.
  do 7 (rewrite business_days_loop_step by lia;
        rewrite (is_business_day_no_holidays None) by (by left)).
  rewrite business_days_loop_done by lia.
  unfold weekday.
  assert (0 ≤ (cur + 6) mod 7 < 7) as Hw by (apply Z.mod_pos_bound; lia).
  assert ((cur + 1 + 6) mod 7 = ((cur + 6) mod 7 + 1) mod 7) as ->
    by (rewrite Zplus_mod_idemp_l; f_equal; lia).
  assert ((cur + 1 + 1 + 6) mod 7 = ((cur + 6) mod 7 + 2) mod 7) as ->
    by (rewrite Zplus_mod_idemp_l; f_equal; lia).
  assert ((cur + 1 + 1 + 1 + 6) mod 7 = ((cur + 6) mod 7 + 3) mod 7) as ->
    by (rewrite Zplus_mod_idemp_l; f_equal; lia).
  assert ((cur + 1 + 1 + 1 + 1 + 6) mod 7 = ((cur + 6) mod 7 + 4) mod 7) as ->
    by (rewrite Zplus_mod_idemp_l; f_equal; lia).
  assert ((cur + 1 + 1 + 1 + 1 + 1 + 6) mod 7 = ((cur + 6) mod 7 + 5) mod 7) as ->
    by (rewrite Zplus_mod_idemp_l; f_equal; lia).
  assert ((cur + 1 + 1 + 1 + 1 + 1 + 1 + 6) mod 7 = ((cur + 6) mod 7 + 6) mod 7) as ->
    by (rewrite Zplus_mod_idemp_l; f_equal; lia).
  set (w := (cur + 6) mod 7) in *.
  assert (w = 0 ∨ w = 1 ∨ w = 2 ∨ w = 3 ∨ w = 4 ∨ w = 5 ∨ w = 6)
    as [->|[->|[->|[->|[->|[->| ->]]]]]] by lia; reflexivity.
Qed.

Lemma weeks_of_weekdays cur (k : nat) :
  business_days_loop None cur (cur + 7 * Z.of_nat k) 0 = 5 * Z.of_nat k.
Proof.
  revert cur. induction k as [|k IH]; intros cur.
  - rewrite business_days_loop_done by lia. lia.
  - rewrite (business_days_loop_split _ cur (cur + 7)) by lia.
    rewrite week_of_weekdays.
    replace (cur + 7 * Z.of_nat (S k)) with (cur + 7 + 7 * Z.of_nat k) by lia.
    rewrite IH. lia.
Qed.

Lemma business_days_loop_no_holidays cur stop days :
  business_days_loop (Some ∅) cur stop days = business_days_loop None cur stop days.
Proof.
  revert cur days.
  apply (business_days_loop_ind
           (λ cur days, business_days_loop (Some ∅) cur stop days
                        = business_days_loop None cur stop days) stop).
  - intros cur Hle. by rewrite !business_days_loop_done.
  - intros cur Hlt IH days. rewrite !(business_days_loop_step _ cur) by done.
    rewrite !is_business_day_no_holidays by auto. apply IH.
  - intros cur Hle days. by rewrite !business_days_loop_done.
Qed.

(** X5. [_business_days] returns [None] exactly when a date is missing, and
    otherwise depends on the two calendar dates only: the times of day do not
    matter, and two datetimes of the same day are 0 business days apart. *)
Theorem business_days_uses_dates_only :
  (∀ d1 d2 holidays, _business_days d1 d2 holidays = None ↔ d1 = None ∨ d2 = None)
  ∧ (∀ a b a' b' holidays,
       dt_ordinal a = dt_ordinal a' → dt_ordinal b = dt_ordinal b' →
       _business_days (Some a) (Some b) holidays
       = _business_days (Some a') (Some b') holidays)
  ∧ (∀ a b holidays,
       dt_ordinal a = dt_ordinal b →
       _business_days (Some a) (Some b) holidays = Some 0).
Proof.
  split_and!.
  - intros [a|] [b|] holidays; try rewrite business_days_between; naive_solver.
  - intros a b a' b' holidays Ha Hb. by rewrite !business_days_between, Ha, Hb.
  - intros a b holidays Hab. rewrite business_days_between, Hab.
    by rewrite business_days_loop_done by lia.
Qed.

(** X6. The count is never negative and never more than the number of
    calendar days between the two dates. *)
Theorem business_days_bounds (a b : datetime) holidays n :
  _business_days (Some a) (Some b) holidays = Some n →
  0 ≤ n ≤ Z.abs (dt_ordinal b - dt_ordinal a).
Proof.
  rewrite business_days_between. intros [= <-].
  pose proof (business_days_loop_bounds holidays
                (Z.min (dt_ordinal a) (dt_ordinal b))
                (Z.max (dt_ordinal a) (dt_ordinal b))). lia.
Qed.

(** X7. The count adds up over consecutive intervals: for three dates in
    calendar order, the business days from the first to the last are those
    from the first to the second plus those from the second to the last. *)
Theorem business_days_additive (a b c : datetime) holidays :
  dt_ordinal a ≤ dt_ordinal b → dt_ordinal b ≤ dt_ordinal c →
  ∃ n1 n2,
    _business_days (Some a) (Some b) holidays = Some n1
    ∧ _business_days (Some b) (Some c) holidays = Some n2
    ∧ _business_days (Some a) (Some c) holidays = Some (n1 + n2).
Proof.
  intros Hab Hbc. rewrite !business_days_between. eexists _, _.
  split; [done|]. split; [done|]. f_equal.
  rewrite !Z.min_l, !Z.max_r by lia. apply business_days_loop_split. lia.
Qed.

(** X8. With no holidays, from any date to the date [k] weeks later there
    are [5 k] business days, on whatever day of the week the interval
    starts. *)
Theorem business_days_whole_weeks (a b : datetime) holidays k :
  holidays = None ∨ holidays = Some ∅ →
  0 ≤ k → dt_ordinal b = dt_ordinal a + 7 * k →
  _business_days (Some a) (Some b) holidays = Some (5 * k).
Proof.
  intros Hh Hk Hb. rewrite business_days_between. f_equal.
  rewrite Z.min_l, Z.max_r, Hb by lia.
  assert (business_days_loop holidays (dt_ordinal a) (dt_ordinal a + 7 * k) 0
          = business_days_loop None (dt_ordinal a) (dt_ordinal a + 7 * k) 0) as ->
    by (destruct Hh as [-> | ->]; [done|apply business_days_loop_no_holidays]).
  pose proof (weeks_of_weekdays (dt_ordinal a) (Z.to_nat k)) as Hw.
  by rewrite Z2Nat.id in Hw.
Qed.

(** X9. Holidays only take days away: an empty holiday set counts as no
    holiday set at all, and a larger holiday set never gives a larger
    count. *)
Theorem business_days_holidays_monotone :
  (∀ d1 d2, _business_days d1 d2 (Some ∅) = _business_days d1 d2 None)
  ∧ (∀ (a b : datetime) (hs hs' : gset string),
       hs ⊆ hs' →
       ∃ n n',
         _business_days (Some a) (Some b) (Some hs) = Some n
         ∧ _business_days (Some a) (Some b) (Some hs') = Some n'
         ∧ n' ≤ n).
Proof.
  split.
  - intros [a|] [b|]; try done.
    by rewrite !business_days_between, business_days_loop_no_holidays.
  - intros a b hs hs' Hsub. rewrite !business_days_between. eexists _, _.
    split; [done|]. split; [done|]. apply business_days_loop_mono.
    intros d. unfold is_business_day.
    destruct (weekday d <? 5); [simpl|done].
    repeat case_bool_decide; simpl; try done; set_solver.
Qed.
End fecha_more.

(** ** The date-gap detector *)

Section gap_props.
Context `{PyRuntime}.
Import Repo FlagFecha.

(** X11. [run_flag_fecha_for_one] never writes the flag of the date gap: a
    run that returns has skipped, for want of a calendar row
    ("sin_calendario") or of one of the two dates ("fechas_incompletas"),
    and has left the store as it was; and a run for a licitacion whose
    calendar row has both dates raises, whatever the payload, because the
    statement of [_ensure_flag] is refused.  With a payload whose threshold
    and holidays are read without error (5 and none when it gives none), a
    licitacion with no calendar row, or with a date missing, is skipped with
    that reason. *)
Theorem gap_run_skips_or_raises s lid jo :
  (∀ s' r,
     run_flag_fecha_for_one s lid jo = Ok (s', r) →
     s' = s
     ∧ (r = GapSkipped "sin_calendario" ∧ calendar_row s lid = None
        ∨ r = GapSkipped "fechas_incompletas"
          ∧ ∃ row, calendar_row s lid = Some row
                   ∧ (cal_aceptacion_ofertas_ts row = None
                      ∨ cal_apertura_ofertas_ts row = None)))
  ∧ (∀ row a b,
       calendar_row s lid = Some row →
       cal_aceptacion_ofertas_ts row = Some a →
       cal_apertura_ofertas_ts row = Some b →
       ∃ e, run_flag_fecha_for_one s lid jo = Raise e)
  ∧ (∀ threshold holidays,
       py_int (default (JInt 5) (dict_get (default [] jo) "threshold")) = Ok threshold →
       py_set (default (JList []) (dict_get (default [] jo) "holidays")) = Ok holidays →
       (calendar_row s lid = None →
        run_flag_fecha_for_one s lid jo = Ok (s, GapSkipped "sin_calendario"))
       ∧ (∀ row,
            calendar_row s lid = Some row →
            cal_aceptacion_ofertas_ts row = None ∨ cal_apertura_ofertas_ts row = None →
            run_flag_fecha_for_one s lid jo = Ok (s, GapSkipped "fechas_incompletas")))
  ∧ (dict_get (default [] jo) "threshold" = None →
     dict_get (default [] jo) "holidays" = None →
     py_int (default (JInt 5) (dict_get (default [] jo) "threshold")) = Ok 5
     ∧ py_set (default (JList []) (dict_get (default [] jo) "holidays")) = Ok ∅).
Proof.
  unfold run_flag_fecha_for_one. split_and!.
  - intros s' r.
    destruct (py_int _) as [threshold|]; simpl; [|done].
    destruct (py_set _) as [holidays|]; simpl; [|done].
    destruct (calendar_row s lid) as [row|] eqn:Hrow.
    2:{ intros [= <- <-]. split; [done|]. by left. }
    destruct (_business_days _ _ _) as [dias|] eqn:Hd; [done|].
    intros [= <- <-]. split; [done|]. right. split; [done|]. exists row.
    split; [done|].
    destruct (cal_aceptacion_ofertas_ts row), (cal_apertura_ofertas_ts row); auto.
    by rewrite business_days_between in Hd.
  - intros row a b -> Ha Hb.
    destruct (py_int _) as [threshold|]; simpl; [|by eexists].
    destruct (py_set _) as [holidays|]; simpl; [|by eexists].
    rewrite Ha, Hb, business_days_between. by eexists.
  - intros threshold holidays -> ->. simpl. split.
    + by intros ->.
    + intros row -> Hmissing.
      by destruct Hmissing as [-> | ->]; [|destruct (cal_aceptacion_ofertas_ts row)].
  - by intros -> ->.
Qed.
End gap_props.

(** ** The price detector, continued *)

Section precio_more.
Context `{PyRuntime} `{Numpy}.
Import Repo FlagPrecio.








Lemma sort_by_key_sorted {A} (key : A → Z) (l : list A) :
  StronglySorted (λ a b, key a ≤ key b) (sort_by (λ a b, key a <? key b) l).
Proof.
  induction l as [|x l IH]; simpl; [constructor|].
  unfold sort_by in *. simpl. revert IH.
  generalize (foldr (insert_by (λ a b, key a <? key b)) [] l). clear l.
  intros l. induction 1 as [|y l Hs IH Hy]; simpl.
  - repeat constructor.
  - destruct (key y <? key x) eqn:E.
    + constructor; [done|]. rewrite insert_by_perm. constructor; [lia|done].
    + constructor; [by constructor|]. constructor; [lia|].
      eapply Forall_impl; [done|]. simpl. lia.
Qed.

Lemma StronglySorted_take {A} (R : A → A → Prop) (l : list A) k :
  StronglySorted R l → StronglySorted R (take k l).
Proof.
  intros Hs. rewrite <- (take_drop k l) in Hs.
  by apply StronglySorted_app_1_l in Hs.
Qed.

(** X13. The candidates [_fetch_candidate_headers] returns are licitaciones
    of the table other than the target, in ascending order of key and at
    most [MAX_CANDIDATES] of them; each has the modalidad of the target when
    the target has a non-empty one, and likewise the economic activity.  When
    fewer than [MAX_CANDIDATES] are returned, every licitacion that meets
    these conditions is among them. *)
Theorem candidate_headers_are_comparable s lid (target : Licitacion) :
  let cands := _fetch_candidate_headers s lid (Some target) in
  let comparable (c : Licitacion) :=
    lic_id c ≠ lid
    ∧ (opt_truthy (lic_modalidad target) = true →
       lic_modalidad c = lic_modalidad target)
    ∧ (opt_truthy (lic_act_econ target) = true →
       lic_act_econ c = lic_act_econ target) in
  (∀ c, c ∈ cands → c ∈ t_licitacion s ∧ comparable c)
  ∧ StronglySorted (λ a b, lic_id a ≤ lic_id b) cands
  ∧ (length cands ≤ MAX_CANDIDATES)%nat
  ∧ ((length cands < MAX_CANDIDATES)%nat →
     ∀ c, c ∈ t_licitacion s → comparable c → c ∈ cands).
Proof.
  simpl. unfold _fetch_candidate_headers. simpl.
  assert (∀ c : Licitacion,
            negb (lic_id c =? lid)
            && (if opt_truthy (lic_modalidad target)
                then bool_decide (lic_modalidad c = lic_modalidad target) else true)
            && (if opt_truthy (lic_act_econ target)
                then bool_decide (lic_act_econ c = lic_act_econ target) else true)
            = true ↔
               lic_id c ≠ lid
               ∧ (opt_truthy (lic_modalidad target) = true →
                  lic_modalidad c = lic_modalidad target)
               ∧ (opt_truthy (lic_act_econ target) = true →
                  lic_act_econ c = lic_act_econ target)) as Hkeep.
  { intros c.
    destruct (opt_truthy (lic_modalidad target)),
             (opt_truthy (lic_act_econ target)); simpl;
      rewrite ?andb_true_iff, ?negb_true_iff, ?bool_decide_eq_true, ?Z.eqb_neq;
      naive_solver. }
  split_and!.
  - intros c Hc%subseteq_take. apply elem_of_sort_by, list_elem_of_filter in Hc as [Hk Hc].
    split; [done|]. by apply Hkeep.
  - apply StronglySorted_take, sort_by_key_sorted.
  - rewrite length_take. lia.
  - intros Hlen c Hc Hcomp. rewrite take_ge.
    + apply elem_of_sort_by, list_elem_of_filter. split; [|done]. by apply Hkeep.
    + rewrite length_take in Hlen. lia.
Qed.

Lemma score_candidates_elem penalty_estado t_vec t_meta docvecs cands scored x :
  score_candidates penalty_estado t_vec t_meta docvecs cands = Ok scored →
  x ∈ scored →
  ∃ c, c ∈ cands ∧ x.1.1 = lic_id c ∧ x.2 = default PrimFloat.nan (lic_cuantia c).
Proof.
  revert scored. induction cands as [|c cands IH]; intros scored; simpl.
  - by intros [= <-] ?%elem_of_nil.
  - destruct (snd <$> head _) as [c_vec|].
    + destruct (_cosine_distance t_vec c_vec) as [d|]; simpl; [|done].
      destruct (score_candidates _ _ _ _ cands) as [rest|]; simpl; [|done].
      intros [= <-] [->|Hx]%elem_of_cons.
      * exists c. split; [left|done].
      * destruct (IH rest eq_refl Hx) as (c' & ? & ?). exists c'. split; [by right|done].
    + intros Hrest Hx. destruct (IH scored Hrest Hx) as (c' & ? & ?).
      exists c'. split; [by right|done].
Qed.

Lemma elem_of_slice_to {A} (l : list A) k x : x ∈ slice_to l k → x ∈ l.
Proof. unfold slice_to. destruct (0 <=? k); apply subseteq_take. Qed.

Lemma length_slice_to {A} (l : list A) k :
  0 ≤ k → Z.of_nat (length (slice_to l k)) ≤ k.
Proof.
  intros Hk. unfold slice_to. rewrite (proj2 (Z.leb_le 0 k)) by done.
  rewrite length_take. lia.
Qed.

Lemma t_licitacion_ensure_flag s : t_licitacion (_ensure_flag s) = t_licitacion s.
Proof. unfold _ensure_flag, commit, upserted_flags. by case_bool_decide. Qed.

(** What a returning run reports about its neighbours *)
Lemma run_flag_precio_for_one_neighbors s lid top_k min_neighbors penalty_estado s' res :
  run_flag_precio_for_one s lid top_k min_neighbors penalty_estado = Ok (s', res) →
  licitacion_id res = lid
  ∧ target_cuantia res = get_licitacion s lid ≫= lic_cuantia
  ∧ n_comparables res = Z.of_nat (length (neighbor_ids res))
  ∧ (method res = "skip" ∧ neighbor_ids res = [] ∧ stats res = empty_stats
     ∨ method res = "chunks_mean_cos"
       ∧ (stats res = empty_stats ∧ n_comparables res < min_neighbors
          ∨ (n (stats res) = n_comparables res
             ∧ ∃ values,
                 stats res
                 = _robust_stats values (default PrimFloat.nan (target_cuantia res))
                 ∧ Forall2 (λ id x,
                      PrimFloat.is_nan x = false
                      ∧ ∃ c, c ∈ t_licitacion s ∧ lic_id c = id
                             ∧ lic_cuantia c = Some x)
                     (neighbor_ids res) values)
            ∧ ¬ n_comparables res < min_neighbors))
  ∧ (0 ≤ Z.max top_k min_neighbors → n_comparables res ≤ Z.max top_k min_neighbors)
  ∧ (∀ id, id ∈ neighbor_ids res →
       id ≠ lid
       ∧ ∃ c x, c ∈ t_licitacion s ∧ lic_id c = id ∧ lic_cuantia c = Some x
                ∧ PrimFloat.is_nan x = false).
Proof.
  unfold run_flag_precio_for_one.
  destruct (get_licitacion s lid) as [target|] eqn:Hget; [|done].
  assert (_fetch_target_meta (_ensure_flag s) lid ≫= lic_cuantia
          = Some target ≫= lic_cuantia) as Hmeta.
  { unfold _fetch_target_meta. rewrite t_licitacion_ensure_flag.
    unfold get_licitacion in Hget. by rewrite Hget. }
  destruct (_fetch_target_docvec _ _) as [[t_vec|]|]; simpl; [| |done].
  - destruct (_fetch_candidate_chunks_docvecs _ _) as [docvecs|]; simpl; [|done].
    destruct (score_candidates _ _ _ _ _) as [[|sc scored]|] eqn:Hscored;
      simpl; [| |done].
    + destruct (set_flag_for_licitacion _ _ _ _ _ _ _ _) as [[s1 fli]|];
        simpl; [|done].
      intros [= <- <-]. simpl. split_and!; try done; [by left|].
      by intros id ?%elem_of_nil.
    + set (kept := filter _ (slice_to _ _)).
      assert (∀ x, x ∈ kept →
                x.1.1 ≠ lid
                ∧ ∃ c, c ∈ t_licitacion s ∧ lic_id c = x.1.1
                       ∧ lic_cuantia c = Some x.2 ∧ PrimFloat.is_nan x.2 = false)
        as Hkept.
      { intros x [Hnan Hx%elem_of_slice_to]%list_elem_of_filter.
        rewrite insert_by_perm, sort_by_perm in Hx.
        destruct (score_candidates_elem _ _ _ _ _ _ x Hscored Hx) as (c & Hc & Hid & Hv).
        pose proof (candidate_headers_are_comparable (_ensure_flag s) lid) as Hcand.
        unfold _fetch_target_meta in Hc.
        destruct (head (filter _ (t_licitacion (_ensure_flag s)))) as [t|] eqn:Ht.
        - destruct (Hcand t) as (Hin & _). destruct (Hin c Hc) as (Hc' & Hne & _).
          rewrite t_licitacion_ensure_flag in Hc'. split; [by rewrite Hid|].
          rewrite Hv in Hnan |- *. destruct (lic_cuantia c) as [v|] eqn:Hcv; [|done].
          exists c. by rewrite Hid.
        - rewrite t_licitacion_ensure_flag in Ht. unfold get_licitacion in Hget.
          by rewrite Hget in Ht. }
      assert (0 ≤ Z.max top_k min_neighbors →
              Z.of_nat (length kept) ≤ Z.max top_k min_neighbors) as Hlen.
      { intros Hk. subst kept.
        match goal with
        | |- Z.of_nat (length (filter ?P (slice_to ?l ?k))) ≤ _ =>
            pose proof (length_slice_to l k Hk);
            pose proof (length_filter P (slice_to l k))
        end. lia. }
      case_match eqn:Hfew.
      * destruct (set_flag_for_licitacion _ _ _ _ _ _ _ _) as [[s1 fli]|];
          simpl; [|done].
        intros [= <- <-]. simpl. rewrite !length_fmap in *.
        split_and!; try done.
        -- right. split; [done|]. left. split; [done|]. lia.
        -- intros id (x & -> & Hx)%list_elem_of_fmap.
           destruct (Hkept x Hx) as (? & c & ? & ? & ? & ?). eauto 10.
      * destruct (set_flag_for_licitacion _ _ _ _ _ _ _ _) as [[s1 fli]|];
          simpl; [|done].
        intros [= <- <-]. simpl. rewrite !length_fmap in *.
        split_and!; try done.
        -- right. split; [done|]. right. split; [|lia]. split; [done|].
           eexists. split; [by rewrite Hmeta|].
           apply Forall2_fmap, Forall_Forall2_diag, Forall_forall.
           intros x Hx. destruct (Hkept x Hx) as (? & c & ? & ? & ? & ?). eauto.
        -- intros id (x & -> & Hx)%list_elem_of_fmap.
           destruct (Hkept x Hx) as (? & c & ? & ? & ? & ?). eauto 10.
  - destruct (set_flag_for_licitacion _ _ _ _ _ _ _ _) as [[s1 fli]|];
      simpl; [|done].
    intros [= <- <-]. simpl. split_and!; try done; [by left|].
    by intros id ?%elem_of_nil.
Qed.

(** X14. The neighbours a returning run of the price detector reports never
    include the target itself; each is the key of a licitacion of the table
    that has a value (cuantia), not NaN; and [n_comparables] is how many
    they are. *)
Theorem price_neighbors_exclude_target s lid top_k min_neighbors penalty_estado s' res :
  run_flag_precio_for_one s lid top_k min_neighbors penalty_estado = Ok (s', res) →
  (lid ∉ neighbor_ids res)
  ∧ n_comparables res = Z.of_nat (length (neighbor_ids res))
  ∧ ∀ id, id ∈ neighbor_ids res →
          ∃ c x, c ∈ t_licitacion s ∧ lic_id c = id ∧ lic_cuantia c = Some x
                 ∧ PrimFloat.is_nan x = false.
Proof.
  intros (_ & _ & Hn & _ & _ & Hids)%run_flag_precio_for_one_neighbors.
  split_and!; [|done|].
  - intros Hin. by destruct (Hids lid Hin).
  - intros id Hin. by destruct (Hids id Hin).
Qed.

(** X15. The shape of the result of a returning run of the price detector:
    it is for the licitacion asked for, with the value the table holds for
    it; its method is "skip", with no neighbour and all-zero statistics, or
    "chunks_mean_cos", with all-zero statistics when the neighbours with a
    value are fewer than [min_neighbors], and otherwise with the statistics
    [_robust_stats] computes, for the target's value, of the values of
    exactly the neighbours listed, in their order, each the value the table
    holds for that neighbour; and it never reports more neighbours than the
    larger of [top_k] and [min_neighbors], when that is not negative. *)
Theorem price_result_shape s lid top_k min_neighbors penalty_estado s' res :
  run_flag_precio_for_one s lid top_k min_neighbors penalty_estado = Ok (s', res) →
  licitacion_id res = lid
  ∧ target_cuantia res = get_licitacion s lid ≫= lic_cuantia
  ∧ (method res = "skip" ∧ n_comparables res = 0 ∧ neighbor_ids res = []
     ∧ stats res = empty_stats
     ∨ method res = "chunks_mean_cos"
       ∧ (stats res = empty_stats ∧ n_comparables res < min_neighbors
          ∨ n (stats res) = n_comparables res ∧ min_neighbors ≤ n_comparables res
            ∧ ∃ values,
                stats res
                = _robust_stats values (default PrimFloat.nan (target_cuantia res))
                ∧ Forall2 (λ id x,
                     PrimFloat.is_nan x = false
                     ∧ ∃ c, c ∈ t_licitacion s ∧ lic_id c = id
                            ∧ lic_cuantia c = Some x)
                    (neighbor_ids res) values))
  ∧ (0 ≤ Z.max top_k min_neighbors → n_comparables res ≤ Z.max top_k min_neighbors).
Proof.
  intros (Hid & Ht & Hn & Hcase & Hmax & _)%run_flag_precio_for_one_neighbors.
  split_and!; try done.
  destruct Hcase as [(Hm & Hnb & Hst)|(Hm & Hcase)].
  - left. rewrite Hn, Hnb. done.
  - right. split; [done|]. destruct Hcase as [[? ?]|[[? Hvalues] ?]]; [by left|right].
    split; [done|]. split; [lia|done].
Qed.
End precio_more.

(** ** The contact graph, continued *)

Section graph_more.
Context `{Countable K}.
Import RedContactos.
Implicit Types (adj : gmap K (list K)) (seen : gset K) (q : list (K * list K)).

Lemma is_walk_snoc adj p x y :
  is_walk adj p → last p = Some x → y ∈ default [] (adj !! x) →
  is_walk adj (p ++ [y]).
Proof.
  induction p as [|a [|b r] IH]; simpl.
  - done.
  - by intros _ [= ->] Hy.
  - intros [Hb Hw] Hl Hy. split; [done|]. by apply IH.
Qed.

Lemma is_path_snoc adj src node path nb seen :
  entry_ok adj src seen (node, path) → nb ∈ default [] (adj !! node) → nb ∉ seen →
  is_path adj src nb (path ++ [nb]).
Proof.
  intros [(Hh & Hl & Hw & Hnd) Hseen] Hnb Hnew. simpl in *. split_and!.
  - apply head_Some in Hh as (l' & ->). done.
  - apply last_snoc.
  - by eapply is_walk_snoc.
  - apply NoDup_app. split; [done|]. split; [|apply NoDup_singleton].
    intros x Hx ->%list_elem_of_singleton. by apply Hnew, Hseen.
Qed.

Lemma entry_ok_mono adj src seen seen' e :
  seen ⊆ seen' → entry_ok adj src seen e → entry_ok adj src seen' e.
Proof. intros Hsub [Hp Hs]. split; [done|]. set_solver. Qed.

Lemma visit_paths adj src dst max_depth node path nbs seen q :
  entry_ok adj src seen (node, path) →
  (∀ nb, nb ∈ nbs → nb ∈ default [] (adj !! node)) →
  Forall (entry_ok adj src seen) q →
  Forall (entry_ok adj src (visit dst max_depth path nbs seen q).1.2)
    (visit dst max_depth path nbs seen q).2
  ∧ ∀ p, (visit dst max_depth path nbs seen q).1.1 = Some p → is_path adj src dst p.
Proof.
  revert seen q. induction nbs as [|nb nbs IH]; intros seen q He Hnbs Hq; simpl.
  { by split. }
  assert (∀ nb', nb' ∈ nbs → nb' ∈ default [] (adj !! node)) as Hnbs'
    by (intros; apply Hnbs; by right).
  destruct (decide (nb ∈ seen)) as [|Hnew]; [by apply IH|].
  destruct (decide (nb = dst)) as [->|]; simpl.
  { split; [done|]. intros p [= <-]. eapply is_path_snoc; [done| |done].
    apply Hnbs. left. }
  destruct (_ <=? _); [|by apply IH].
  assert (seen ⊆ {[nb]} ∪ seen) as Hsub by set_solver.
  apply IH; [by eapply entry_ok_mono|done|].
  apply Forall_app. split.
  - eapply Forall_impl; [done|]. intros e. by apply entry_ok_mono.
  - constructor; [|done]. split; simpl.
    + eapply is_path_snoc; [done| |done]. apply Hnbs. left.
    + intros x [Hx| ->%list_elem_of_singleton]%elem_of_app; [|set_solver].
      destruct He as [_ Hs]. simpl in Hs. set_solver.
Qed.

Lemma bfs_paths adj src dst max_depth seen q p :
  Forall (entry_ok adj src seen) q → bfs adj dst max_depth seen q = Some p →
  is_path adj src dst p.
Proof.
  funelim (bfs adj dst max_depth seen q); intros Hq; simp bfs; [done|].
  apply Forall_cons in Hq as [He Hq].
  pose proof (visit_paths adj src dst max_depth node path (default [] (adj !! node))
                seen q' He (λ _ Hnb, Hnb) Hq) as [Hq' Hfound].
  destruct ((visit dst max_depth path (default [] (adj !! node)) seen q').1.1)
    as [newp|] eqn:Hv.
  - intros [= <-]. by apply Hfound.
  - eauto.
Qed.

Lemma visit_finds dst max_depth path nbs seen q :
  dst ∈ nbs → dst ∉ seen →
  (visit dst max_depth path nbs seen q).1.1 = Some (path ++ [dst]).
Proof.
  revert seen q. induction nbs as [|nb nbs IH]; intros seen q Hin Hnew; simpl.
  { by apply elem_of_nil in Hin. }
  destruct (decide (nb ∈ seen)) as [Hseen|Hnb].
  { apply IH; [|done]. apply elem_of_cons in Hin as [->|]; done. }
  destruct (decide (nb = dst)) as [->|Hne]; [done|].
  apply elem_of_cons in Hin as [->|Hin]; [done|].
  destruct (_ <=? _); apply IH; set_solver.
Qed.

(** X16. Whatever [shortest_path] returns is a path of the graph from [src]
    to [dst]: it starts at [src], ends at [dst], every step goes to a node of
    the adjacency set of the node before it, and no node occurs twice; it
    has at least one hop, and at most [max_depth + 1] hops. *)
Theorem shortest_path_is_a_path adj src dst max_depth p :
  shortest_path adj src dst max_depth = Some p →
  is_path adj src dst p
  ∧ 1 ≤ Z.of_nat (length p) - 1
  ∧ (0 ≤ max_depth → Z.of_nat (length p) - 1 ≤ max_depth + 1).
Proof.
  intros Hp. assert (is_path adj src dst p ∧ src ≠ dst) as [Hpath Hne].
  { unfold shortest_path in Hp. case_bool_decide as Hsd; [done|].
    destruct (_ || _); [done|]. split; [|done].
    eapply bfs_paths; [|done]. constructor; [|done]. split; simpl.
    - split_and!; try done. apply NoDup_singleton.
    - set_solver. }
  split; [done|]. split.
  - destruct Hpath as (Hh & Hl & _). destruct p as [|a [|b r]]; simpl in *; [done| |lia].
    congruence.
  - intros Hd. by eapply shortest_path_depth.
Qed.

(** X17. A direct connection is always found: when [dst] is in the adjacency
    set of [src], is a key of the adjacency and is not [src], [shortest_path]
    returns the one-hop path from [src] to [dst], whatever [max_depth] is and
    in whatever order the set is visited. *)
Theorem direct_connection_is_found adj src dst max_depth :
  src ≠ dst → dst ∈ default [] (adj !! src) → is_Some (adj !! dst) →
  shortest_path adj src dst max_depth = Some [src; dst].
Proof.
  intros Hne Hnb [l Hdst]. unfold shortest_path.
  rewrite bool_decide_eq_false_2 by done.
  rewrite (bool_decide_eq_false_2 (adj !! src = None)).
  2:{ intros Hnone. rewrite Hnone in Hnb. by apply elem_of_nil in Hnb. }
  rewrite (bool_decide_eq_false_2 (adj !! dst = None)) by (by rewrite Hdst).
  simpl. simp bfs.
  rewrite (visit_finds dst max_depth [src] _ {[src]} []); [done|done|set_solver].
Qed.

Lemma elem_of_add_edge adj a b c x :
  x ∈ default [] (add_edge adj a b !! c)
  ↔ x ∈ default [] (adj !! c) ∨ (c = a ∧ x = b).
Proof.
  unfold add_edge. destruct (decide (a = c)) as [->|Hne].
  - rewrite lookup_insert_eq. simpl.
    destruct (decide (b ∈ default [] (adj !! c))); [naive_solver|].
    rewrite elem_of_app, list_elem_of_singleton. naive_solver.
  - rewrite lookup_insert_ne by done. naive_solver.
Qed.

Lemma is_Some_add_edge adj a b c :
  is_Some (add_edge adj a b !! c) ↔ is_Some (adj !! c) ∨ c = a.
Proof.
  unfold add_edge. destruct (decide (a = c)) as [->|Hne].
  - rewrite lookup_insert_eq. split; [by right|by eexists].
  - rewrite lookup_insert_ne by done. naive_solver.
Qed.

Lemma connect_undirected adj a b :
  undirected adj → a ≠ b → undirected (add_edge (add_edge adj a b) b a).
Proof.
  intros Hadj Hne c x. rewrite !elem_of_add_edge, !is_Some_add_edge.
  intros [[Hx|[-> ->]]|[-> ->]].
  - destruct (Hadj c x Hx) as (? & ? & ? & ?). naive_solver.
  - naive_solver.
  - naive_solver.
Qed.

Lemma hops_snoc (p : list K) x : hops (p ++ [x]) = hops p + 1.
Proof. unfold hops. rewrite length_app. simpl. lia. Qed.

Lemma walk_to_nonneg adj src v p : walk_to adj src v p → 0 ≤ hops p.
Proof. intros (_ & Hh & _). destruct p; [done|]. unfold hops. simpl. lia. Qed.

Lemma walk_to_snoc adj src w p nb :
  walk_to adj src w p → nb ∈ default [] (adj !! w) → walk_to adj src nb (p ++ [nb]).
Proof.
  intros (Hw & Hh & Hl) Hnb. split_and!.
  - by eapply is_walk_snoc.
  - apply head_Some in Hh as (l' & ->). done.
  - apply last_snoc.
Qed.

Lemma is_walk_snoc_inv adj p u :
  is_walk adj (p ++ [u]) → p ≠ [] →
  is_walk adj p ∧ ∃ w, last p = Some w ∧ u ∈ default [] (adj !! w).
Proof.
  induction p as [|a [|b r] IH]; simpl.
  - done.
  - intros [Hu _] _. split; [done|]. by exists a.
  - intros [Hb Hw] _. destruct (IH Hw) as [Hw' (w & Hl & Hu)]; [done|].
    split; [done|]. by exists w.
Qed.

(** A walk is one node, [src], or a walk to a node before its last *)
Lemma walk_to_inv adj src u p :
  walk_to adj src u p →
  (p = [src] ∧ u = src)
  ∨ ∃ p0 w, p = p0 ++ [u] ∧ walk_to adj src w p0 ∧ u ∈ default [] (adj !! w).
Proof.
  intros (Hw & Hh & Hl). apply last_Some in Hl as (p0 & ->).
  destruct p0 as [|a p0].
  - left. simpl in Hh. by injection Hh as ->.
  - right. destruct (is_walk_snoc_inv adj (a :: p0) u Hw) as [Hw' (w & Hl & Hu)]; [done|].
    exists (a :: p0), w. by split_and!.
Qed.

Lemma entry_min_mono adj src max_depth seen seen' e :
  seen ⊆ seen' → entry_min adj src max_depth seen e → entry_min adj src max_depth seen' e.
Proof. intros Hsub (? & ? & ? & ?). split_and!; try done. set_solver. Qed.

Lemma closed_mono adj src dst max_depth seen seen' w :
  seen ⊆ seen' → closed adj src dst max_depth seen w → closed adj src dst max_depth seen' w.
Proof.
  intros Hsub Hc nb Hnb.
  destruct (Hc nb Hnb) as [? [?|?]]; (split; [done|]); [left; set_solver|by right].
Qed.

Lemma visit_keeps_inv adj src dst max_depth node path nbs visited seen q :
  visit_inv adj src dst max_depth node path visited seen q →
  (∀ nb, nb ∈ nbs → nb ∈ default [] (adj !! node)) →
  match (visit dst max_depth path nbs seen q).1.1 with
  | Some p => p = path ++ [dst] ∧ dst ∈ default [] (adj !! node)
  | None =>
      visit_inv adj src dst max_depth node path (visited ++ nbs)
        (visit dst max_depth path nbs seen q).1.2
        (visit dst max_depth path nbs seen q).2
  end.
Proof.
  revert visited seen q. induction nbs as [|nb nbs IH]; intros visited seen q Hinv Hnbs.
  { simpl. by rewrite app_nil_r. }
  assert (∀ nb', nb' ∈ nbs → nb' ∈ default [] (adj !! node)) as Hnbs'
    by (intros; apply Hnbs; by right).
  assert (nb ∈ default [] (adj !! node)) as Hnb by (apply Hnbs; left).
  replace (visited ++ nb :: nbs) with ((visited ++ [nb]) ++ nbs)
    by (by rewrite <- app_assoc).
  destruct Hinv as (Hsrc & Hdst & Hnd & Hnode & Hq & Hsorted & Hrange & Hclosed
                    & Hvisited & Hlevel).
  simpl. destruct (decide (nb ∈ seen)) as [Hseen|Hnew].
  { apply IH; [|done]. split_and!; try done.
    intros nb' [?| ->%list_elem_of_singleton]%elem_of_app; [auto|].
    split; [by intros ->|by left]. }
  destruct (decide (nb = dst)) as [->|Hne]; [done|].
  destruct (Z.of_nat (length (path ++ [nb])) - 1 <=? max_depth) eqn:Hdepth.
  - assert (seen ⊆ {[nb]} ∪ seen) as Hsub by set_solver.
    destruct Hnode as (Hwalk & Hin & Hmax & Hmin).
    apply IH; [|done]. split_and!.
    + set_solver.
    + set_solver.
    + rewrite fmap_app. simpl. apply NoDup_cons in Hnd as [Hn Hnd].
      apply NoDup_cons. split.
      * intros [?| ->%list_elem_of_singleton]%elem_of_app; done.
      * apply NoDup_app. split; [done|]. split; [|apply NoDup_singleton].
        intros x (e & Hx & He)%list_elem_of_fmap Hnb'%list_elem_of_singleton.
        subst. rewrite Forall_forall in Hq. by destruct (Hq e He) as (_ & ? & _).
    + split_and!; try done. set_solver.
    + apply Forall_app. split.
      * eapply Forall_impl; [exact Hq|]. intros e. by apply entry_min_mono.
      * constructor; [|done]. split_and!; simpl.
        -- by eapply walk_to_snoc.
        -- set_solver.
        -- unfold hops. lia.
        -- intros p' Hp'. rewrite hops_snoc.
           destruct (decide (hops p' ≤ hops path)) as [Hle|]; [|lia].
           exfalso. by apply Hnew, (Hlevel p').
    + apply StronglySorted_app. split_and!; [|done|repeat constructor].
      intros e1 e2 He1 ->%list_elem_of_singleton.
      rewrite Forall_forall in Hrange. specialize (Hrange e1 He1).
      unfold by_hops in *. simpl in *. rewrite hops_snoc. lia.
    + apply Forall_app. split; [done|]. constructor; [|done].
      unfold by_hops. simpl. rewrite hops_snoc. lia.
    + intros w Hw Hnot. apply (closed_mono _ _ _ _ seen); [done|].
      rewrite fmap_app in Hnot. simpl in Hnot.
      apply Hclosed; [|set_solver].
      apply elem_of_union in Hw as [->%elem_of_singleton|]; [|done].
      exfalso. apply Hnot. set_solver.
    + intros nb' [Hv| ->%list_elem_of_singleton]%elem_of_app.
      * destruct (Hvisited nb' Hv) as [? [?|?]]; (split; [done|]);
          [left; set_solver|by right].
      * split; [done|]. left. set_solver.
    + intros p' u Hp' Hle. apply Hsub. by eapply Hlevel.
  - apply IH; [|done]. split_and!; try done.
    intros nb' [?| ->%list_elem_of_singleton]%elem_of_app; [auto|].
    split; [done|]. right. unfold hops.
    rewrite length_app in Hdepth. simpl in Hdepth. apply Z.leb_gt in Hdepth. lia.
Qed.

Lemma visit_inv_start adj src dst max_depth node path seen q :
  bfs_inv adj src dst max_depth seen ((node, path) :: q) →
  visit_inv adj src dst max_depth node path [] seen q.
Proof.
  intros (Hsrc & Hdst & Hnd & Hq & Hsorted & Hclosed & Hlevel).
  apply Forall_cons in Hq as [Hnode Hq].
  apply StronglySorted_inv in Hsorted as [Hsorted Hrange].
  split_and!; try done.
  - by intros nb ?%elem_of_nil.
  - intros p' u. by apply (Hlevel (node, path)).
Qed.

Lemma visit_inv_done adj src dst max_depth node path seen q :
  visit_inv adj src dst max_depth node path (default [] (adj !! node)) seen q →
  bfs_inv adj src dst max_depth seen q.
Proof.
  intros (Hsrc & Hdst & Hnd & Hnode & Hq & Hsorted & Hrange & Hclosed
          & Hvisited & Hlevel).
  apply NoDup_cons in Hnd as [Hn Hnd].
  assert (∀ w, w ∈ seen → w ∉ fst <$> q → closed adj src dst max_depth seen w)
    as Hclosed'.
  { intros w Hw Hnot. destruct (decide (w = node)) as [->|Hne].
    - intros nb Hnb. destruct (Hvisited nb Hnb) as [? [?|?]]; split; auto.
      right. intros p' Hp'. destruct Hnode as (_ & _ & _ & Hmin).
      specialize (Hmin p' Hp'). simpl in Hmin. lia.
    - apply Hclosed; [done|]. set_solver. }
  split_and!; try done.
  intros e He p' u Hp' Hle.
  destruct (decide (hops p' ≤ hops path)) as [|Hgt]; [by eapply Hlevel|].
  destruct q as [|e0 q]; [done|]. injection He as ->.
  apply Forall_cons in Hrange as [Hrange _]. unfold by_hops in Hrange. simpl in Hrange.
  apply Forall_cons in Hq as [He Hq].
  destruct (walk_to_inv adj src u p' Hp') as [[-> ->]|(p0 & w & -> & Hp0 & Hu)]; [done|].
  rewrite hops_snoc in *.
  assert (w ∈ seen) as Hw by (apply (Hlevel p0); [done|lia]).
  assert (w ∉ fst <$> e :: q) as Hnot.
  { intros (e' & -> & He')%list_elem_of_fmap.
    assert (hops e.2 ≤ hops e'.2) as Hord.
    { apply elem_of_cons in He' as [->|He']; [lia|].
      apply StronglySorted_inv in Hsorted as [_ Hall].
      rewrite Forall_forall in Hall. by destruct (Hall e' He'). }
    assert (entry_min adj src max_depth seen e') as (_ & _ & _ & Hmin).
    { apply elem_of_cons in He' as [->|He']; [done|].
      rewrite Forall_forall in Hq. auto. }
    specialize (Hmin p0 Hp0). lia. }
  destruct (Hclosed' w Hw Hnot u Hu) as [_ [?|Hfar]]; [done|].
  specialize (Hfar p0 Hp0). destruct He as (_ & _ & ? & _). lia.
Qed.

Lemma bfs_shortest adj src dst max_depth seen q :
  bfs_inv adj src dst max_depth seen q →
  match bfs adj dst max_depth seen q with
  | Some p =>
      walk_to adj src dst p ∧ ∀ p', walk_to adj src dst p' → hops p ≤ hops p'
  | None => ∀ p', walk_to adj src dst p' → max_depth + 1 < hops p'
  end.
Proof.
  funelim (bfs adj dst max_depth seen q); intros Hinv; simp bfs.
  - destruct Hinv as (Hsrc & Hdst & _ & _ & _ & Hclosed & _).
    assert (∀ p' u, walk_to adj src u p' → hops p' ≤ max_depth → u ∈ seen) as Hall.
    { induction p' as [|x p' IH] using rev_ind; intros u Hp' Hle.
      { by destruct Hp' as (_ & ? & _). }
      destruct (walk_to_inv adj src u _ Hp') as [[_ ->]|(p0 & w & Heq & Hp0 & Hu)];
        [done|].
      apply app_inj_tail in Heq as [-> ->]. rewrite hops_snoc in Hle.
      assert (w ∈ seen) as Hw by (apply (IH w); [done|lia]).
      destruct (Hclosed w Hw ltac:(by intros ?%elem_of_nil) u Hu) as [_ [?|Hfar]];
        [done|].
      specialize (Hfar p0 Hp0). lia. }
    intros p' Hp'. destruct (decide (hops p' ≤ max_depth + 1)) as [Hle|]; [|lia].
    exfalso.
    destruct (walk_to_inv adj src dst _ Hp') as [[_ ->]|(p0 & w & -> & Hp0 & Hu)];
      [done|].
    rewrite hops_snoc in Hle.
    assert (w ∈ seen) as Hw by (apply (Hall p0); [done|lia]).
    by destruct (Hclosed w Hw ltac:(by intros ?%elem_of_nil) dst Hu) as [? _].
  - pose proof (visit_inv_start _ _ _ _ _ _ _ _ Hinv) as Hstart.
    pose proof (visit_keeps_inv adj src dst max_depth node path
                  (default [] (adj !! node)) [] seen q' Hstart (λ _ Hnb, Hnb)) as Hvisit.
    destruct ((visit dst max_depth path (default [] (adj !! node)) seen q').1.1)
      as [newp|] eqn:Hv.
    + destruct Hvisit as [-> Hedge].
      destruct Hstart as (_ & Hdst & _ & (Hwalk & _) & _ & _ & _ & _ & _ & Hlevel).
      split; [by eapply walk_to_snoc|].
      intros p' Hp'. rewrite hops_snoc.
      destruct (decide (hops p' ≤ hops path)) as [Hle|]; [|lia].
      exfalso. by apply Hdst, (Hlevel p').
    + simpl in Hvisit. apply visit_inv_done in Hvisit.
      match goal with IH : ∀ src, bfs_inv _ src _ _ _ _ → _ |- _ => by apply IH end.
Qed.

(** X18. With [max_depth] not negative, between two different keys of the
    adjacency [shortest_path] finds a walk with the fewest hops there are,
    whenever some walk from [src] to [dst] has [max_depth + 1] hops or fewer:
    no walk from [src] to [dst] has fewer hops than the path it returns, and
    when it returns [None] every walk from [src] to [dst] has more than
    [max_depth + 1] hops. *)
Theorem shortest_path_is_shortest adj src dst max_depth :
  0 ≤ max_depth → src ≠ dst → is_Some (adj !! src) → is_Some (adj !! dst) →
  match shortest_path adj src dst max_depth with
  | Some p =>
      walk_to adj src dst p ∧ ∀ p', walk_to adj src dst p' → hops p ≤ hops p'
  | None => ∀ p', walk_to adj src dst p' → max_depth + 1 < hops p'
  end.
Proof.
  intros Hdepth Hne [ls Hsrc] [ld Hdst]. unfold shortest_path.
  rewrite bool_decide_eq_false_2 by done.
  rewrite (bool_decide_eq_false_2 (adj !! src = None)) by (by rewrite Hsrc).
  rewrite (bool_decide_eq_false_2 (adj !! dst = None)) by (by rewrite Hdst).
  simpl. apply bfs_shortest. split_and!.
  - set_solver.
  - set_solver.
  - apply NoDup_singleton.
  - constructor; [|done]. split_and!; simpl.
    + by split_and!.
    + set_solver.
    + unfold hops. simpl. lia.
    + intros p' Hp'. apply walk_to_nonneg in Hp'. unfold hops in *. simpl. lia.
  - repeat constructor.
  - intros w ->%elem_of_singleton Hnot. exfalso. apply Hnot. simpl. left.
  - intros e [= <-] p' u Hp' Hle. simpl in Hle.
    destruct (walk_to_inv adj src u p' Hp') as [[_ ->]|(p0 & w & -> & Hp0 & _)];
      [set_solver|].
    apply walk_to_nonneg in Hp0. rewrite hops_snoc in Hle. unfold hops in Hle at 2.
    simpl in Hle. lia.
Qed.
End graph_more.

(** ** The contact detector, continued *)

Section detector_more.
Context `{PyRuntime}.
Import Repo RedContactos.

Lemma foldl_insert_keys {A B} (f : A → option string) (g : A → B) (l : list A)
    (m0 : gmap (option string) B) k :
  is_Some (foldl (λ m p, <[f p := g p]> m) m0 l !! k)
  ↔ is_Some (m0 !! k) ∨ ∃ p, p ∈ l ∧ f p = k.
Proof.
  revert m0. induction l as [|x l IH]; intros m0; simpl.
  - split; [by left|]. intros [?|(p & ?%elem_of_nil & _)]; done.
  - rewrite IH, lookup_insert_is_Some'. split.
    + intros [[Heq|?]|(p & ? & ?)]; [right|by left|right].
      * exists x. split; [left|done].
      * exists p. split; [by right|done].
    + intros [?|(p & [Heq|?]%elem_of_cons & ?)]; [by left; right| |].
      * left. left. by subst.
      * right. by exists p.
Qed.

Lemma foldl_insert_lookup {A} (f : A → option string) (l : list A)
    (m0 : gmap (option string) A) k v :
  foldl (λ m p, <[f p := p]> m) m0 l !! k = Some v →
  m0 !! k = Some v ∨ (v ∈ l ∧ f v = k).
Proof.
  revert m0. induction l as [|x l IH]; intros m0; simpl; [by left|].
  intros [Hm|[? ?]]%IH.
  - apply lookup_insert_Some in Hm as [[<- <-]|[_ ?]]; [right|by left].
    split; [left|done].
  - right. split; [by right|done].
Qed.

(** X19. The graph [build_graph] makes of the persons: every person's id
    is a key of the index and of the adjacency; the index maps an id to a
    person of the list with that id; and the adjacency is undirected: who
    has a neighbour is a neighbour of that neighbour, nobody is their own
    neighbour, and both ends of an edge are keys. *)
Theorem build_graph_is_undirected people by_id adj :
  build_graph people = (by_id, adj) →
  (∀ p, p ∈ people → is_Some (by_id !! p_id p) ∧ is_Some (adj !! p_id p))
  ∧ (∀ id p, by_id !! id = Some p → p ∈ people ∧ p_id p = id)
  ∧ undirected adj.
Proof.
  unfold build_graph. intros [= <- <-].
  set (adj0 := foldl (λ m p, <[p_id p := []]> m) ∅ people).
  match goal with
  | |- context [foldl ?f adj0 people] =>
      assert (undirected (foldl f adj0 people)
              ∧ ∀ k, is_Some (adj0 !! k) → is_Some (foldl f adj0 people !! k))
        as [Hund Hkeys]
  end.
  { apply (foldl_invariant
             (λ adj, undirected adj ∧ ∀ k, is_Some (adj0 !! k) → is_Some (adj !! k))).
    - split; [|done]. intros a b Hb. exfalso.
      assert (∀ l (m0 : gmap (option string) (list (option string))),
                (∀ k, default [] (m0 !! k) = []) →
                ∀ k, default [] (foldl (λ m p, <[p_id p := []]> m) m0 l !! k) = [])
        as Hempty.
      { induction l as [|x l IH]; intros m0 Hm0 k; simpl; [done|].
        apply IH. intros k'. destruct (decide (p_id x = k')) as [->|].
        - by rewrite lookup_insert_eq.
        - by rewrite lookup_insert_ne. }
      subst adj0. rewrite Hempty in Hb; [by apply elem_of_nil in Hb|].
      intros k. by rewrite lookup_empty.
    - intros adj p [Hadj Hk].
      apply (foldl_invariant
               (λ adj, undirected adj ∧ ∀ k, is_Some (adj0 !! k) → is_Some (adj !! k)));
        [done|].
      intros adj' c [Hadj' Hk']. case_match; [|done]. split.
      + apply connect_undirected; [done|].
        repeat match goal with
               | Hb : _ && _ = true |- _ => apply andb_true_iff in Hb as [? ?]
               end.
        intros Heq. rewrite <- Heq in *.
        by rewrite bool_decide_eq_true_2 in * by done.
      + intros k Hk0. rewrite !is_Some_add_edge. auto. }
  split_and!; [| |done].
  - intros p Hp. split.
    + apply foldl_insert_keys. right. by exists p.
    + apply Hkeys. subst adj0. apply foldl_insert_keys. right. by exists p.
  - intros id p [Hm|?]%foldl_insert_lookup; [by rewrite lookup_empty in Hm|done].
Qed.

Lemma elem_of_dict_fromkeys `{EqDecision A} (l : list A) x :
  x ∈ dict_fromkeys l ↔ x ∈ l.
Proof.
  induction l as [|y l IH]; simpl; [done|].
  rewrite !elem_of_cons, list_elem_of_filter, IH.
  destruct (decide (x = y)); naive_solver.
Qed.

Lemma dict_fromkeys_subseteq `{EqDecision A} (l : list A) x :
  x ∈ dict_fromkeys l → x ∈ l.
Proof. by rewrite elem_of_dict_fromkeys. Qed.

Lemma NoDup_dict_fromkeys `{EqDecision A} (l : list A) : NoDup (dict_fromkeys l).
Proof.
  induction l as [|y l IH]; simpl; [constructor|].
  constructor; [|by apply NoDup_filter].
  intros [? _]%list_elem_of_filter. done.
Qed.

Lemma rmap_elem {A B} (f : A → Result B) (xs : list A) (ys : list B) y :
  rmap f xs = Ok ys → y ∈ ys → ∃ x, x ∈ xs ∧ f x = Ok y.
Proof.
  revert ys. induction xs as [|x xs IH]; intros ys; simpl.
  - by intros [= <-] ?%elem_of_nil.
  - destruct (f x) as [y0|] eqn:Hx; simpl; [|done].
    destruct (rmap f xs) as [ys0|]; simpl; [|done].
    intros [= <-] [->|Hy]%elem_of_cons.
    + exists x. split; [left|done].
    + destruct (IH ys0 eq_refl Hy) as (x' & ? & ?). exists x'. split; [by right|done].
Qed.

Lemma length_rmap {A B} (f : A → Result B) (xs : list A) (ys : list B) :
  rmap f xs = Ok ys → length ys = length xs.
Proof.
  revert ys. induction xs as [|x xs IH]; intros ys; simpl.
  - by intros [= <-].
  - destruct (f x) as [y0|]; simpl; [|done].
    destruct (rmap f xs) as [ys0|]; simpl; [|done].
    intros [= <-]. simpl. f_equal. by apply IH.
Qed.

Lemma by_name_of_lookup people k v :
  by_name_of people !! k = Some v → ∃ p, p ∈ people ∧ p_id p = v.
Proof.
  unfold by_name_of.
  assert (∀ l (m0 : gmap (option string) (option string)),
            foldl (λ m p, if has_nombre p
                          then <[norm_name_str (p_nombre p) := p_id p]> m else m)
              m0 l !! k = Some v →
            m0 !! k = Some v ∨ ∃ p, p ∈ l ∧ p_id p = v) as Hfold.
  { induction l as [|x l IH]; intros m0; simpl; [by left|].
    intros [Hm|(p & ? & ?)]%IH.
    - destruct (has_nombre x).
      + apply lookup_insert_Some in Hm as [[_ <-]|[_ ?]]; [right|by left].
        exists x. split; [left|done].
      + by left.
    - right. exists p. split; [by right|done]. }
  intros [Hm|?]%Hfold; [by rewrite lookup_empty in Hm|done].
Qed.

(** X20. The officials and the contractors the detector picks are persons of
    the payload, each listed once: every id [pick_official_ids] or
    [pick_contractor_ids] returns is the id of a person of the list, no id is
    returned twice, and every person marked [es_contratista] is among the
    contractors.  With no approvers in the payload the officials are the
    persons marked public whose entity, normalised, is that of the
    licitacion. *)
Theorem picked_ids_are_persons people :
  (∀ lic_entidad aprobadores ids,
     pick_official_ids lic_entidad people aprobadores = Ok ids →
     NoDup ids
     ∧ (∀ id, id ∈ ids → ∃ p, p ∈ people ∧ p_id p = id)
     ∧ (truthy aprobadores = false →
        ∀ id, id ∈ ids ↔
              ∃ p, p ∈ people ∧ p_id p = id ∧ p_ent_publica p = Some true
                   ∧ norm_name_str (Some lic_entidad) ≠ None
                   ∧ norm_name_str (p_entidad p) = norm_name_str (Some lic_entidad)))
  ∧ (∀ json_override ids,
       pick_contractor_ids people json_override = Ok ids →
       NoDup ids
       ∧ (∀ id, id ∈ ids → ∃ p, p ∈ people ∧ p_id p = id)
       ∧ (∀ p, p ∈ people → p_es_contratista p = true → p_id p ∈ ids)).
Proof.
  split.
  - intros lic_entidad aprobadores ids. unfold pick_official_ids.
    destruct (py_iter _) as [aps|] eqn:Haps; simpl; [|done].
    destruct (rmap _ aps) as [picked|] eqn:Hpicked; simpl; [|done].
    intros [= <-]. split; [apply NoDup_dict_fromkeys|]. split.
    + intros id Hid%dict_fromkeys_subseteq.
      destruct (filter _ (omap _ (mjoin picked))) as [|m ms] eqn:Hmapped.
      * apply list_elem_of_fmap in Hid as (p & -> & [_ Hp]%list_elem_of_filter).
        by exists p.
      * rewrite <- Hmapped in Hid.
        apply list_elem_of_filter in Hid as [_ (n & _ & Hn)%list_elem_of_omap].
        destruct (by_name_of people !! _) as [v|] eqn:Hv; [|done].
        injection Hn as ->. by eapply by_name_of_lookup.
    + intros Hfalsy id.
      assert (aps = []) as ->.
      { unfold py_or in Haps. rewrite Hfalsy in Haps. by injection Haps as <-. }
      simpl in Hpicked. injection Hpicked as <-. simpl.
      rewrite elem_of_dict_fromkeys, list_elem_of_fmap. split.
      * intros (p & -> & [(? & ? & ?) Hp]%list_elem_of_filter). by exists p.
      * intros (p & Hp & <- & ? & ? & ?). exists p. split; [done|].
        by apply list_elem_of_filter.
  - intros json_override ids. unfold pick_contractor_ids.
    destruct (py_iter _) as [names|]; simpl; [|done].
    destruct (rmap _ names) as [extra|] eqn:Hextra; simpl; [|done].
    intros [= <-]. split; [apply NoDup_dict_fromkeys|]. split.
    + intros id [Hid|Hid]%dict_fromkeys_subseteq%elem_of_app.
      * apply list_elem_of_fmap in Hid as (p & -> & [_ Hp]%list_elem_of_filter).
        by exists p.
      * apply list_elem_of_join in Hid as (found & Hid & Hfound).
        destruct (rmap_elem _ _ _ _ Hextra Hfound) as (n & _ & Hn).
        destruct (_norm_name n) as [k|]; simpl in Hn; [|done].
        injection Hn as <-.
        destruct (id_truthy _) eqn:Htruthy; [|by apply elem_of_nil in Hid].
        apply list_elem_of_singleton in Hid as ->.
        destruct (by_name_of people !! k) as [v|] eqn:Hv; [|done].
        by eapply by_name_of_lookup.
    + intros p Hp Hc. apply elem_of_dict_fromkeys, elem_of_app. left.
      apply list_elem_of_fmap. exists p. split; [done|]. by apply list_elem_of_filter.
Qed.






(** What a run of the detector that evaluates the payload has done *)
Lemma run_red_contactos_inv s lid jo s' flag comment detail :
  run_red_contactos s lid jo = Ok (s', Evaluated flag comment detail) →
  ∃ lic people aprobadores by_id adj best best_score fli,
    get_licitacion s lid = Some lic
    ∧ detail_lic_entidad detail = lic_entidad lic
    ∧ payload_people jo people aprobadores
    ∧ people ≠ []
    ∧ build_graph people = (by_id, adj)
    ∧ pick_official_ids (lic_entidad lic) people aprobadores
      = Ok (detail_official_ids detail)
    ∧ pick_contractor_ids people jo = Ok (detail_contractor_ids detail)
    ∧ search_matches adj by_id (detail_official_ids detail)
        (detail_contractor_ids detail)
      = (detail_matches detail, best, best_score)
    ∧ flag = (if best is Some _ then true else false)
    ∧ set_flag_for_licitacion (upserted_flags s FLAG_CODE FLAG_NAME FLAG_DESC)
        lid FLAG_CODE flag (Some comment) (Some "pipeline.redcontactos(json-v2)")
        (Some "pipeline") None = Ok (s', fli).
Proof.
  unfold run_red_contactos.
  destruct (get_licitacion s lid) as [lic|]; [|done].
  case_bool_decide; [done|].
  destruct (_from_v2_people jo) as [[people_v2 aprobadores]|] eqn:Hv2;
    cbn [rbind]; [|done].
  destruct (match people_v2 with [] => _ | _ => _ end) as [[people aps]|] eqn:Hparse;
    cbn [rbind]; [|done].
  assert (people ≠ [] → payload_people jo people aps) as Hpeople.
  { intros Hne. destruct people_v2 as [|p2 ps2].
    - destruct (_from_v1_people jo) as [pv1|] eqn:Hv1; cbn [rbind] in Hparse; [|done].
      injection Hparse as <- <-. right. by exists aprobadores.
    - injection Hparse as <- <-. by left. }
  destruct people as [|p people]; [done|].
  destruct (build_graph (p :: people)) as [by_id adj] eqn:Hgraph.
  destruct (pick_official_ids _ _ _) as [official_ids|] eqn:Hoff; cbn [rbind]; [|done].
  destruct (pick_contractor_ids _ _) as [contractor_ids|] eqn:Hcon; cbn [rbind]; [|done].
  destruct (search_matches adj by_id official_ids contractor_ids)
    as [[matches best] best_score] eqn:Hsearch.
  rewrite ensure_flag_exists_contactos.
  destruct best as [[[oid cid] path]|]; cbv zeta beta; cbn [rbind];
    (match goal with
     | |- context [Repo.set_flag_for_licitacion ?a ?b ?c ?d ?e ?f ?g ?h] =>
         destruct (Repo.set_flag_for_licitacion a b c d e f g h) as [[s1 fli]|] eqn:Hset
     end; cbn [rbind]; [|done]);
    intros [= <- <- <- <-]; cbn [detail_matches detail_official_ids
                                 detail_contractor_ids detail_lic_entidad];
    eexists lic, (p :: people), aps, by_id, adj, _, best_score, fli;
    split_and!; try done; by apply Hpeople.
Qed.


(** The runs that do not evaluate the payload write nothing. *)
Lemma run_red_contactos_skips s lid jo s' r :
  run_red_contactos s lid jo = Ok (s', r) →
  match r with
  | NoLicitacion _ => s' = s ∧ get_licitacion s lid = None
  | NothingToDo _ => s' = s ∧ is_Some (get_licitacion s lid)
  | Evaluated _ _ _ => True
  end.
Proof.
  intros Hrun. destruct r as [d|d|flag comment detail]; [| |done].
  - unfold run_red_contactos in Hrun.
    destruct (get_licitacion s lid) as [lic|]; [|by injection Hrun as <-].
    case_bool_decide; [done|].
    destruct (_from_v2_people jo) as [[people_v2 aprobadores]|]; cbn [rbind] in Hrun;
      [|done].
    destruct (match people_v2 with [] => _ | _ => _ end) as [[people aps]|];
      cbn [rbind] in Hrun; [|done].
    destruct people as [|p people]; [done|].
    destruct (build_graph (p :: people)) as [by_id adj].
    destruct (pick_official_ids _ _ _); cbn [rbind] in Hrun; [|done].
    destruct (pick_contractor_ids _ _); cbn [rbind] in Hrun; [|done].
    destruct (search_matches _ _ _ _) as [[matches best] best_score].
    rewrite ensure_flag_exists_contactos in Hrun.
    destruct best as [[[oid cid] path]|]; cbv zeta beta in Hrun; cbn [rbind] in Hrun;
      (match type of Hrun with
       | context [Repo.set_flag_for_licitacion ?a ?b ?c ?d ?e ?f ?g ?h] =>
           destruct (Repo.set_flag_for_licitacion a b c d e f g h) as [[s1 fli]|]
       end; cbn [rbind] in Hrun; done).
  - unfold run_red_contactos in Hrun.
    destruct (get_licitacion s lid) as [lic|]; [|done].
    case_bool_decide; [by injection Hrun as <-|].
    destruct (_from_v2_people jo) as [[people_v2 aprobadores]|]; cbn [rbind] in Hrun;
      [|done].
    destruct (match people_v2 with [] => _ | _ => _ end) as [[people aps]|];
      cbn [rbind] in Hrun; [|done].
    destruct people as [|p people]; [by injection Hrun as <-|].
    destruct (build_graph (p :: people)) as [by_id adj].
    destruct (pick_official_ids _ _ _); cbn [rbind] in Hrun; [|done].
    destruct (pick_contractor_ids _ _); cbn [rbind] in Hrun; [|done].
    destruct (search_matches _ _ _ _) as [[matches best] best_score].
    rewrite ensure_flag_exists_contactos in Hrun.
    destruct best as [[[oid cid] path]|]; cbv zeta beta in Hrun; cbn [rbind] in Hrun;
      (match type of Hrun with
       | context [Repo.set_flag_for_licitacion ?a ?b ?c ?d ?e ?f ?g ?h] =>
           destruct (Repo.set_flag_for_licitacion a b c d e f g h) as [[s1 fli]|]
       end; cbn [rbind] in Hrun; done).
Qed.

End detector_more.

(** ** The orchestrator, continued *)

Section pipeline_more.
Context `{PyRuntime} `{Numpy} `{SqlEngine}.
Variables HAS_PRECIO HAS_GAP_FECHA : bool.
Import Repo Pipeline.

Local Abbreviation _run_one_flow := (_run_one_flow HAS_PRECIO HAS_GAP_FECHA).
Local Abbreviation run_flows := (run_flows HAS_PRECIO HAS_GAP_FECHA).
Local Abbreviation run_flow_for_one := (run_flow_for_one HAS_PRECIO HAS_GAP_FECHA).
Local Abbreviation run_each := (run_each HAS_PRECIO HAS_GAP_FECHA).
Local Abbreviation run_flow_batch := (run_flow_batch HAS_PRECIO HAS_GAP_FECHA).
Local Abbreviation get_computable_flows := (get_computable_flows HAS_PRECIO HAS_GAP_FECHA).
Local Abbreviation get_available_flows := (get_available_flows HAS_PRECIO HAS_GAP_FECHA).

(** Writes to the flag tables only, and keeps the constraints *)
Local Abbreviation kept s s' := (flags_only s s' ∧ (store_ok s → store_ok s')).

Lemma flags_only_refl s : flags_only s s.
Proof. by repeat split. Qed.

Lemma flags_only_trans s1 s2 s3 :
  flags_only s1 s2 → flags_only s2 s3 → flags_only s1 s3.
Proof.
  intros [(?&?&?&?) ?] [(?&?&?&?) ?]. split; [repeat split; congruence|].
  by etrans.
Qed.

Lemma kept_trans s1 s2 s3 : kept s1 s2 → kept s2 s3 → kept s1 s3.
Proof. intros [? ?] [? ?]. split; [by eapply flags_only_trans|auto]. Qed.

Lemma upserted_flags_kept s codigo nombre descripcion :
  kept s (upserted_flags s codigo nombre descripcion).
Proof.
  split; [|by intros (? & _)%(upserted_flags_ok _ codigo nombre descripcion)].
  unfold upserted_flags. case_bool_decide; by repeat split.
Qed.

Lemma set_flag_kept s lid codigo valor com fue usr fecha s' fli :
  set_flag_for_licitacion s lid codigo valor com fue usr fecha = Ok (s', fli) →
  kept s s'.
Proof.
  intros Hrun. split.
  - apply set_flag_for_licitacion_shape in Hrun
      as (flag & entry & stamp & _ & _ & _ & _ & _ & _ & Hlog & _ & _ & _ & _ & _ & Hent).
    split; [done|]. rewrite Hlog. by apply prefix_app_r.
  - intros Hok.
    by destruct (set_flag_for_licitacion_returned _ _ _ _ _ _ _ _ _ _ Hok Hrun)
      as (e1 & Hok1 & _).
Qed.

Lemma run_flag_precio_for_one_kept s lid top_k min_neighbors penalty_estado s' res :
  FlagPrecio.run_flag_precio_for_one s lid top_k min_neighbors penalty_estado
  = Ok (s', res) → kept s s'.
Proof.
  intros (valor & com & fue & fli & Hset & _)%run_flag_precio_for_one_inv.
  eapply kept_trans; [apply upserted_flags_kept|by eapply set_flag_kept].
Qed.

Lemma run_flag_fecha_for_one_kept s lid jo s' r :
  FlagFecha.run_flag_fecha_for_one s lid jo = Ok (s', r) → kept s s'.
Proof.
  unfold FlagFecha.run_flag_fecha_for_one.
  destruct (py_int _) as [threshold|]; simpl; [|done].
  destruct (FlagFecha.py_set _) as [holidays|]; simpl; [|done].
  destruct (FlagFecha.calendar_row s lid) as [row|].
  2:{ intros [= <- <-]. split; [apply flags_only_refl|done]. }
  destruct (FlagFecha._business_days _ _ _) as [dias|]; [done|].
  intros [= <- <-]. split; [apply flags_only_refl|done].
Qed.

Lemma run_red_contactos_kept s lid jo s' r :
  RedContactos.run_red_contactos s lid jo = Ok (s', r) → kept s s'.
Proof.
  intros Hrun. destruct r as [d|d|flag comment detail].
  - apply run_red_contactos_skips in Hrun as [-> _].
    split; [apply flags_only_refl|done].
  - apply run_red_contactos_skips in Hrun as [-> _].
    split; [apply flags_only_refl|done].
  - apply run_red_contactos_inv in Hrun
      as (lic & people & aps & by_id & adj & best & best_score & fli & _ & _ & _ & _
          & _ & _ & _ & _ & _ & Hset).
    eapply kept_trans; [apply upserted_flags_kept|by eapply set_flag_kept].
Qed.

Lemma _run_one_flow_kept s lid flow jo s' entry :
  _run_one_flow s lid flow jo = Ok (s', entry) → kept s s'.
Proof.
  unfold Pipeline._run_one_flow. destruct (decide (flow = "red_contactos")) as [->|].
  - destruct (no_payload jo).
    { intros [= <- <-]. split; [apply flags_only_refl|done]. }
    destruct (RedContactos.run_red_contactos _ _ _) as [[s1 r]|] eqn:Hrun;
      simpl; [|done].
    intros [= <- <-]. by eapply run_red_contactos_kept.
  - destruct (bool_decide (flow = "red_precio") && HAS_PRECIO).
    { destruct (FlagPrecio.run_flag_precio_for_one _ _ _ _ _) as [[s1 res]|] eqn:Hrun;
        simpl; [|done].
      intros [= <- <-]. by eapply run_flag_precio_for_one_kept. }
    destruct (bool_decide (flow = "gap_fechas") && HAS_GAP_FECHA); [|done].
    destruct (FlagFecha.run_flag_fecha_for_one _ _ _) as [[s1 r]|] eqn:Hrun;
      simpl; [|done].
    intros [= <- <-]. by eapply run_flag_fecha_for_one_kept.
Qed.

Lemma run_flows_kept s lid flows jo s' entries :
  run_flows s lid flows jo = Ok (s', entries) → kept s s'.
Proof.
  revert s s' entries. induction flows as [|f flows IH]; intros s s' entries; simpl.
  - intros [= <- <-]. split; [apply flags_only_refl|done].
  - destruct (_run_one_flow s lid f jo) as [[s1 e]|] eqn:He; simpl; [|done].
    destruct (run_flows s1 lid flows jo) as [[s2 es]|] eqn:Hes; simpl; [|done].
    intros [= <- <-]. eapply kept_trans; [by eapply _run_one_flow_kept|by eapply IH].
Qed.

Lemma run_flow_for_one_kept s lid flow jo s' r :
  run_flow_for_one s lid flow jo = Ok (s', r) → kept s s'.
Proof.
  unfold Pipeline.run_flow_for_one.
  destruct (run_flows _ _ _ _) as [[s1 es]|] eqn:Hes; simpl; [|done].
  intros [= <- <-]. by eapply run_flows_kept.
Qed.

Lemma run_each_kept s ksflow ids jo s' out :
  run_each s ksflow ids jo = Ok (s', out) → kept s s'.
Proof.
  revert s s' out. induction ids as [|lid ids IH]; intros s s' out; simpl.
  - intros [= <- <-]. split; [apply flags_only_refl|done].
  - destruct (run_flow_for_one s lid ksflow jo) as [[s1 r]|] eqn:Hr; simpl; [|done].
    destruct (run_each s1 ksflow ids jo) as [[s2 rs]|] eqn:Hrs; simpl; [|done].
    intros [= <- <-]. eapply kept_trans; [by eapply run_flow_for_one_kept|by eapply IH].
Qed.

Lemma run_flow_batch_kept s ksflow ids where_clause limit jo s' out :
  run_flow_batch s ksflow ids where_clause limit jo = Ok (s', out) → kept s s'.
Proof.
  unfold Pipeline.run_flow_batch.
  destruct (if decide (ksflow = "all") then _ else _) as [[]|]; simpl; [|done].
  destruct (match ids with None => _ | Some _ => _ end) as [lic_ids|]; simpl; [|done].
  apply run_each_kept.
Qed.

(** X23. A run of the orchestrator that returns, for one licitacion or for
    a batch, has written the flag tables only: the tables of licitaciones,
    chunks, key map and calendar are as they were, and the log has only been
    appended to, every entry it held still in place. *)
Theorem pipeline_writes_flag_tables_only :
  (∀ s lid flow jo s' r,
     run_flow_for_one s lid flow jo = Ok (s', r) →
     same_entities s s' ∧ t_flags_log s `prefix_of` t_flags_log s')
  ∧ (∀ s ksflow ids where_clause limit jo s' out,
       run_flow_batch s ksflow ids where_clause limit jo = Ok (s', out) →
       same_entities s s' ∧ t_flags_log s `prefix_of` t_flags_log s').
Proof.
  split.
  - intros s lid flow jo s' r [? _]%run_flow_for_one_kept. done.
  - intros s ksflow ids where_clause limit jo s' out [? _]%run_flow_batch_kept. done.
Qed.

(** X24. The orchestrator keeps the constraints of the schema: after a run
    that returns, for one licitacion or for a batch, on a store where flag
    codes, keys and (licitacion, flag) pairs are unique, they still are. *)
Theorem pipeline_keeps_constraints :
  (∀ s lid flow jo s' r,
     store_ok s → run_flow_for_one s lid flow jo = Ok (s', r) → store_ok s')
  ∧ (∀ s ksflow ids where_clause limit jo s' out,
       store_ok s →
       run_flow_batch s ksflow ids where_clause limit jo = Ok (s', out) →
       store_ok s').
Proof.
  split.
  - intros s lid flow jo s' r Hok [_ Hkeep]%run_flow_for_one_kept. auto.
  - intros s ksflow ids where_clause limit jo s' out Hok [_ Hkeep]%run_flow_batch_kept.
    auto.
Qed.

(** X25. A flow name that [get_available_flows] does not list is rejected:
    [run_flow_for_one] raises [ValueError] "Flow desconocido o no
    disponible", and [run_flow_batch] raises [ValueError] "Flow desconocido"
    before it looks at the ids or the store.  This includes "red_precio" and
    "gap_fechas" when their detector could not be imported. *)
Theorem unknown_flow_is_rejected s lid flow ids where_clause limit jo :
  flow ∉ get_available_flows →
  run_flow_for_one s lid flow jo
  = Raise (ValueError ("Flow desconocido o no disponible: " +:+ flow))
  ∧ run_flow_batch s flow ids where_clause limit jo
    = Raise (ValueError ("Flow desconocido: " +:+ flow)).
Proof.
  unfold Pipeline.get_available_flows, get_interactive_flows. intros Hflow.
  assert (flow ≠ "all" ∧ flow ≠ "red_contactos" ∧ flow ∉ get_computable_flows)
    as (Hall & Hcon & Hcomp) by set_solver.
  split.
  - unfold Pipeline.run_flow_for_one. rewrite decide_False by done. simpl.
    unfold Pipeline._run_one_flow. rewrite decide_False by done.
    assert (bool_decide (flow = "red_precio") && HAS_PRECIO = false) as ->.
    { apply andb_false_iff. destruct HAS_PRECIO; [left|by right].
      apply bool_decide_eq_false. intros ->. apply Hcomp.
      unfold Pipeline.get_computable_flows. set_solver. }
    assert (bool_decide (flow = "gap_fechas") && HAS_GAP_FECHA = false) as ->.
    { apply andb_false_iff. destruct HAS_GAP_FECHA; [left|by right].
      apply bool_decide_eq_false. intros ->. apply Hcomp.
      unfold Pipeline.get_computable_flows. set_solver. }
    done.
  - unfold Pipeline.run_flow_batch. by rewrite !decide_False.
Qed.
End pipeline_more.

(** ** The endpoints *)

Section api_props.
Context `{PyRuntime} `{Numpy} `{SqlEngine}.
Variables HAS_PRECIO HAS_GAP_FECHA : bool.
Import Repo Pipeline Api.

Local Abbreviation run_flow_for_one := (run_flow_for_one HAS_PRECIO HAS_GAP_FECHA).
Local Abbreviation run_each := (run_each HAS_PRECIO HAS_GAP_FECHA).
Local Abbreviation run_flow_batch := (run_flow_batch HAS_PRECIO HAS_GAP_FECHA).
Local Abbreviation list_flows := (list_flows HAS_PRECIO HAS_GAP_FECHA).
Local Abbreviation run_pipeline_batch_ep := (run_pipeline_batch_ep HAS_PRECIO HAS_GAP_FECHA).
Local Abbreviation run_red_contactos_endpoint :=
  (run_red_contactos_endpoint HAS_PRECIO HAS_GAP_FECHA).
Local Abbreviation run_one_flag_endpoint := (run_one_flag_endpoint HAS_PRECIO HAS_GAP_FECHA).

Lemma contactos_not_computable :
  "red_contactos" ∉ get_computable_flows HAS_PRECIO HAS_GAP_FECHA.
Proof.
  unfold get_computable_flows. destruct HAS_PRECIO, HAS_GAP_FECHA; set_solver.
Qed.

(** X26. The batch endpoint cannot run the contact flow, though the flows
    endpoint lists it: it passes neither a payload nor ids to
    [run_flow_batch], so for the flow "red_contactos" it answers 400 with the
    message that the payload is required, whatever the store holds. *)
Theorem batch_endpoint_cannot_run_contactos s payload :
  batch_flow payload = "red_contactos" →
  run_pipeline_batch_ep s payload
  = HTTPException 400 "red_contactos requiere json_override (payload PersonasPayload)."
  ∧ batch_flow payload ∈ list_flows.
Proof.
  intros Hflow. split.
  - unfold Api.run_pipeline_batch_ep, Pipeline.run_flow_batch. rewrite Hflow.
    rewrite (decide_False (P := "red_contactos" = "all")) by done.
    by rewrite decide_False by apply contactos_not_computable.
  - rewrite Hflow. unfold Api.list_flows, get_available_flows, get_interactive_flows.
    set_solver.
Qed.

Lemma run_each_contactos s ids jo s' out :
  no_payload (Some jo) = false →
  run_each s "red_contactos" ids (Some jo) = Ok (s', out) →
  Forall (λ r, ∃ res, applied r = [EntryContactos res]) out.
Proof.
  intros Hjo. destruct jo as [|kv jo]; [done|].
  revert s s' out. induction ids as [|lid ids IH]; intros s s' out; simpl.
  - intros [= <- <-]. constructor.
  - unfold Pipeline.run_flow_for_one at 1. simpl. unfold Pipeline._run_one_flow. simpl.
    destruct (RedContactos.run_red_contactos _ _ _) as [[s1 res]|]; simpl; [|done].
    destruct (run_each (commit s1) "red_contactos" ids (Some (kv :: jo)))
      as [[s2 rs]|] eqn:Hrs;
      simpl; [|done].
    intros [= <- <-]. constructor; [by eexists|by eapply IH].
Qed.

(** X27. The contact endpoint passes the payload it was sent, which is
    never empty once dumped, so the flow is never refused for want of a
    payload: given ids, an answer holds one result per id, in order, each
    with the one entry of the contact detector.  Given no id,
    [run_flow_batch] raises [ValueError], which this endpoint does not
    catch. *)
Theorem contactos_endpoint_needs_ids s data :
  run_red_contactos_endpoint s [] data
  = Uncaught (ValueError "red_contactos requiere lic_ids (lista de IDs a evaluar).")
  ∧ ∀ ids s' out,
      run_red_contactos_endpoint s ids data = Respond s' out →
      run_licitacion_id <$> out = ids
      ∧ Forall (λ r, ∃ res, applied r = [EntryContactos res]) out.
Proof.
  split.
  - unfold Api.run_red_contactos_endpoint, Pipeline.run_flow_batch.
    rewrite (decide_False (P := "red_contactos" = "all")) by done.
    by rewrite decide_False by apply contactos_not_computable.
  - intros ids s' out. unfold Api.run_red_contactos_endpoint.
    destruct (Pipeline.run_flow_batch _ _ _ _ _ _ _ _) as [[s1 out1]|] eqn:Hrun; [|done].
    intros [= <- <-]. apply run_flow_batch_run_each in Hrun. split.
    + by eapply run_each_ids.
    + eapply run_each_contactos; [|exact Hrun]. done.
Qed.

(** X28. The endpoint that runs one flag answers 400 "Flag desconocido" for
    a code that is not one of the three flows, without running anything; and
    for the contact flow with no payload it answers with [ok] true around the
    entry whose own [ok] is false, error "json_required", the store as it
    was. *)
Theorem one_flag_endpoint_answers s flag_code lid jo :
  (flag_code ∉ ["red_precio"; "gap_fechas"; "red_contactos"] →
   run_one_flag_endpoint s flag_code lid jo
   = HTTPException 400 ("Flag desconocido: " +:+ flag_code))
  ∧ (flag_code = "red_contactos" → jo = None ∨ jo = Some [] →
     run_one_flag_endpoint s flag_code lid jo
     = Respond s (mk_OneFlagResponse true "red_contactos"
                    (mk_RunResult lid
                       [EntryError "red_contactos" false "json_required"]))).
Proof.
  split.
  - intros Hcode. unfold Api.run_one_flag_endpoint.
    rewrite filter_none; [done|]. intros kv Hkv Heq. apply Hcode. rewrite <- Heq.
    repeat (apply elem_of_cons in Hkv as [->|Hkv]); set_solver.
  - intros -> Hjo. unfold Api.run_one_flag_endpoint. simpl.
    by destruct Hjo as [-> | ->].
Qed.

End api_props.

(** ** Worked examples, continued *)

Section more_examples.
Import Example.

Ltac store_ok := repeat split; by apply (bool_decide_unpack _).
Ltac decided := by apply (bool_decide_unpack _).


Lemma set_flag_last_write_wins_witness :
  ∃ s1 fli1 s2 fli2 e1 e2,
    Repo.set_flag_for_licitacion stored 2 "manual" true (Some "visto")
      (Some "manual") (Some "api") None = Ok (s1, fli1)
    ∧ Repo.set_flag_for_licitacion s1 2 "manual" false None (Some "revision")
        None (Some (mk_datetime 738900 0)) = Ok (s2, fli2)
    ∧ Repo.assignments_of s2 2 "manual" = [fli2]
    ∧ fli_id fli2 = fli_id fli1
    ∧ (fli_valor fli2, fli_comentario fli2, fli_fuente fli2)
      = (false, None, Some "revision")
    ∧ length (t_flags_licitaciones s2) = length (t_flags_licitaciones s1)
    ∧ t_flags_log s2 = t_flags_log stored ++ [e1; e2]
    ∧ log_flags_licitaciones_id e1 = fli_id fli1
    ∧ log_flags_licitaciones_id e2 = fli_id fli1.
Proof. apply set_flag_last_write_wins; [store_ok|by eexists|by right]. Defined.

Lemma set_flag_touches_one_pair_witness :
  ∃ s' fli,
    Repo.set_flag_for_licitacion stored 1 "manual" false None None None None
    = Ok (s', fli)
    ∧ (∀ r, r ∈ t_flags_licitaciones stored → Repo.pair_of r ≠ Repo.pair_of fli →
            r ∈ t_flags_licitaciones s')
    ∧ (∀ r, r ∈ t_flags_licitaciones s' → r = fli ∨ r ∈ t_flags_licitaciones stored)
    ∧ fli ∈ t_flags_licitaciones s'
    ∧ t_flags stored `prefix_of` t_flags s'
    ∧ (∃ entry, t_flags_log s' = t_flags_log stored ++ [entry])
    ∧ Repo.same_entities stored s'.
Proof.
  destruct (Repo.set_flag_for_licitacion stored 1 "manual" false None None None None)
    as [[s' fli]|e] eqn:Hrun; [|by vm_compute in Hrun].
  exists s', fli. split; [reflexivity|].
  apply (set_flag_touches_one_pair stored 1 "manual" false None None None None);
    [store_ok|exact Hrun].
Defined.

Lemma business_days_uses_dates_only_witness :
  FlagFecha._business_days (Some (mk_datetime 738886 0)) None (Some ∅) = None
  ∧ FlagFecha._business_days (Some (mk_datetime 738886 61200000000))
      (Some (mk_datetime 738894 0)) None
    = FlagFecha._business_days (Some (mk_datetime 738886 0))
        (Some (mk_datetime 738894 36000000000)) None
  ∧ FlagFecha._business_days (Some (mk_datetime 738886 61200000000))
      (Some (mk_datetime 738886 28800000000)) None = Some 0.
Proof.
  destruct business_days_uses_dates_only as (Hnone & Hdates & Hsame). split_and!.
  - apply Hnone. by right.
  - apply Hdates; reflexivity.
  - apply Hsame. reflexivity.
Defined.

Lemma business_days_bounds_witness :
  FlagFecha._business_days (Some (mk_datetime 738886 28800000000))
    (Some (mk_datetime 738894 36000000000)) None = Some 6
  ∧ 0 ≤ 6 ≤ Z.abs (738894 - 738886).
Proof.
  assert (FlagFecha._business_days (Some (mk_datetime 738886 28800000000))
            (Some (mk_datetime 738894 36000000000)) None = Some 6) as Hdays
    by (by vm_compute).
  split; [exact Hdays|]. exact (business_days_bounds _ _ _ _ Hdays).
Defined.

Lemma business_days_additive_witness :
  ∃ n1 n2,
    FlagFecha._business_days (Some (mk_datetime 738886 0)) (Some (mk_datetime 738890 0))
      (Some {["2024-01-01"]}) = Some n1
    ∧ FlagFecha._business_days (Some (mk_datetime 738890 0))
        (Some (mk_datetime 738894 0)) (Some {["2024-01-01"]}) = Some n2
    ∧ FlagFecha._business_days (Some (mk_datetime 738886 0))
        (Some (mk_datetime 738894 0)) (Some {["2024-01-01"]}) = Some (n1 + n2).
Proof. apply business_days_additive; simpl; lia. Defined.

Lemma business_days_whole_weeks_witness :
  FlagFecha._business_days (Some (mk_datetime 738888 0)) (Some (mk_datetime 738902 0))
    (Some ∅) = Some (5 * 2).
Proof. apply business_days_whole_weeks; [by right|lia|reflexivity]. Defined.

Lemma business_days_holidays_monotone_witness :
  ∃ n n',
    FlagFecha._business_days (Some (mk_datetime 738886 0)) (Some (mk_datetime 738894 0))
      (Some {["2024-01-08"]}) = Some n
    ∧ FlagFecha._business_days (Some (mk_datetime 738886 0))
        (Some (mk_datetime 738894 0)) (Some ({["2024-01-08"]} ∪ {["2024-01-01"]}))
      = Some n'
    ∧ n' ≤ n.
Proof.
  destruct business_days_holidays_monotone as [_ Hmono]. apply Hmono. set_solver.
Defined.

Lemma gap_run_skips_or_raises_witness :
  (∃ e, FlagFecha.run_flag_fecha_for_one scheduled 1 None = Raise e)
  ∧ FlagFecha.run_flag_fecha_for_one five 1 None
    = Ok (five, FlagFecha.GapSkipped "sin_calendario")
  ∧ ∀ s' r,
      FlagFecha.run_flag_fecha_for_one scheduled 1
        (Some [("threshold", JInt 3)]) = Ok (s', r) →
      s' = scheduled
      ∧ (r = FlagFecha.GapSkipped "sin_calendario"
         ∧ FlagFecha.calendar_row scheduled 1 = None
         ∨ r = FlagFecha.GapSkipped "fechas_incompletas"
           ∧ ∃ row, FlagFecha.calendar_row scheduled 1 = Some row
                    ∧ (cal_aceptacion_ofertas_ts row = None
                       ∨ cal_apertura_ofertas_ts row = None)).
Proof.
  split_and!.
  - destruct (gap_run_skips_or_raises scheduled 1 None) as (_ & Hraises & _).
    eapply Hraises; reflexivity.
  - destruct (gap_run_skips_or_raises five 1 None) as (_ & _ & Hskips & _).
    apply (Hskips 5 ∅); reflexivity.
  - by destruct (gap_run_skips_or_raises scheduled 1 (Some [("threshold", JInt 3)]))
      as (Hreturns & _).
Defined.


Lemma candidate_headers_are_comparable_witness :
  lic 2 (Some 200%float)
  ∈ FlagPrecio._fetch_candidate_headers five 1 (Some (lic 1 (Some 100%float)))
  ∧ (∀ c, c ∈ FlagPrecio._fetch_candidate_headers five 1 (Some (lic 1 (Some 100%float))) →
          c ∈ t_licitacion five ∧ lic_id c ≠ 1)
  ∧ StronglySorted (λ a b, lic_id a ≤ lic_id b)
      (FlagPrecio._fetch_candidate_headers five 1 (Some (lic 1 (Some 100%float)))).
Proof.
  pose proof (candidate_headers_are_comparable five 1 (lic 1 (Some 100%float)))
    as Hcands.
  cbv zeta in Hcands. destruct Hcands as (Hin & Hsorted & _ & Hall). split_and!.
  - apply Hall.
    + apply Nat.ltb_lt. by vm_compute.
    + simpl. do 4 right. left.
    + split; [discriminate|]. split; reflexivity.
  - intros c Hc. destruct (Hin c Hc) as (Hc' & Hne & _). by split.
  - exact Hsorted.
Defined.

Lemma price_neighbors_exclude_target_witness :
  ∃ s' res,
    FlagPrecio.run_flag_precio_for_one priced 1 2 2 0.1 = Ok (s', res)
    ∧ (1 ∉ FlagPrecio.neighbor_ids res)
    ∧ FlagPrecio.n_comparables res = Z.of_nat (length (FlagPrecio.neighbor_ids res))
    ∧ ∀ id, id ∈ FlagPrecio.neighbor_ids res →
            ∃ c x, c ∈ t_licitacion priced ∧ lic_id c = id ∧ lic_cuantia c = Some x
                   ∧ PrimFloat.is_nan x = false.
Proof.
  destruct (FlagPrecio.run_flag_precio_for_one priced 1 2 2 0.1)
    as [[s' res]|e] eqn:Hrun; [|by vm_compute in Hrun].
  exists s', res. split; [reflexivity|].
  exact (price_neighbors_exclude_target priced 1 2 2 0.1%float s' res Hrun).
Defined.

Lemma price_result_shape_witness :
  ∃ s' res,
    FlagPrecio.run_flag_precio_for_one priced 1 2 2 0.1 = Ok (s', res)
    ∧ FlagPrecio.licitacion_id res = 1
    ∧ FlagPrecio.target_cuantia res = get_licitacion priced 1 ≫= lic_cuantia
    ∧ (FlagPrecio.method res = "skip" ∧ FlagPrecio.n_comparables res = 0
       ∧ FlagPrecio.neighbor_ids res = []
       ∧ FlagPrecio.stats res = FlagPrecio.empty_stats
       ∨ FlagPrecio.method res = "chunks_mean_cos"
         ∧ (FlagPrecio.stats res = FlagPrecio.empty_stats
            ∧ FlagPrecio.n_comparables res < 2
            ∨ FlagPrecio.n (FlagPrecio.stats res) = FlagPrecio.n_comparables res
              ∧ 2 ≤ FlagPrecio.n_comparables res
              ∧ ∃ values,
                  FlagPrecio.stats res
                  = FlagPrecio._robust_stats values
                      (default PrimFloat.nan (FlagPrecio.target_cuantia res))
                  ∧ Forall2 (λ id x,
                       PrimFloat.is_nan x = false
                       ∧ ∃ c, c ∈ t_licitacion priced ∧ lic_id c = id
                              ∧ lic_cuantia c = Some x)
                      (FlagPrecio.neighbor_ids res) values))
    ∧ (0 ≤ Z.max 2 2 → FlagPrecio.n_comparables res ≤ Z.max 2 2).
Proof.
  destruct (FlagPrecio.run_flag_precio_for_one priced 1 2 2 0.1)
    as [[s' res]|e] eqn:Hrun; [|by vm_compute in Hrun].
  exists s', res. split; [reflexivity|].
  exact (price_result_shape priced 1 2 2 0.1%float s' res Hrun).
Defined.

Lemma shortest_path_is_a_path_witness :
  RedContactos.is_path (chain true false) "A" "C" ["A"; "B"; "C"]
  ∧ 1 ≤ Z.of_nat (length ["A"; "B"; "C"]) - 1
  ∧ (0 ≤ 2 → Z.of_nat (length ["A"; "B"; "C"]) - 1 ≤ 2 + 1).
Proof. apply shortest_path_is_a_path. by vm_compute. Defined.

Lemma direct_connection_is_found_witness :
  RedContactos.shortest_path (chain false true) "C" "B" 0 = Some ["C"; "B"].
Proof.
  apply direct_connection_is_found; [discriminate| |].
  - apply (bool_decide_unpack _). by vm_compute.
  - apply (bool_decide_unpack _). by vm_compute.
Defined.

Lemma shortest_path_is_shortest_witness :
  RedContactos.walk_to (chain false false) "A" "D" ["A"; "B"; "C"; "D"]
  ∧ (∀ p', RedContactos.walk_to (chain false false) "A" "D" p' →
           RedContactos.hops ["A"; "B"; "C"; "D"] ≤ RedContactos.hops p')
  ∧ ∀ p', RedContactos.walk_to (chain false false) "A" "D" p' →
          1 + 1 < RedContactos.hops p'.
Proof.
  pose proof (shortest_path_is_shortest (chain false false) "A" "D" 2) as Hfar.
  pose proof (shortest_path_is_shortest (chain false false) "A" "D" 1) as Hnear.
  assert (RedContactos.shortest_path (chain false false) "A" "D" 2
          = Some ["A"; "B"; "C"; "D"]) as Hsome by (by vm_compute).
  assert (RedContactos.shortest_path (chain false false) "A" "D" 1 = None) as Hnone
    by (by vm_compute).
  rewrite Hsome in Hfar. rewrite Hnone in Hnear.
  assert (is_Some (chain false false !! "A")) as Ha
    by (apply (bool_decide_unpack _); by vm_compute).
  assert (is_Some (chain false false !! "D")) as Hd
    by (apply (bool_decide_unpack _); by vm_compute).
  destruct (Hfar ltac:(lia) ltac:(discriminate) Ha Hd) as [Hwalk Hmin].
  split; [exact Hwalk|]. split; [exact Hmin|].
  exact (Hnear ltac:(lia) ltac:(discriminate) Ha Hd).
Defined.

Lemma build_graph_is_undirected_witness :
  ∃ by_id adj,
    RedContactos.build_graph chain_people = (by_id, adj)
    ∧ (∀ p, p ∈ chain_people →
            is_Some (by_id !! RedContactos.p_id p)
            ∧ is_Some (adj !! RedContactos.p_id p))
    ∧ (∀ id p, by_id !! id = Some p → p ∈ chain_people ∧ RedContactos.p_id p = id)
    ∧ RedContactos.undirected adj.
Proof.
  destruct (RedContactos.build_graph chain_people) as [by_id adj] eqn:Hgraph.
  exists by_id, adj. split; [reflexivity|].
  exact (build_graph_is_undirected chain_people by_id adj Hgraph).
Defined.

Lemma picked_ids_are_persons_witness :
  ∃ officials contractors,
    RedContactos.pick_official_ids "Alcaldía" chain_people (JList []) = Ok officials
    ∧ RedContactos.pick_contractor_ids chain_people chain_payload = Ok contractors
    ∧ NoDup officials ∧ NoDup contractors
    ∧ (∀ id, id ∈ officials ++ contractors →
             ∃ p, p ∈ chain_people ∧ RedContactos.p_id p = id)
    ∧ Some "D" ∈ contractors.
Proof.
  destruct (RedContactos.pick_official_ids "Alcaldía" chain_people (JList []))
    as [officials|e] eqn:Hoff; [|by vm_compute in Hoff].
  destruct (RedContactos.pick_contractor_ids chain_people chain_payload)
    as [contractors|e] eqn:Hcon; [|by vm_compute in Hcon].
  destruct (picked_ids_are_persons chain_people) as [Hofficials Hcontractors].
  destruct (Hofficials _ _ _ Hoff) as (Hnd1 & Hin1 & _).
  destruct (Hcontractors _ _ Hcon) as (Hnd2 & Hin2 & Hall).
  exists officials, contractors. split_and!; try done.
  - intros id [Hid|Hid]%elem_of_app; auto.
  - apply (Hall (chain_person "D" false true [])); [|reflexivity].
    simpl. do 3 right. left.
Defined.



Lemma pipeline_writes_flag_tables_only_witness :
  ∃ s' out,
    Pipeline.run_flow_batch true true five "all" (Some [1; 2]) None None None
    = Ok (s', out)
    ∧ Repo.same_entities five s'
    ∧ t_flags_log five `prefix_of` t_flags_log s'.
Proof.
  destruct (Pipeline.run_flow_batch true true five "all" (Some [1; 2]) None None None)
    as [[s' out]|e] eqn:Hrun; [|by vm_compute in Hrun].
  exists s', out. split; [reflexivity|].
  destruct (pipeline_writes_flag_tables_only true true) as [_ Hbatch].
  exact (Hbatch five "all" (Some [1; 2]) None None None s' out Hrun).
Defined.

Lemma pipeline_keeps_constraints_witness :
  ∃ s' r,
    Pipeline.run_flow_for_one true true stored 1 "all" None = Ok (s', r)
    ∧ Repo.store_ok s'.
Proof.
  destruct (Pipeline.run_flow_for_one true true stored 1 "all" None)
    as [[s' r]|e] eqn:Hrun; [|by vm_compute in Hrun].
  exists s', r. split; [reflexivity|].
  destruct (pipeline_keeps_constraints true true) as [Hone _].
  apply (Hone stored 1 "all" None s' r); [store_ok|exact Hrun].
Defined.

Lemma unknown_flow_is_rejected_witness :
  Pipeline.run_flow_for_one false true five 1 "red_precio" None
  = Raise (ValueError ("Flow desconocido o no disponible: " +:+ "red_precio"))
  ∧ Pipeline.run_flow_batch false true five "red_precio" None None (Some 10) None
    = Raise (ValueError ("Flow desconocido: " +:+ "red_precio")).
Proof.
  apply unknown_flow_is_rejected. apply (bool_decide_unpack _). by vm_compute.
Defined.

Lemma batch_endpoint_cannot_run_contactos_witness :
  Api.run_pipeline_batch_ep true true five
    (Api.mk_BatchRequest "red_contactos" None (Some 10))
  = Api.HTTPException 400
      "red_contactos requiere json_override (payload PersonasPayload)."
  ∧ "red_contactos" ∈ Api.list_flows true true.
Proof.
  apply (batch_endpoint_cannot_run_contactos true true five
           (Api.mk_BatchRequest "red_contactos" None (Some 10))).
  reflexivity.
Defined.

Lemma contactos_endpoint_needs_ids_witness :
  ∃ s' out,
    Api.run_red_contactos_endpoint true true one [1] pair_data = Api.Respond s' out
    ∧ Pipeline.run_licitacion_id <$> out = [1]
    ∧ Forall (λ r, ∃ res, Pipeline.applied r = [Pipeline.EntryContactos res]) out.
Proof.
  destruct (Api.run_red_contactos_endpoint true true one [1] pair_data)
    as [s' out|code detail|e] eqn:Hrun; try (by vm_compute in Hrun).
  exists s', out. split; [reflexivity|].
  destruct (contactos_endpoint_needs_ids true true one pair_data) as [_ Hids].
  exact (Hids [1] s' out Hrun).
Defined.

Lemma one_flag_endpoint_answers_witness :
  Api.run_one_flag_endpoint true true stored "gap_fecha" 2 None
  = Api.HTTPException 400 ("Flag desconocido: " +:+ "gap_fecha")
  ∧ Api.run_one_flag_endpoint true true stored "red_contactos" 2 (Some [])
    = Api.Respond stored
        (Api.mk_OneFlagResponse true "red_contactos"
           (Pipeline.mk_RunResult 2
              [Pipeline.EntryError "red_contactos" false "json_required"])).
Proof.
  split.
  - destruct (one_flag_endpoint_answers true true stored "gap_fecha" 2 None)
      as [Hunknown _].
    apply Hunknown. apply (bool_decide_unpack _). by vm_compute.
  - destruct (one_flag_endpoint_answers true true stored "red_contactos" 2 (Some []))
      as [_ Hempty].
    apply Hempty; [reflexivity|by right].
Defined.

End more_examples.
